(** * Pharmaventory front end: session, request gateway and derived views

    A shallow embedding of the logic of [src/App.js]: the session restore
    effect, the authenticated request wrapper [fetchWithAuth], the
    login/registration handler, sign-out, the create-medicine handler and
    the values derived at render time (the medicine filter, the low-stock
    test).

    Conventions of the embedding.
    - A JavaScript value that reaches this code is a JSON value or
      [undefined]; [jsval := option json], with [None] for [undefined].
    - Strings are the bytes of the text in UTF-8.
    - [String.prototype.toLowerCase] is a parameter of the code that calls
      it.  What the language defines for texts written in ASCII is stated
      as [lowers_ascii]; [toLowerCase_basic] is the function on those
      texts and on words written in Greek letters.
    - The numbers of the values are the integers up to
      [Number.MAX_SAFE_INTEGER], which a double holds exactly and which are
      printed with all their digits.
    - [JSON.parse] is a reader of the JSON texts whose numbers are such
      integers and whose [\u] escapes name characters below 128; on them it
      returns the value [JSON.parse] returns.  [JSON.valid] recognises the
      whole grammar.  A statement about a text that is JSON assumes that
      the reader returns a value on it; a statement about a text that is
      not JSON assumes that [JSON.valid] rejects it.  The wording of the
      message of a SyntaxError is the engine's, and no statement depends on
      it.
    - The hooks that only drive the layout ([sidebarOpen], [activeSection])
      are left out of the state.
    - A computation that can throw returns a [Completion]; an awaited
      promise is a [Completion] as well ([Normal] for fulfilled, [Throw]
      for rejected).
    - The network is an input: every handler that awaits a request takes
      the [FetchOutcome] of that request as an argument. *)

From Stdlib Require Import ZArith Ascii String List Bool Lia.
From Stdlib Require Import DecimalString DecimalZ DecimalPos.
From stdpp Require Import base option list strings gmap.

Set Warnings "-register-all".

Open Scope string_scope.
Open Scope Z_scope.

(* ===================================================================== *)
(** ** JavaScript values                                                   *)
(* ===================================================================== *)

Inductive json : Type :=
  | JNull
  | JBool (b : bool)
  | JNum (n : Z)
  | JStr (s : string)
  | JArr (items : list json)
  | JObj (members : list (string * json)).

(** [undefined] is [None]. *)
Definition jsval : Type := option json.
Definition undefined : jsval := None.

(** Errors carry the constructor's name and the message. *)
Inductive ErrorName := Error | TypeError | SyntaxError | RangeError.

Record JsError := mkError { err_name : ErrorName; message : string }.

Inductive Completion (A : Type) : Type :=
  | Normal (a : A)
  | Throw (e : JsError).
Arguments Normal {A} a.
Arguments Throw {A} e.

Definition bind {A B} (c : Completion A) (k : A -> Completion B)
  : Completion B :=
  match c with
  | Normal a => k a
  | Throw e => Throw e
  end.

Notation "'let*' x ':=' c 'in' k" := (bind c (fun x => k))
  (at level 10, x name, c at level 100, k at level 200).

(** ToBoolean. *)
Definition truthy (v : jsval) : bool :=
  match v with
  | None => false
  | Some JNull => false
  | Some (JBool b) => b
  | Some (JNum n) => negb (n =? 0)
  | Some (JStr s) => negb (String.eqb s "")
  | Some (JArr _) => true
  | Some (JObj _) => true
  end.

(** [a || b]. *)
Definition js_or (a b : jsval) : jsval := if truthy a then a else b.

(** Own property of an object literal or of a parsed JSON object: the first
    binding of the key. *)
Fixpoint assoc (k : string) (members : list (string * json)) : jsval :=
  match members with
  | [] => None
  | (k', v) :: rest => if String.eqb k k' then Some v else assoc k rest
  end.

(** [v.k] for the keys this program reads ([token], [user], [detail],
    [message], [access_token], [name], ...): none of them is a property of
    a string, number, boolean or array. *)
Definition get_prop (v : jsval) (k : string) : Completion jsval :=
  match v with
  | None =>
      Throw (mkError TypeError
        ("Cannot read properties of undefined (reading '" ++ k ++ "')"))
  | Some JNull =>
      Throw (mkError TypeError
        ("Cannot read properties of null (reading '" ++ k ++ "')"))
  | Some (JObj members) => Normal (assoc k members)
  | Some _ => Normal None
  end.

(** [v?.k]. *)
Definition get_prop_opt (v : jsval) (k : string) : jsval :=
  match v with
  | Some (JObj members) => assoc k members
  | _ => None
  end.

(** Decimal digits of an integer. *)
Definition string_of_Z (n : Z) : string := NilZero.string_of_int (Z.to_int n).

Fixpoint join_with (sep : string) (parts : list string) : string :=
  match parts with
  | [] => ""
  | [p] => p
  | p :: rest => p ++ sep ++ join_with sep rest
  end.

(** ToString of a JSON value (template literals, [new Error(v)]). *)
Fixpoint ToString_json (v : json) : string :=
  match v with
  | JNull => "null"
  | JBool true => "true"
  | JBool false => "false"
  | JNum n => string_of_Z n
  | JStr s => s
  | JArr items =>
      join_with ","
        (List.map (fun x => match x with
                            | JNull => ""
                            | _ => ToString_json x
                            end) items)
  | JObj _ => "[object Object]"
  end.

Definition ToString (v : jsval) : string :=
  match v with
  | None => "undefined"
  | Some j => ToString_json j
  end.

(* ===================================================================== *)
(** ** String built-ins                                                    *)
(* ===================================================================== *)

(** [s.includes(t)]: [t] starts at some position of [s]. *)
Fixpoint includes (s t : string) : bool :=
  String.prefix t s ||
  match s with
  | EmptyString => false
  | String _ r => includes r t
  end.

(** The text is written in ASCII. *)
Definition is_ascii_char (c : ascii) : bool := (N_of_ascii c <? 128)%N.

Fixpoint is_ascii (s : string) : bool :=
  match s with
  | EmptyString => true
  | String c r => is_ascii_char c && is_ascii r
  end.

(** The small letter of a capital letter from A to Z; any other character
    is left as it is. *)
Definition lower_ascii (c : ascii) : ascii :=
  let n := N_of_ascii c in
  if ((65 <=? n) && (n <=? 90))%N then ascii_of_N (n + 32) else c.

(** The text with every letter from A to Z made small. *)
Fixpoint fold_ascii (s : string) : string :=
  match s with
  | EmptyString => EmptyString
  | String c r => String (lower_ascii c) (fold_ascii r)
  end.

(** [String.prototype.toLowerCase] is defined by the case mappings of the
    Unicode character database, which depend on the characters around a
    letter; the code below takes it as a parameter.  On a text written in
    ASCII the language makes the letters from A to Z small and leaves
    everything else. *)
Definition lowers_ascii (toLowerCase : string -> string) : Prop :=
  forall s, is_ascii s = true -> toLowerCase s = fold_ascii s.

(** *** Greek letters *)

(** The letters from alpha to omega are the code points 913 to 937 (capital,
    930 is not a letter) and 945 to 969 (small, 962 is the final sigma); in
    a text they are two bytes each. *)
Definition greek_code (b1 b2 : ascii) : option N :=
  let x := N_of_ascii b1 in
  let y := N_of_ascii b2 in
  if ((128 <=? y) && (y <=? 191))%N then
    if (x =? 206)%N then Some (896 + (y - 128))%N
    else if (x =? 207)%N then Some (960 + (y - 128))%N
    else None
  else None.

Definition greek_capital (n : N) : bool :=
  ((913 <=? n) && (n <=? 937) && negb (n =? 930))%N.

Definition greek_small (n : N) : bool := ((945 <=? n) && (n <=? 969))%N.

(** The letters of a word written in Greek letters only. *)
Fixpoint greek_letters (s : string) : option (list N) :=
  match s with
  | EmptyString => Some []
  | String b1 (String b2 r) =>
      match greek_code b1 b2 with
      | Some n =>
          if greek_capital n || greek_small n
          then option_map (cons n) (greek_letters r)
          else None
      | None => None
      end
  | String _ EmptyString => None
  end.

Definition utf8_greek (n : N) : string :=
  if (n <? 960)%N
  then String (ascii_of_N 206) (String (ascii_of_N (128 + (n - 896))) "")
  else String (ascii_of_N 207) (String (ascii_of_N (128 + (n - 960))) "").

(** A capital letter becomes the small letter 32 places on.  The capital
    sigma (931) becomes the final sigma (962) when a letter stands before it
    and none behind it, and the sigma (963) otherwise: the condition
    [Final_Sigma] of the character database, in a word of letters only. *)
Fixpoint lower_greek (after_letter : bool) (letters : list N) : list N :=
  match letters with
  | [] => []
  | n :: rest =>
      (if (n =? 931)%N then
         if after_letter && match rest with [] => true | _ => false end
         then 962%N else 963%N
       else if greek_capital n then (n + 32)%N
       else n) :: lower_greek true rest
  end.

(** [toLowerCase] on the texts written in ASCII and on the words written
    in Greek letters.  Any other text is outside this function (it is
    returned as it is), and nothing is stated on it. *)
Definition toLowerCase_basic (s : string) : string :=
  if is_ascii s then fold_ascii s
  else
    match greek_letters s with
    | Some letters =>
        fold_right (fun n acc => utf8_greek n ++ acc) ""
          (lower_greek false letters)
    | None => s
    end.

(* ===================================================================== *)
(** ** Derived views                                                       *)
(* ===================================================================== *)

(** [a || b] with [b] evaluated only when [a] is false. *)
Definition orelse (a : Completion bool) (b : Completion bool)
  : Completion bool :=
  let* x := a in if x then Normal true else b.

(** [Array.prototype.filter] with a callback that can throw: elements are
    visited from the left, the first exception aborts the call. *)
Fixpoint array_filter {A} (f : A -> Completion bool) (l : list A)
  : Completion (list A) :=
  match l with
  | [] => Normal []
  | x :: rest =>
      let* keep := f x in
      let* tl := array_filter f rest in
      Normal (if keep then x :: tl else tl)
  end.

Section Filter.

Variable toLowerCase : string -> string.

(** [v.toLowerCase()] on a value read from a record: a method of strings
    only. *)
Definition call_toLowerCase (field : string) (v : jsval)
  : Completion string :=
  match v with
  | Some (JStr s) => Normal (toLowerCase s)
  | None =>
      Throw (mkError TypeError
        "Cannot read properties of undefined (reading 'toLowerCase')")
  | Some JNull =>
      Throw (mkError TypeError
        "Cannot read properties of null (reading 'toLowerCase')")
  | Some _ =>
      Throw (mkError TypeError
        ("med." ++ field ++ ".toLowerCase is not a function"))
  end.

(** [med.k.toLowerCase().includes(searchQuery.toLowerCase())]. *)
Definition field_matches (med : json) (k : string) (searchQuery : string)
  : Completion bool :=
  let* v := get_prop (Some med) k in
  let* low := call_toLowerCase k v in
  Normal (includes low (toLowerCase searchQuery)).

(** The callback of the filter. *)
Definition medicine_matches (searchQuery : string) (med : json)
  : Completion bool :=
  orelse (field_matches med "name" searchQuery)
    (orelse (field_matches med "generic_name" searchQuery)
       (field_matches med "category" searchQuery)).

Definition filteredMedicines (medicines : list json) (searchQuery : string)
  : Completion (list json) :=
  array_filter (medicine_matches searchQuery) medicines.

End Filter.

(** The status cell: [medicine.quantity <= (medicine.reorder_level || 10)]
    for a numeric quantity and a reorder level that is a number or missing
    ([None] for [undefined] and [null]). *)
Definition reorder_or_default (reorder_level : option Z) : Z :=
  match reorder_level with
  | Some r => if r =? 0 then 10 else r
  | None => 10
  end.

Definition isLowStock (quantity : Z) (reorder_level : option Z) : bool :=
  quantity <=? reorder_or_default reorder_level.

(* ===================================================================== *)
(** ** JSON text                                                           *)
(* ===================================================================== *)

(** [JSON.stringify] on the values of the model, a reader of the texts of
    these values, and the grammar of JSON.  Members of an object are kept
    in insertion order; a repeated key in a text keeps its first position
    and takes its last value, as in JavaScript. *)
Module JSON.

Definition dquote : ascii := "034"%char.
Definition backslash : ascii := "\"%char.

Definition hex_digit (n : N) : ascii :=
  if (n <? 10)%N then ascii_of_N (48 + n) else ascii_of_N (87 + n).

(** How [JSON.stringify] writes one character of a string. *)
Definition escape_char (c : ascii) : string :=
  let n := N_of_ascii c in
  if (n =? 34)%N then String backslash (String dquote "")
  else if (n =? 92)%N then String backslash (String backslash "")
  else if (n =? 8)%N then "\b"
  else if (n =? 9)%N then "\t"
  else if (n =? 10)%N then "\n"
  else if (n =? 12)%N then "\f"
  else if (n =? 13)%N then "\r"
  else if (n <? 32)%N then
    "\u00" ++ String (hex_digit (n / 16)) (String (hex_digit (n mod 16)) "")
  else String c "".

Fixpoint escape_string (s : string) : string :=
  match s with
  | EmptyString => ""
  | String c r => escape_char c ++ escape_string r
  end.

Definition quote (s : string) : string :=
  String dquote (escape_string s ++ String dquote "").

Fixpoint stringify (v : json) : string :=
  match v with
  | JNull => "null"
  | JBool true => "true"
  | JBool false => "false"
  | JNum n => string_of_Z n
  | JStr s => quote s
  | JArr items => "[" ++ join_with "," (List.map stringify items) ++ "]"
  | JObj members =>
      "{" ++ join_with ","
               (List.map (fun kv => quote (fst kv) ++ ":" ++ stringify (snd kv))
                         members) ++ "}"
  end.

(** *** Parsing *)

Definition is_ws (c : ascii) : bool :=
  let n := N_of_ascii c in
  ((n =? 32) || (n =? 9) || (n =? 10) || (n =? 13))%N.

Fixpoint skip_ws (s : string) : string :=
  match s with
  | String c r => if is_ws c then skip_ws r else s
  | EmptyString => s
  end.

(** [expect lit s]: the rest of [s] after the literal [lit]. *)
Fixpoint expect (lit s : string) : option string :=
  match lit with
  | EmptyString => Some s
  | String c l =>
      match s with
      | String c' r => if Ascii.eqb c c' then expect l r else None
      | EmptyString => None
      end
  end.

Definition hex_value (c : ascii) : option N :=
  let n := N_of_ascii c in
  if ((48 <=? n) && (n <=? 57))%N then Some (n - 48)%N
  else if ((97 <=? n) && (n <=? 102))%N then Some (n - 87)%N
  else if ((65 <=? n) && (n <=? 70))%N then Some (n - 55)%N
  else None.

Definition hex4 (a b c d : ascii) : option N :=
  match hex_value a, hex_value b, hex_value c, hex_value d with
  | Some x, Some y, Some z, Some w =>
      Some (((x * 16 + y) * 16 + z) * 16 + w)%N
  | _, _, _, _ => None
  end.

(** The character a two-character escape stands for. *)
Definition simple_escape (e : ascii) : option ascii :=
  let n := N_of_ascii e in
  if (n =? 34)%N then Some dquote
  else if (n =? 92)%N then Some backslash
  else if (n =? 47)%N then Some "/"%char
  else if (n =? 98)%N then Some (ascii_of_N 8)
  else if (n =? 102)%N then Some (ascii_of_N 12)
  else if (n =? 110)%N then Some (ascii_of_N 10)
  else if (n =? 114)%N then Some (ascii_of_N 13)
  else if (n =? 116)%N then Some (ascii_of_N 9)
  else None.

Definition cons_char (c : ascii) (r : option (string * string))
  : option (string * string) :=
  match r with
  | Some (s, rest) => Some (String c s, rest)
  | None => None
  end.

(** The characters of a string after its opening quote, up to and including
    the closing quote.  A [\u] escape is read when it names a character
    below 128. *)
Fixpoint parse_string_body (s : string) : option (string * string) :=
  match s with
  | EmptyString => None
  | String c r =>
      if Ascii.eqb c dquote then Some ("", r)
      else if Ascii.eqb c backslash then
        match r with
        | EmptyString => None
        | String e r1 =>
            match simple_escape e with
            | Some ch => cons_char ch (parse_string_body r1)
            | None =>
                if Ascii.eqb e "u" then
                  match r1 with
                  | String h1 (String h2 (String h3 (String h4 r2))) =>
                      match hex4 h1 h2 h3 h4 with
                      | Some n =>
                          if (n <? 128)%N
                          then cons_char (ascii_of_N n) (parse_string_body r2)
                          else None
                      | None => None
                      end
                  | _ => None
                  end
                else None
            end
        end
      else if (N_of_ascii c <? 32)%N then None
      else cons_char c (parse_string_body r)
  end.

Definition digit_of (c : ascii) : option (Decimal.uint -> Decimal.uint) :=
  match c with
  | "0" => Some Decimal.D0
  | "1" => Some Decimal.D1
  | "2" => Some Decimal.D2
  | "3" => Some Decimal.D3
  | "4" => Some Decimal.D4
  | "5" => Some Decimal.D5
  | "6" => Some Decimal.D6
  | "7" => Some Decimal.D7
  | "8" => Some Decimal.D8
  | "9" => Some Decimal.D9
  | _ => None
  end%char.

(** The longest run of digits at the head of [s]. *)
Fixpoint parse_digits (s : string) : Decimal.uint * string :=
  match s with
  | EmptyString => (Decimal.Nil, s)
  | String c r =>
      match digit_of c with
      | Some d => let (ds, rest) := parse_digits r in (d ds, rest)
      | None => (Decimal.Nil, s)
      end
  end.

(** A fraction or an exponent follows: the number is written in a form
    this reader does not take. *)
Definition continues_number (s : string) : bool :=
  match s with
  | String c _ =>
      Ascii.eqb c "." || Ascii.eqb c "e" || Ascii.eqb c "E"
  | EmptyString => false
  end.

(** [Number.MAX_SAFE_INTEGER]: up to it every integer is a double, and is
    written by [JSON.stringify] with all its digits. *)
Definition max_safe_integer : Z := 9007199254740991.

(** [int] of the JSON grammar: one or more digits, no leading zero.  The
    reader takes the integers up to [max_safe_integer], which [JSON.parse]
    reads exactly. *)
Definition parse_nat (s : string) : option (Z * string) :=
  let (ds, rest) := parse_digits s in
  match ds with
  | Decimal.Nil => None
  | Decimal.D0 (Decimal.D0 _ | Decimal.D1 _ | Decimal.D2 _ | Decimal.D3 _
               | Decimal.D4 _ | Decimal.D5 _ | Decimal.D6 _ | Decimal.D7 _
               | Decimal.D8 _ | Decimal.D9 _) => None
  | _ => if continues_number rest then None
         else if Z.of_uint ds <=? max_safe_integer
              then Some (Z.of_uint ds, rest)
              else None
  end.

Definition parse_number (s : string) : option (Z * string) :=
  match s with
  | String "-" r =>
      match parse_nat r with
      | Some (n, rest) => Some (- n, rest)
      | None => None
      end
  | _ => parse_nat s
  end.

(** Defining property [k] on an object under construction. *)
Fixpoint obj_set (k : string) (v : json) (members : list (string * json))
  : list (string * json) :=
  match members with
  | [] => [(k, v)]
  | (k', v') :: rest =>
      if String.eqb k k' then (k', v) :: rest
      else (k', v') :: obj_set k v rest
  end.

Definition obj_of_members (members : list (string * json))
  : list (string * json) :=
  fold_left (fun acc kv => obj_set (fst kv) (snd kv) acc) members [].

Fixpoint parse_value (fuel : nat) (s : string) : option (json * string) :=
  match fuel with
  | O => None
  | S fuel' =>
      match skip_ws s with
      | EmptyString => None
      | String c r =>
          if Ascii.eqb c "n" then
            option_map (fun rest => (JNull, rest)) (expect "ull" r)
          else if Ascii.eqb c "t" then
            option_map (fun rest => (JBool true, rest)) (expect "rue" r)
          else if Ascii.eqb c "f" then
            option_map (fun rest => (JBool false, rest)) (expect "alse" r)
          else if Ascii.eqb c dquote then
            option_map (fun sr => (JStr (fst sr), snd sr))
                       (parse_string_body r)
          else if Ascii.eqb c "[" then
            match skip_ws r with
            | String "]" rest => Some (JArr [], rest)
            | _ =>
                option_map (fun ir => (JArr (fst ir), snd ir))
                           (parse_elements fuel' r)
            end
          else if Ascii.eqb c "{" then
            match skip_ws r with
            | String "}" rest => Some (JObj [], rest)
            | _ =>
                option_map
                  (fun mr => (JObj (obj_of_members (fst mr)), snd mr))
                  (parse_members fuel' r)
            end
          else
            option_map (fun nr => (JNum (fst nr), snd nr))
                       (parse_number (String c r))
      end
  end

with parse_elements (fuel : nat) (s : string)
  : option (list json * string) :=
  match fuel with
  | O => None
  | S fuel' =>
      match parse_value fuel' s with
      | None => None
      | Some (v, r) =>
          match skip_ws r with
          | String "," r' =>
              option_map (fun ir => (v :: fst ir, snd ir))
                         (parse_elements fuel' r')
          | String "]" r' => Some ([v], r')
          | _ => None
          end
      end
  end

with parse_members (fuel : nat) (s : string)
  : option (list (string * json) * string) :=
  match fuel with
  | O => None
  | S fuel' =>
      match skip_ws s with
      | String c r =>
          if Ascii.eqb c dquote then
            match parse_string_body r with
            | None => None
            | Some (k, r1) =>
                match skip_ws r1 with
                | String ":" r2 =>
                    match parse_value fuel' r2 with
                    | None => None
                    | Some (v, r3) =>
                        match skip_ws r3 with
                        | String "," r4 =>
                            option_map (fun mr => ((k, v) :: fst mr, snd mr))
                                       (parse_members fuel' r4)
                        | String "}" r4 => Some ([(k, v)], r4)
                        | _ => None
                        end
                    end
                | _ => None
                end
            end
          else None
      | EmptyString => None
      end
  end.

(** The reader of JSON texts: one value, white space around it, nothing
    else.  It returns the value [JSON.parse] returns on the texts it takes:
    those whose numbers are integers up to [max_safe_integer] written
    without fraction and exponent, and whose [\u] escapes name characters
    below 128.  On every other text it returns [None]; whether a text is
    JSON at all is [valid] below. *)
Definition parse (s : string) : option json :=
  match parse_value (S (String.length s)) s with
  | Some (v, rest) =>
      match skip_ws rest with
      | EmptyString => Some v
      | String _ _ => None
      end
  | None => None
  end.

(** *** The grammar *)

(** The texts [JSON.parse] accepts, every number and every escape of the
    grammar included.  The functions below recognise a token and return
    the text behind it. *)

Definition is_digit (c : ascii) : bool :=
  match digit_of c with
  | Some _ => true
  | None => false
  end.

Fixpoint skip_digits (s : string) : string :=
  match s with
  | String c r => if is_digit c then skip_digits r else s
  | EmptyString => s
  end.

(** One digit or more. *)
Definition skip_digits1 (s : string) : option string :=
  match s with
  | String c r => if is_digit c then Some (skip_digits r) else None
  | EmptyString => None
  end.

(** [int]: a zero, or a digit from 1 to 9 followed by digits. *)
Definition skip_int (s : string) : option string :=
  match s with
  | String c r =>
      if Ascii.eqb c "0" then Some r
      else if is_digit c then Some (skip_digits r)
      else None
  | EmptyString => None
  end.

(** [frac]: nothing, or a point and one digit or more. *)
Definition skip_frac (s : string) : option string :=
  match s with
  | String c r => if Ascii.eqb c "." then skip_digits1 r else Some s
  | EmptyString => Some s
  end.

(** [exp]: nothing, or [e] or [E], a sign or none, and one digit or more. *)
Definition skip_exp (s : string) : option string :=
  match s with
  | String c r =>
      if Ascii.eqb c "e" || Ascii.eqb c "E" then
        match r with
        | String sign r' =>
            if Ascii.eqb sign "+" || Ascii.eqb sign "-"
            then skip_digits1 r'
            else skip_digits1 r
        | EmptyString => None
        end
      else Some s
  | EmptyString => Some s
  end.

(** [number]: a minus sign or none, [int], [frac], [exp]. *)
Definition skip_number (s : string) : option string :=
  let unsigned :=
    match s with
    | String c r => if Ascii.eqb c "-" then r else s
    | EmptyString => s
    end in
  match skip_int unsigned with
  | Some r1 =>
      match skip_frac r1 with
      | Some r2 => skip_exp r2
      | None => None
      end
  | None => None
  end.

(** The characters of a string after its opening quote, up to and including
    the closing quote: any character from 32 on other than the quote and
    the backslash, a two-character escape, or [\u] and four hexadecimal
    digits. *)
Fixpoint skip_string_body (s : string) : option string :=
  match s with
  | EmptyString => None
  | String c r =>
      if Ascii.eqb c dquote then Some r
      else if Ascii.eqb c backslash then
        match r with
        | EmptyString => None
        | String e r1 =>
            match simple_escape e with
            | Some _ => skip_string_body r1
            | None =>
                if Ascii.eqb e "u" then
                  match r1 with
                  | String h1 (String h2 (String h3 (String h4 r2))) =>
                      match hex4 h1 h2 h3 h4 with
                      | Some _ => skip_string_body r2
                      | None => None
                      end
                  | _ => None
                  end
                else None
            end
        end
      else if (N_of_ascii c <? 32)%N then None
      else skip_string_body r
  end.

Fixpoint valid_value (fuel : nat) (s : string) : option string :=
  match fuel with
  | O => None
  | S fuel' =>
      match skip_ws s with
      | EmptyString => None
      | String c r =>
          if Ascii.eqb c "n" then expect "ull" r
          else if Ascii.eqb c "t" then expect "rue" r
          else if Ascii.eqb c "f" then expect "alse" r
          else if Ascii.eqb c dquote then skip_string_body r
          else if Ascii.eqb c "[" then
            match skip_ws r with
            | String "]" rest => Some rest
            | _ => valid_elements fuel' r
            end
          else if Ascii.eqb c "{" then
            match skip_ws r with
            | String "}" rest => Some rest
            | _ => valid_members fuel' r
            end
          else skip_number (String c r)
      end
  end

with valid_elements (fuel : nat) (s : string) : option string :=
  match fuel with
  | O => None
  | S fuel' =>
      match valid_value fuel' s with
      | None => None
      | Some r =>
          match skip_ws r with
          | String "," r' => valid_elements fuel' r'
          | String "]" r' => Some r'
          | _ => None
          end
      end
  end

with valid_members (fuel : nat) (s : string) : option string :=
  match fuel with
  | O => None
  | S fuel' =>
      match skip_ws s with
      | String c r =>
          if Ascii.eqb c dquote then
            match skip_string_body r with
            | None => None
            | Some r1 =>
                match skip_ws r1 with
                | String ":" r2 =>
                    match valid_value fuel' r2 with
                    | None => None
                    | Some r3 =>
                        match skip_ws r3 with
                        | String "," r4 => valid_members fuel' r4
                        | String "}" r4 => Some r4
                        | _ => None
                        end
                    end
                | _ => None
                end
            end
          else None
      | EmptyString => None
      end
  end.

(** The text is JSON: [JSON.parse] returns a value on it; on every other
    text it throws a SyntaxError. *)
Definition valid (s : string) : bool :=
  match valid_value (S (String.length s)) s with
  | Some rest => String.eqb (skip_ws rest) ""
  | None => false
  end.

End JSON.

(* ===================================================================== *)
(** ** Application state                                                   *)
(* ===================================================================== *)

Definition AUTH_STORAGE_KEY : string := "pharmaventory_session".

(** [authMode] is [null], ["login"] or ["register"]. *)
Inductive AuthMode := login | register.

Record AuthValues := mkAuthValues {
  av_email : string;
  av_password : string;
  av_full_name : string;
  av_role : string
}.

(** The create form.  Its fields are named after the keys of the object. *)
Record MedicineDraft := mkDraft {
  mf_name : string;
  mf_generic_name : string;
  mf_category : string;
  mf_manufacturer : string;
  mf_quantity : Z;
  mf_unit : string;
  mf_reorder_level : Z;
  mf_unit_price : Z;
  mf_batch_number : string;
  mf_expiry_date : string;
  mf_location : string;
  mf_description : string
}.

Inductive Variant := info | error.

Record Toast := mkToast { toast_message : string; variant : Variant }.

(** The hooks of [App], the session storage of the window, the console and
    the number of toast timers that have not fired yet. *)
Record App := mkApp {
  authMode : option AuthMode;
  authValues : AuthValues;
  token : jsval;
  user : jsval;
  loading : bool;
  medicines : jsval;
  analytics : jsval;
  searchQuery : string;
  medicineForm : MedicineDraft;
  toast : option Toast;
  sessionStorage : gmap string string;
  console : list string;
  timers : nat
}.

(** [today_plus_6_months] stands for
    [dayjs().add(6, "month").format("YYYY-MM-DD")] at the first render. *)
Definition initial_form (today_plus_6_months : string) : MedicineDraft :=
  {| mf_name := ""; mf_generic_name := ""; mf_category := "";
     mf_manufacturer := ""; mf_quantity := 0; mf_unit := "units";
     mf_reorder_level := 10; mf_unit_price := 0; mf_batch_number := "";
     mf_expiry_date := today_plus_6_months; mf_location := "";
     mf_description := "" |}.

(** The state of the first render, over a given session storage. *)
Definition initial (today_plus_6_months : string)
    (storage : gmap string string) : App :=
  {| authMode := None;
     authValues := mkAuthValues "" "" "" "pharmacist";
     token := Some (JStr "");
     user := Some JNull;
     loading := false;
     medicines := Some (JArr []);
     analytics := Some JNull;
     searchQuery := "";
     medicineForm := initial_form today_plus_6_months;
     toast := None;
     sessionStorage := storage;
     console := [];
     timers := 0%nat |}.

Definition with_authMode (v : option AuthMode) (a : App) : App :=
  mkApp v (authValues a) (token a) (user a) (loading a) (medicines a)
    (analytics a) (searchQuery a) (medicineForm a) (toast a)
    (sessionStorage a) (console a) (timers a).
Definition with_authValues (v : AuthValues) (a : App) : App :=
  mkApp (authMode a) v (token a) (user a) (loading a) (medicines a)
    (analytics a) (searchQuery a) (medicineForm a) (toast a)
    (sessionStorage a) (console a) (timers a).
Definition with_token (v : jsval) (a : App) : App :=
  mkApp (authMode a) (authValues a) v (user a) (loading a) (medicines a)
    (analytics a) (searchQuery a) (medicineForm a) (toast a)
    (sessionStorage a) (console a) (timers a).
Definition with_user (v : jsval) (a : App) : App :=
  mkApp (authMode a) (authValues a) (token a) v (loading a) (medicines a)
    (analytics a) (searchQuery a) (medicineForm a) (toast a)
    (sessionStorage a) (console a) (timers a).
Definition with_loading (v : bool) (a : App) : App :=
  mkApp (authMode a) (authValues a) (token a) (user a) v (medicines a)
    (analytics a) (searchQuery a) (medicineForm a) (toast a)
    (sessionStorage a) (console a) (timers a).
Definition with_medicines (v : jsval) (a : App) : App :=
  mkApp (authMode a) (authValues a) (token a) (user a) (loading a) v
    (analytics a) (searchQuery a) (medicineForm a) (toast a)
    (sessionStorage a) (console a) (timers a).
Definition with_analytics (v : jsval) (a : App) : App :=
  mkApp (authMode a) (authValues a) (token a) (user a) (loading a)
    (medicines a) v (searchQuery a) (medicineForm a) (toast a)
    (sessionStorage a) (console a) (timers a).
Definition with_searchQuery (v : string) (a : App) : App :=
  mkApp (authMode a) (authValues a) (token a) (user a) (loading a)
    (medicines a) (analytics a) v (medicineForm a) (toast a)
    (sessionStorage a) (console a) (timers a).
Definition with_medicineForm (v : MedicineDraft) (a : App) : App :=
  mkApp (authMode a) (authValues a) (token a) (user a) (loading a)
    (medicines a) (analytics a) (searchQuery a) v (toast a)
    (sessionStorage a) (console a) (timers a).
Definition with_toast (v : option Toast) (a : App) : App :=
  mkApp (authMode a) (authValues a) (token a) (user a) (loading a)
    (medicines a) (analytics a) (searchQuery a) (medicineForm a) v
    (sessionStorage a) (console a) (timers a).
Definition with_sessionStorage (v : gmap string string) (a : App) : App :=
  mkApp (authMode a) (authValues a) (token a) (user a) (loading a)
    (medicines a) (analytics a) (searchQuery a) (medicineForm a) (toast a)
    v (console a) (timers a).
Definition with_console (v : list string) (a : App) : App :=
  mkApp (authMode a) (authValues a) (token a) (user a) (loading a)
    (medicines a) (analytics a) (searchQuery a) (medicineForm a) (toast a)
    (sessionStorage a) v (timers a).
Definition with_timers (v : nat) (a : App) : App :=
  mkApp (authMode a) (authValues a) (token a) (user a) (loading a)
    (medicines a) (analytics a) (searchQuery a) (medicineForm a) (toast a)
    (sessionStorage a) (console a) v.

(** [const authenticated = Boolean(token)]. *)
Definition authenticated (a : App) : bool := truthy (token a).

(* ===================================================================== *)
(** ** Handlers as state transformers that can throw                       *)
(* ===================================================================== *)

(** A piece of handler code: it reads and writes the state and either
    completes or throws; what it wrote before throwing stays written. *)
Definition M (A : Type) : Type := App -> Completion A * App.

#[global] Instance M_ret : MRet M := fun A (x : A) (a : App) => (Normal x, a).

#[global] Instance M_bind : MBind M :=
  fun A B (k : A -> M B) (m : M A) (a : App) =>
    match m a with
    | (Normal x, a') => k x a'
    | (Throw e, a') => (Throw e, a')
    end.

Definition throw {A} (e : JsError) : M A := fun a => (Throw e, a).

Definition lift {A} (c : Completion A) : M A := fun a => (c, a).

Definition modify (f : App -> App) : M unit := fun a => (Normal tt, f a).

Definition try_catch {A} (body : M A) (handler : JsError -> M A) : M A :=
  fun a =>
    match body a with
    | (Normal x, a') => (Normal x, a')
    | (Throw e, a') => handler e a'
    end.

Definition try_finally {A} (body : M A) (finalizer : M unit) : M A :=
  fun a =>
    match body a with
    | (c, a') =>
        match finalizer a' with
        | (Normal _, a'') => (c, a'')
        | (Throw e, a'') => (Throw e, a'')
        end
    end.

(** The state a handler leaves. *)
Definition exec {A} (m : M A) (a : App) : App := snd (m a).

(** How a handler completes. *)
Definition outcome_of {A} (m : M A) (a : App) : Completion A := fst (m a).

Definition setAuthMode v : M unit := modify (with_authMode v).
Definition setAuthValues f : M unit :=
  modify (fun a => with_authValues (f (authValues a)) a).
Definition setToken v : M unit := modify (with_token v).
Definition setUser v : M unit := modify (with_user v).
Definition setLoading v : M unit := modify (with_loading v).
Definition setMedicines v : M unit := modify (with_medicines v).
Definition setAnalytics v : M unit := modify (with_analytics v).
Definition setSearchQuery v : M unit := modify (with_searchQuery v).
Definition setMedicineForm f : M unit :=
  modify (fun a => with_medicineForm (f (medicineForm a)) a).

(** [window.sessionStorage]. *)
Definition getItem (k : string) : M (option string) :=
  fun a => (Normal (sessionStorage a !! k), a).
Definition setItem (k v : string) : M unit :=
  modify (fun a => with_sessionStorage (<[k := v]> (sessionStorage a)) a).
Definition removeItem (k : string) : M unit :=
  modify (fun a => with_sessionStorage (delete k (sessionStorage a)) a).

(** [console.error(prefix, error)]; the console keeps the messages. *)
Definition console_error (prefix : string) (e : JsError) : M unit :=
  modify (fun a => with_console (console a ++ [prefix ++ message e]) a).

(** [showToast(message, variant = "info")] of [useToast]: show the notice
    and start the timer that clears it. *)
Definition showToast (msg : string) (v : Variant) : M unit :=
  modify (fun a => with_timers (S (timers a))
                     (with_toast (Some (mkToast msg v)) a)).

(** One timer of [showToast] fires: [setToast(null)]. *)
Definition toast_timeout (a : App) : App :=
  match timers a with
  | O => a
  | S n => with_timers n (with_toast None a)
  end.

Definition gets {A} (f : App -> A) : M A := fun a => (Normal (f a), a).

(* ===================================================================== *)
(** ** The request gateway                                                 *)
(* ===================================================================== *)

(** The [options] argument of [fetchWithAuth]; a field is [None] when the
    caller did not give it. *)
Record Options := mkOptions {
  opt_method : option string;
  opt_body : option string;
  opt_headers : option (gmap string string)
}.

Definition no_options : Options := mkOptions None None None.

(** What is handed to [fetch]; the URL is [cleanApiBase] followed by
    [req_path]. *)
Record Request := mkRequest {
  req_path : string;
  req_method : option string;
  req_body : option string;
  req_headers : gmap string string;
  req_credentials : option string
}.

(** What [fetch] did: it rejected (no response), or it resolved with a
    response of the given status and body text. *)
Inductive FetchOutcome :=
  | NetworkError (msg : string)
  | Responded (status : Z) (body : string).

(** The network, as seen by one handler run. *)
Definition Fetch : Type := Request -> FetchOutcome.

(** [response.ok]. *)
Definition response_ok (status : Z) : bool :=
  (200 <=? status) && (status <=? 299).

(** The message of the SyntaxError of a failed parse.  Its wording is the
    engine's; this text stands for it, and the statements quantify over
    the message. *)
Definition invalid_json_message : string := "Unexpected token in JSON".

(** [JSON.parse(text)] and [response.json()], through the reader. *)
Definition JSON_parse (text : string) : Completion json :=
  match JSON.parse text with
  | Some v => Normal v
  | None => Throw (mkError SyntaxError invalid_json_message)
  end.

Definition response_json (body : string) : Completion json :=
  JSON_parse body.

(** [response.json()] decodes the body as UTF-8, which drops a byte order
    mark at its head, before it parses. *)
Definition strip_bom (body : string) : string :=
  match body with
  | String b1 (String b2 (String b3 r)) =>
      if ((N_of_ascii b1 =? 239) && (N_of_ascii b2 =? 187)
          && (N_of_ascii b3 =? 191))%N
      then r else body
  | _ => body
  end.

(** The body of a response is not JSON: [response.json()] rejects. *)
Definition not_json (body : string) : Prop :=
  JSON.valid (strip_bom body) = false.

(** [JSON.stringify] of an object literal: a property whose value is
    [undefined] is left out. *)
Fixpoint defined_members (fields : list (string * jsval))
  : list (string * json) :=
  match fields with
  | [] => []
  | (k, Some v) :: rest => (k, v) :: defined_members rest
  | (_, None) :: rest => defined_members rest
  end.

Definition JSON_stringify (fields : list (string * jsval)) : string :=
  JSON.stringify (JObj (defined_members fields)).

Definition safeJson (body : string) : json :=
  match response_json body with
  | Normal v => v
  | Throw _ => JNull
  end.

(** The [headers] object built by [fetchWithAuth]: the spread of the
    caller's headers over the content type, then the assignment of
    [Authorization]. *)
Definition gateway_headers (token : jsval) (options : Options)
  : gmap string string :=
  let headers : gmap string string :=
    default ∅ (opt_headers options)
      ∪ {["Content-Type" := "application/json"]} in
  if truthy token
  then <["Authorization" := "Bearer " ++ ToString token]> headers
  else headers.

Definition gateway_request (token : jsval) (path : string)
    (options : Options) : Request :=
  {| req_path := path;
     req_method := opt_method options;
     req_body := opt_body options;
     req_headers := gateway_headers token options;
     req_credentials := None |}.

(** [await fetch(...)]. *)
Definition await_fetch (fetch : Fetch) (r : Request)
  : Completion (Z * string) :=
  match fetch r with
  | NetworkError msg => Throw (mkError TypeError msg)
  | Responded status body => Normal (status, body)
  end.

(** The function [useMemo] returns for the given [token]. *)
Definition fetchWithAuth (fetch : Fetch) (token : jsval) (path : string)
    (options : Options) : Completion json :=
  let* response := await_fetch fetch (gateway_request token path options) in
  let status := fst response in
  let body := snd response in
  if negb (response_ok status) then
    let detail := Some (safeJson body) in
    let errorMessage :=
      js_or (get_prop_opt detail "detail")
        (js_or (get_prop_opt detail "message")
           (Some (JStr ("Request failed (" ++ string_of_Z status ++ ")")))) in
    Throw (mkError Error (ToString errorMessage))
  else if status =? 204 then Normal JNull
  else response_json body.

(** The outcomes of [fetch] on which the gateway rejects: no response, a
    status outside 2xx, or a 2xx status other than 204 with a body that is
    not JSON. *)
Definition gateway_rejects (o : FetchOutcome) : Prop :=
  match o with
  | NetworkError _ => True
  | Responded status body =>
      ~ (200 <= status <= 299) \/ (status <> 204 /\ not_json body)
  end.

(* ===================================================================== *)
(** ** Session                                                             *)
(* ===================================================================== *)

(** The effect that runs once after the first render. *)
Definition restore : M unit :=
  stored ← getItem AUTH_STORAGE_KEY;
  match stored with
  | None => mret tt
  | Some text =>
      if String.eqb text "" then mret tt
      else
        try_catch
          (payload ← lift (JSON_parse text);
           tok ← lift (get_prop (Some payload) "token");
           if truthy tok then
             setToken tok;;
             usr ← lift (get_prop (Some payload) "user");
             setUser (js_or usr (Some JNull))
           else mret tt)
          (fun err => console_error "Failed to parse stored session " err)
  end.

(** The closures below read [token] from the render that created them; the
    value is an argument here. *)
Definition fetchProfile (fetch : Fetch) (token : jsval) : M unit :=
  profile ← lift (fetchWithAuth fetch token "/api/auth/me" no_options);
  setUser (Some profile);;
  setItem AUTH_STORAGE_KEY
    (JSON_stringify [("token", token); ("user", Some profile)]).

Definition fetchMedicines (fetch : Fetch) (token : jsval) : M unit :=
  items ← lift (fetchWithAuth fetch token "/api/medicines" no_options);
  setMedicines (Some items).

Definition fetchAnalytics (fetch : Fetch) (token : jsval) : M unit :=
  data ← lift (fetchWithAuth fetch token "/api/analytics/dashboard"
                 no_options);
  setAnalytics (Some data).

Definition auth_payload (mode : option AuthMode) (v : AuthValues) : json :=
  match mode with
  | Some register =>
      JObj [("email", JStr (av_email v)); ("password", JStr (av_password v));
            ("full_name", JStr (av_full_name v)); ("role", JStr (av_role v))]
  | _ =>
      JObj [("email", JStr (av_email v)); ("password", JStr (av_password v))]
  end.

Definition auth_endpoint (mode : option AuthMode) : string :=
  match mode with
  | Some register => "/api/auth/register"
  | _ => "/api/auth/login"
  end.

Definition auth_request (mode : option AuthMode) (v : AuthValues)
  : Request :=
  {| req_path := auth_endpoint mode;
     req_method := Some "POST";
     req_body := Some (JSON.stringify (auth_payload mode v));
     req_headers :=
       {["Content-Type" := "application/json"; "Accept" := "application/json"]};
     req_credentials := Some "include" |}.

Definition handleAuthSubmit (fetch : Fetch) : M unit :=
  setLoading true;;
  try_finally
    (try_catch
       (mode ← gets authMode;
        values ← gets authValues;
        response ← lift (await_fetch fetch (auth_request mode values));
        if negb (response_ok (fst response)) then
          let detail := Some (safeJson (snd response)) in
          throw (mkError Error
                   (ToString (js_or (get_prop_opt detail "detail")
                                (Some (JStr "Authentication failed")))))
        else
          result ← lift (response_json (snd response));
          tok ← lift (get_prop (Some result) "access_token");
          setToken tok;;
          usr ← lift (get_prop (Some result) "user");
          setUser usr;;
          setItem AUTH_STORAGE_KEY
            (JSON_stringify [("token", tok); ("user", usr)]);;
          showToast
            match mode with
            | Some register => "Registration successful"
            | _ => "Logged in successfully"
            end info;;
          setAuthValues
            (fun current =>
               mkAuthValues (av_email current) "" (av_full_name current)
                 (av_role current)))
       (fun err =>
          console_error "" err;;
          showToast (message err) error))
    (setLoading false).

Definition signOut : M unit :=
  setToken (Some (JStr ""));;
  setUser (Some JNull);;
  removeItem AUTH_STORAGE_KEY;;
  setMedicines (Some (JArr []));;
  setAnalytics (Some JNull);;
  showToast "You have signed out." info.

Definition handleAuthChange (name value : string) : M unit :=
  setAuthValues
    (fun current =>
       if String.eqb name "email" then
         mkAuthValues value (av_password current) (av_full_name current)
           (av_role current)
       else if String.eqb name "password" then
         mkAuthValues (av_email current) value (av_full_name current)
           (av_role current)
       else if String.eqb name "full_name" then
         mkAuthValues (av_email current) (av_password current) value
           (av_role current)
       else if String.eqb name "role" then
         mkAuthValues (av_email current) (av_password current)
           (av_full_name current) value
       else current).

(* ===================================================================== *)
(** ** The create form                                                     *)
(* ===================================================================== *)

(** A value typed into the form; the numeric fields arrive through
    [Number(value)]. *)
Inductive DraftInput :=
  | InName (v : string)
  | InGenericName (v : string)
  | InCategory (v : string)
  | InManufacturer (v : string)
  | InQuantity (v : Z)
  | InUnit (v : string)
  | InReorderLevel (v : Z)
  | InUnitPrice (v : Z)
  | InBatchNumber (v : string)
  | InExpiryDate (v : string)
  | InLocation (v : string)
  | InDescription (v : string).

Definition set_field (i : DraftInput) (d : MedicineDraft) : MedicineDraft :=
  match d with
  | mkDraft n g c m q u r p b e l s =>
      match i with
      | InName v => mkDraft v g c m q u r p b e l s
      | InGenericName v => mkDraft n v c m q u r p b e l s
      | InCategory v => mkDraft n g v m q u r p b e l s
      | InManufacturer v => mkDraft n g c v q u r p b e l s
      | InQuantity v => mkDraft n g c m v u r p b e l s
      | InUnit v => mkDraft n g c m q v r p b e l s
      | InReorderLevel v => mkDraft n g c m q u v p b e l s
      | InUnitPrice v => mkDraft n g c m q u r v b e l s
      | InBatchNumber v => mkDraft n g c m q u r p v e l s
      | InExpiryDate v => mkDraft n g c m q u r p b v l s
      | InLocation v => mkDraft n g c m q u r p b e v s
      | InDescription v => mkDraft n g c m q u r p b e l v
      end
  end.

Definition handleMedicineChange (i : DraftInput) : M unit :=
  setMedicineForm (set_field i).

(** [{...medicineForm, expiry_date: iso}]. *)
Definition draft_json (d : MedicineDraft) (iso : string) : json :=
  JObj [("name", JStr (mf_name d));
        ("generic_name", JStr (mf_generic_name d));
        ("category", JStr (mf_category d));
        ("manufacturer", JStr (mf_manufacturer d));
        ("quantity", JNum (mf_quantity d));
        ("unit", JStr (mf_unit d));
        ("reorder_level", JNum (mf_reorder_level d));
        ("unit_price", JNum (mf_unit_price d));
        ("batch_number", JStr (mf_batch_number d));
        ("expiry_date", JStr iso);
        ("location", JStr (mf_location d));
        ("description", JStr (mf_description d))].

(** The updater passed to [setMedicineForm] after a creation: the spread of
    [current] under the ten keys that are written. *)
Definition reset_after_create (current : MedicineDraft) : MedicineDraft :=
  {| mf_name := "";
     mf_generic_name := "";
     mf_category := "";
     mf_manufacturer := "";
     mf_quantity := 0;
     mf_unit := mf_unit current;
     mf_reorder_level := 10;
     mf_unit_price := 0;
     mf_batch_number := "";
     mf_expiry_date := mf_expiry_date current;
     mf_location := "";
     mf_description := "" |}.

Section Create.

(** [dayjs(date).toISOString()]; it throws a RangeError on a date it
    cannot read. *)
Variable toISOString : string -> Completion string.

Definition handleCreateMedicine (fetch : Fetch) : M unit :=
  signed_in ← gets authenticated;
  if negb signed_in then showToast "Please login first" error
  else
    try_catch
      (tok ← gets token;
       form ← gets medicineForm;
       iso ← lift (toISOString (mf_expiry_date form));
       _ ← lift (fetchWithAuth fetch tok "/api/medicines"
                   (mkOptions (Some "POST")
                      (Some (JSON.stringify (draft_json form iso)))
                      None));
       showToast "Medicine added" info;;
       fetchMedicines fetch tok;;
       setMedicineForm reset_after_create)
      (fun err =>
         console_error "" err;;
         showToast (message err) error).

End Create.

(* ===================================================================== *)
(** ** Renders, effects and events                                         *)
(* ===================================================================== *)

(** Equality of two values of a dependency array.  The tokens of this
    program are strings, on which [Object.is] is equality of the
    characters. *)
Fixpoint json_eqb (a b : json) : bool :=
  match a, b with
  | JNull, JNull => true
  | JBool x, JBool y => Bool.eqb x y
  | JNum x, JNum y => x =? y
  | JStr x, JStr y => String.eqb x y
  | JArr l, JArr m =>
      (fix go (l m : list json) : bool :=
         match l, m with
         | [], [] => true
         | x :: l', y :: m' => json_eqb x y && go l' m'
         | _, _ => false
         end) l m
  | JObj l, JObj m =>
      (fix go (l m : list (string * json)) : bool :=
         match l, m with
         | [], [] => true
         | (k, x) :: l', (k', y) :: m' =>
             String.eqb k k' && json_eqb x y && go l' m'
         | _, _ => false
         end) l m
  | _, _ => false
  end.

Definition same_value (a b : jsval) : bool :=
  match a, b with
  | None, None => true
  | Some x, Some y => json_eqb x y
  | _, _ => false
  end.

(** The three requests of [fetchData]. *)
Inductive Kind := KProfile | KMedicines | KAnalytics.

Definition kind_eqb (a b : Kind) : bool :=
  match a, b with
  | KProfile, KProfile | KMedicines, KMedicines
  | KAnalytics, KAnalytics => true
  | _, _ => false
  end.

(** One run of [fetchData]: the token its closures captured, the requests
    still in flight, and whether [Promise.all] has already rejected. *)
Record Batch := mkBatch {
  captured : jsval;
  waiting : list Kind;
  rejected : bool
}.

Record World := mkWorld { app : App; inflight : list Batch }.

(** The effects that follow a render, given the state of the previous
    render: [authMode] is reset when [authenticated] became false, and
    [fetchData] starts when [token] changed to a truthy value. *)
Definition after_render (before : App) (w : World) : World :=
  let a := app w in
  let a' :=
    if negb (Bool.eqb (authenticated before) (authenticated a))
       && negb (authenticated a)
    then with_authMode None a else a in
  let inflight' :=
    if negb (same_value (token before) (token a)) && truthy (token a)
    then (inflight w ++ [mkBatch (token a) [KProfile; KMedicines; KAnalytics]
                           false])%list
    else inflight w in
  mkWorld a' inflight'.

(** Loading the page over a session storage: first render, the effects of
    the mount ([restore] among them), and the effects of the render that
    follows. *)
Definition mount (today_plus_6_months : string)
    (storage : gmap string string) : World :=
  let a0 := initial today_plus_6_months storage in
  after_render a0 (mkWorld (exec restore a0) []).

(** The continuation of one request of a batch. *)
Definition settle (k : Kind) (tok : jsval) (outcome : FetchOutcome)
  : M unit :=
  match k with
  | KProfile => fetchProfile (fun _ => outcome) tok
  | KMedicines => fetchMedicines (fun _ => outcome) tok
  | KAnalytics => fetchAnalytics (fun _ => outcome) tok
  end.

Definition remove_kind (k : Kind) (l : list Kind) : list Kind :=
  List.filter (fun k' => negb (kind_eqb k k')) l.

(** Request [k] of batch [b] settles.  The first rejection of a batch is
    caught by [fetchData] and logged. *)
Definition resolve (b : Batch) (k : Kind) (outcome : FetchOutcome)
    (a : App) : Batch * App :=
  if existsb (kind_eqb k) (waiting b) then
    match settle k (captured b) outcome a with
    | (Normal _, a') =>
        (mkBatch (captured b) (remove_kind k (waiting b)) (rejected b), a')
    | (Throw e, a') =>
        (mkBatch (captured b) (remove_kind k (waiting b)) true,
         if rejected b then a'
         else exec (console_error "Fetch data error: " e) a')
    end
  else (b, a).

Inductive Event :=
  | EvSetAuthMode (mode : option AuthMode)
  | EvAuthChange (name value : string)
  | EvAuthSubmit (fetch : Fetch)
  | EvSignOut
  | EvResolve (batch : nat) (k : Kind) (outcome : FetchOutcome)
  | EvSearch (query : string)
  | EvMedicineChange (i : DraftInput)
  | EvCreateMedicine (fetch : Fetch)
  | EvToastTimeout
  | EvReload (today_plus_6_months : string).

Section Machine.

Variable toISOString : string -> Completion string.

Definition handle (e : Event) (w : World) : World :=
  let a := app w in
  match e with
  | EvSetAuthMode mode => mkWorld (exec (setAuthMode mode) a) (inflight w)
  | EvAuthChange name value =>
      mkWorld (exec (handleAuthChange name value) a) (inflight w)
  | EvAuthSubmit fetch =>
      mkWorld (exec (handleAuthSubmit fetch) a) (inflight w)
  | EvSignOut => mkWorld (exec signOut a) (inflight w)
  | EvResolve i k outcome =>
      match inflight w !! i with
      | Some b =>
          let (b', a') := resolve b k outcome a in
          mkWorld a' (<[i := b']> (inflight w))
      | None => w
      end
  | EvSearch query => mkWorld (exec (setSearchQuery query) a) (inflight w)
  | EvMedicineChange i =>
      mkWorld (exec (handleMedicineChange i) a) (inflight w)
  | EvCreateMedicine fetch =>
      mkWorld (exec (handleCreateMedicine toISOString fetch) a) (inflight w)
  | EvToastTimeout => mkWorld (toast_timeout a) (inflight w)
  | EvReload _ => w
  end.

Definition step (w : World) (e : Event) : World :=
  match e with
  | EvReload today_plus_6_months =>
      mount today_plus_6_months (sessionStorage (app w))
  | _ => after_render (app w) (handle e w)
  end.

Definition run (w : World) (events : list Event) : World :=
  fold_left step events w.

End Machine.

(* ===================================================================== *)
(** ** The backend address                                                 *)
(* ===================================================================== *)

(** [s.replace(/\/+$/, "")]: the text without its final run of slashes. *)
Fixpoint strip_trailing_slashes (s : string) : string :=
  match s with
  | EmptyString => EmptyString
  | String c r =>
      let r' := strip_trailing_slashes r in
      if Ascii.eqb c "/" && String.eqb r' "" then EmptyString
      else String c r'
  end.

(** [s.replace(/\/api\/?$/, "")]: the text without a final [/api] or
    [/api/]. *)
Fixpoint strip_api_suffix (s : string) : string :=
  match s with
  | EmptyString => EmptyString
  | String c r =>
      if String.eqb s "/api" || String.eqb s "/api/" then EmptyString
      else String c (strip_api_suffix r)
  end.

Definition default_backend : string := "https://se-project-kp2e.onrender.com".

(** [API_BASE], from [process.env.REACT_APP_BACKEND_URL] ([None] when the
    variable is not set). *)
Definition API_BASE (REACT_APP_BACKEND_URL : option string) : string :=
  match REACT_APP_BACKEND_URL with
  | None => default_backend
  | Some url =>
      if String.eqb url "" then default_backend
      else
        let stripped := strip_trailing_slashes url in
        if String.eqb stripped "" then default_backend else stripped
  end.

Definition cleanApiBase (REACT_APP_BACKEND_URL : option string) : string :=
  strip_api_suffix (API_BASE REACT_APP_BACKEND_URL).

(* ===================================================================== *)
(** ** The header of the dashboard                                         *)
(* ===================================================================== *)

(** [s.split(" ")[0]]: the characters before the first space. *)
Fixpoint first_piece (s : string) : string :=
  match s with
  | EmptyString => EmptyString
  | String c r =>
      if Ascii.eqb c " " then EmptyString else String c (first_piece r)
  end.

(** [s.charAt(0)]. *)
Definition charAt0 (s : string) : string :=
  match s with
  | EmptyString => EmptyString
  | String c _ => String c EmptyString
  end.

(** [v?.method(...)] for a method of strings: [undefined] on [undefined]
    and [null], the result on a string, a TypeError on anything else. *)
Definition call_string_method (method : string) (f : string -> string)
    (v : jsval) : Completion jsval :=
  match v with
  | None => Normal None
  | Some JNull => Normal None
  | Some (JStr s) => Normal (Some (JStr (f s)))
  | Some _ =>
      Throw (mkError TypeError (method ++ " is not a function"))
  end.

(** [`Hey, ${user?.full_name?.split(" ")[0] || "User"}`]. *)
Definition greeting (user : jsval) : Completion string :=
  let* piece :=
    call_string_method "user?.full_name?.split" first_piece
      (get_prop_opt user "full_name") in
  Normal ("Hey, " ++ ToString (js_or piece (Some (JStr "User")))).

(** [user?.full_name?.charAt(0) || user?.email?.charAt(0) || "U"]; the
    email is read only when the name gives nothing. *)
Definition avatar_initial (user : jsval) : Completion jsval :=
  let* a :=
    call_string_method "user?.full_name?.charAt" charAt0
      (get_prop_opt user "full_name") in
  if truthy a then Normal a
  else
    let* b :=
      call_string_method "user?.email?.charAt" charAt0
        (get_prop_opt user "email") in
    Normal (js_or b (Some (JStr "U"))).

(** [analytics?.low_stock_items || []] and
    [analytics?.expiring_soon_items || []]. *)
Definition lowStock (analytics : jsval) : jsval :=
  js_or (get_prop_opt analytics "low_stock_items") (Some (JArr [])).

Definition expiringSoon (analytics : jsval) : jsval :=
  js_or (get_prop_opt analytics "expiring_soon_items") (Some (JArr [])).

(** A field of the profile that gives no letter: absent, [null] or the
    empty string. *)
Definition no_text (v : jsval) : Prop :=
  v = None \/ v = Some JNull \/ v = Some (JStr "").

(** A run of [n] slashes. *)
Fixpoint slashes (n : nat) : string :=
  match n with
  | O => EmptyString
  | S n' => String "/" (slashes n')
  end.

(** The text has no space. *)
Fixpoint no_space (s : string) : Prop :=
  match s with
  | EmptyString => True
  | String c r => c <> " "%char /\ no_space r
  end.

(** The text ends with a slash. *)
Definition ends_with_slash (s : string) : Prop := exists pre, s = pre ++ "/".

(** A handler never leaves the states that satisfy [P]. *)
Definition keeps {A} (P : App -> Prop) (m : M A) : Prop :=
  forall a, P a -> P (snd (m a)).

(** A handler completes normally from every state. *)
Definition never_throws {A} (m : M A) : Prop :=
  forall a, exists x, fst (m a) = Normal x.

(** A notice on the screen has a timer that will clear it. *)
Definition toast_has_timer (a : App) : Prop :=
  toast a = None \/ (0 < timers a)%nat.

(** The options of the request that creates a medicine. *)
Definition create_options (form : MedicineDraft) (iso : string) : Options :=
  mkOptions (Some "POST") (Some (JSON.stringify (draft_json form iso))) None.

(** A submission of the create form by a signed-in user fails: the expiry
    date cannot be read, or the gateway rejects the creating request, or
    that request resolves and the gateway rejects the refetch of the list
    that follows it. *)
Definition create_fails (toISOString : string -> Completion string)
    (fetch : Fetch) (a : App) : Prop :=
  authenticated a = true /\
  ((exists e, toISOString (mf_expiry_date (medicineForm a)) = Throw e) \/
   exists iso,
     toISOString (mf_expiry_date (medicineForm a)) = Normal iso /\
     (gateway_rejects
        (fetch (gateway_request (token a) "/api/medicines"
                  (create_options (medicineForm a) iso))) \/
      ((exists created,
          fetchWithAuth fetch (token a) "/api/medicines"
            (create_options (medicineForm a) iso) = Normal created) /\
       gateway_rejects
         (fetch (gateway_request (token a) "/api/medicines" no_options))))).

(** The stored value is a record with a truthy token. *)
Definition stored_token (storage : gmap string string) (tok : json) : Prop :=
  exists text members,
    storage !! AUTH_STORAGE_KEY = Some text /\
    JSON.parse text = Some (JObj members) /\
    assoc "token" members = Some tok /\
    truthy (Some tok) = true.

(** The batch [fetchData] starts under a token. *)
Definition warmup (tok : jsval) : Batch :=
  mkBatch tok [KProfile; KMedicines; KAnalytics] false.

(** Every batch in flight was started under a truthy token. *)
Definition batches_authenticated (w : World) : Prop :=
  Forall (fun b => truthy (captured b) = true) (inflight w).

(* ===================================================================== *)
(** ** Vocabulary of the statements                                        *)
(* ===================================================================== *)

(** The letters from A to Z, capital and small. *)
Definition letter_pairs : list (ascii * ascii) :=
  [("A"%char, "a"%char);
   ("B"%char, "b"%char);
   ("C"%char, "c"%char);
   ("D"%char, "d"%char);
   ("E"%char, "e"%char);
   ("F"%char, "f"%char);
   ("G"%char, "g"%char);
   ("H"%char, "h"%char);
   ("I"%char, "i"%char);
   ("J"%char, "j"%char);
   ("K"%char, "k"%char);
   ("L"%char, "l"%char);
   ("M"%char, "m"%char);
   ("N"%char, "n"%char);
   ("O"%char, "o"%char);
   ("P"%char, "p"%char);
   ("Q"%char, "q"%char);
   ("R"%char, "r"%char);
   ("S"%char, "s"%char);
   ("T"%char, "t"%char);
   ("U"%char, "u"%char);
   ("V"%char, "v"%char);
   ("W"%char, "w"%char);
   ("X"%char, "x"%char);
   ("Y"%char, "y"%char);
   ("Z"%char, "z"%char)].

(** The same character, or the capital and the small form of one letter. *)
Definition same_letter (c d : ascii) : Prop :=
  c = d \/ (c, d) ∈ letter_pairs \/ (d, c) ∈ letter_pairs.

#[global] Instance same_letter_decision (c d : ascii)
  : Decision (same_letter c d).
Proof. unfold same_letter. apply _. Defined.

(** The 256 characters. *)
Definition all_ascii : list ascii := List.map ascii_of_nat (seq 0 256).

(** Equal up to the case of the letters from A to Z: of the same length,
    with the same letter at every position. *)
Fixpoint ci_equal (a b : string) : Prop :=
  match a, b with
  | EmptyString, EmptyString => True
  | String c a', String d b' => same_letter c d /\ ci_equal a' b'
  | _, _ => False
  end.

(** [q] occurs in [s], up to the case of the letters. *)
Definition ci_substring (q s : string) : Prop :=
  exists pre mid post, s = pre ++ mid ++ post /\ ci_equal mid q.

(** The value [med.k] as the filter reads it. *)
Definition field (med : json) (k : string) : jsval :=
  get_prop_opt (Some med) k.

Definition is_string (v : jsval) : Prop := exists s, v = Some (JStr s).

(** A string written in ASCII. *)
Definition ascii_string (v : jsval) : Prop :=
  exists s, v = Some (JStr s) /\ is_ascii s = true.

(** The field is a string in which the query occurs up to case. *)
Definition field_contains (q : string) (v : jsval) : Prop :=
  exists s, v = Some (JStr s) /\ ci_substring q s.

(** The three searchable fields are strings. *)
Definition searchable (med : json) : Prop :=
  is_string (field med "name") /\
  is_string (field med "generic_name") /\
  is_string (field med "category").

(** The three searchable fields are strings written in ASCII. *)
Definition searchable_ascii (med : json) : Prop :=
  ascii_string (field med "name") /\
  ascii_string (field med "generic_name") /\
  ascii_string (field med "category").

(** A medicine one of whose searchable fields contains the query up to
    case. *)
Definition matches (q : string) (med : json) : Prop :=
  field_contains q (field med "name") \/
  field_contains q (field med "generic_name") \/
  field_contains q (field med "category").

(** The field is a string on which the test of the filter succeeds. *)
Definition field_tests (toLowerCase : string -> string) (q : string)
    (v : jsval) : Prop :=
  exists s, v = Some (JStr s) /\
            includes (toLowerCase s) (toLowerCase q) = true.

(** A medicine the search keeps: the test succeeds on one of its fields. *)
Definition hits (toLowerCase : string -> string) (q : string) (med : json)
  : Prop :=
  field_tests toLowerCase q (field med "name") \/
  field_tests toLowerCase q (field med "generic_name") \/
  field_tests toLowerCase q (field med "category").

(** A medicine on which the callback of the filter reads a field that is
    not a string: its name; or its generic name, the test having failed on
    the name; or its category, the test having failed on both. *)
Definition blocks (toLowerCase : string -> string) (q : string) (med : json)
  : Prop :=
  ~ is_string (field med "name") \/
  (~ field_tests toLowerCase q (field med "name") /\
   ~ is_string (field med "generic_name")) \/
  (~ field_tests toLowerCase q (field med "name") /\
   ~ field_tests toLowerCase q (field med "generic_name") /\
   ~ is_string (field med "category")).

(** A login or registration attempt failed: no response, or a response
    outside 2xx. *)
Definition attempt_failed (o : FetchOutcome) : Prop :=
  match o with
  | NetworkError _ => True
  | Responded status _ => ~ (200 <= status <= 299)
  end.

(** The message the handler builds from the value of a response body
    outside 2xx: its [detail] when it has a truthy one, and the generic
    message otherwise. *)
Definition detail_message (v : json) : string :=
  match get_prop_opt (Some v) "detail" with
  | Some d => if truthy (Some d) then ToString_json d
              else "Authentication failed"
  | None => "Authentication failed"
  end.

(** The message of the notice after a failed attempt: the message of the
    network error; the generic message when the body of the response is
    not JSON; the [detail_message] of the value of the body when [v] is
    that value. *)
Definition surfaces (o : FetchOutcome) (msg : string) : Prop :=
  match o with
  | NetworkError m => msg = m
  | Responded _ body =>
      (not_json body -> msg = "Authentication failed") /\
      (forall v, JSON.parse body = Some v -> msg = detail_message v)
  end.

(** Events that neither submit credentials nor reload the page. *)
Definition keeps_session (e : Event) : Prop :=
  match e with
  | EvAuthSubmit _ | EvReload _ => False
  | _ => True
  end.

(** The path each request of [fetchData] asks for. *)
Definition endpoint (k : Kind) : string :=
  match k with
  | KProfile => "/api/auth/me"
  | KMedicines => "/api/medicines"
  | KAnalytics => "/api/analytics/dashboard"
  end.

(** The values [JSON.parse] can return here: the objects of JavaScript have
    one value per key, and the numbers are integers that a double holds
    exactly. *)
Inductive well_formed : json -> Prop :=
  | wf_null : well_formed JNull
  | wf_bool b : well_formed (JBool b)
  | wf_num n :
      - JSON.max_safe_integer <= n <= JSON.max_safe_integer ->
      well_formed (JNum n)
  | wf_str s : well_formed (JStr s)
  | wf_arr items : Forall well_formed items -> well_formed (JArr items)
  | wf_obj members :
      NoDup (List.map fst members) ->
      Forall (fun kv => well_formed (snd kv)) members ->
      well_formed (JObj members).

Definition well_formed_val (v : jsval) : Prop :=
  match v with
  | Some j => well_formed j
  | None => True
  end.

(** What may follow a value inside a JSON text. *)
Definition delimited (rest : string) : Prop :=
  match rest with
  | EmptyString => True
  | String c _ => c = ","%char \/ c = "]"%char \/ c = "}"%char
  end.

(** Fuel that parsing the text of a value takes. *)
Fixpoint size (v : json) : nat :=
  match v with
  | JArr items =>
      S ((fix sum (l : list json) : nat :=
            match l with
            | [] => O
            | x :: l' => (S (size x) + sum l')%nat
            end) items)
  | JObj members =>
      S ((fix sum (l : list (string * json)) : nat :=
            match l with
            | [] => O
            | kv :: l' => (S (size (snd kv)) + sum l')%nat
            end) members)
  | _ => 1%nat
  end.

(** The text of a number starts with a digit or a minus sign. *)
Definition number_head (c : ascii) : bool :=
  match JSON.digit_of c with
  | Some _ => true
  | None => Ascii.eqb c "-"
  end.

(** The characters the text of a value can start with. *)
Definition value_head (c : ascii) : bool :=
  number_head c || Ascii.eqb c "n" || Ascii.eqb c "t" || Ascii.eqb c "f"
  || Ascii.eqb c JSON.dquote || Ascii.eqb c "[" || Ascii.eqb c "{".

(** The text of one member of an object. *)
Definition member_text (kv : string * json) : string :=
  JSON.quote (fst kv) ++ ":" ++ JSON.stringify (snd kv).

(** The fuel of the elements of an array and of the members of an object. *)
Definition items_size (items : list json) : nat :=
  fold_right (fun x n => (S (size x) + n)%nat) O items.

Definition members_size (members : list (string * json)) : nat :=
  fold_right (fun kv n => (S (size (snd kv)) + n)%nat) O members.

(** The statement proved by induction on the value. *)
Definition parses_back (v : json) : Prop :=
  well_formed v ->
  forall fuel rest,
    (size v <= fuel)%nat ->
    delimited rest ->
    JSON.parse_value fuel (JSON.stringify v ++ rest) = Some (v, rest).

(* ===================================================================== *)
(** * Properties                                                           *)
(* ===================================================================== *)

(** ** JSON texts: what the reader takes is JSON *)

Lemma parse_value_S (fuel : nat) (s : string) :
  JSON.parse_value (S fuel) s
  = match JSON.skip_ws s with
    | EmptyString => None
    | String c r =>
        if Ascii.eqb c "n" then
          option_map (fun rest => (JNull, rest)) (JSON.expect "ull" r)
        else if Ascii.eqb c "t" then
          option_map (fun rest => (JBool true, rest)) (JSON.expect "rue" r)
        else if Ascii.eqb c "f" then
          option_map (fun rest => (JBool false, rest)) (JSON.expect "alse" r)
        else if Ascii.eqb c JSON.dquote then
          option_map (fun sr => (JStr (fst sr), snd sr))
                     (JSON.parse_string_body r)
        else if Ascii.eqb c "[" then
          match JSON.skip_ws r with
          | String "]" rest => Some (JArr [], rest)
          | _ =>
              option_map (fun ir => (JArr (fst ir), snd ir))
                         (JSON.parse_elements fuel r)
          end
        else if Ascii.eqb c "{" then
          match JSON.skip_ws r with
          | String "}" rest => Some (JObj [], rest)
          | _ =>
              option_map
                (fun mr => (JObj (JSON.obj_of_members (fst mr)), snd mr))
                (JSON.parse_members fuel r)
          end
        else
          option_map (fun nr => (JNum (fst nr), snd nr))
                     (JSON.parse_number (String c r))
    end.
Proof. reflexivity. Qed.

Lemma parse_elements_S (fuel : nat) (s : string) :
  JSON.parse_elements (S fuel) s
  = match JSON.parse_value fuel s with
    | None => None
    | Some (v, r) =>
        match JSON.skip_ws r with
        | String "," r' =>
            option_map (fun ir => (v :: fst ir, snd ir))
                       (JSON.parse_elements fuel r')
        | String "]" r' => Some ([v], r')
        | _ => None
        end
    end.
Proof. reflexivity. Qed.

Lemma parse_members_S (fuel : nat) (s : string) :
  JSON.parse_members (S fuel) s
  = match JSON.skip_ws s with
    | String c r =>
        if Ascii.eqb c JSON.dquote then
          match JSON.parse_string_body r with
          | None => None
          | Some (k, r1) =>
              match JSON.skip_ws r1 with
              | String ":" r2 =>
                  match JSON.parse_value fuel r2 with
                  | None => None
                  | Some (v, r3) =>
                      match JSON.skip_ws r3 with
                      | String "," r4 =>
                          option_map (fun mr => ((k, v) :: fst mr, snd mr))
                                     (JSON.parse_members fuel r4)
                      | String "}" r4 => Some ([(k, v)], r4)
                      | _ => None
                      end
                  end
              | _ => None
              end
          end
        else None
    | EmptyString => None
    end.
Proof. reflexivity. Qed.

Ltac parse_cases :=
  repeat match goal with
         | H : None = Some _ |- _ => discriminate H
         | H : match ?x with _ => _ end = Some _ |- _ =>
             destruct x; try discriminate H
         end.


Lemma valid_value_S (fuel : nat) (s : string) :
  JSON.valid_value (S fuel) s
  = match JSON.skip_ws s with
    | EmptyString => None
    | String c r =>
        if Ascii.eqb c "n" then JSON.expect "ull" r
        else if Ascii.eqb c "t" then JSON.expect "rue" r
        else if Ascii.eqb c "f" then JSON.expect "alse" r
        else if Ascii.eqb c JSON.dquote then JSON.skip_string_body r
        else if Ascii.eqb c "[" then
          match JSON.skip_ws r with
          | String "]" rest => Some rest
          | _ => JSON.valid_elements fuel r
          end
        else if Ascii.eqb c "{" then
          match JSON.skip_ws r with
          | String "}" rest => Some rest
          | _ => JSON.valid_members fuel r
          end
        else JSON.skip_number (String c r)
    end.
Proof. reflexivity. Qed.

Lemma valid_elements_S (fuel : nat) (s : string) :
  JSON.valid_elements (S fuel) s
  = match JSON.valid_value fuel s with
    | None => None
    | Some r =>
        match JSON.skip_ws r with
        | String "," r' => JSON.valid_elements fuel r'
        | String "]" r' => Some r'
        | _ => None
        end
    end.
Proof. reflexivity. Qed.

Lemma valid_members_S (fuel : nat) (s : string) :
  JSON.valid_members (S fuel) s
  = match JSON.skip_ws s with
    | String c r =>
        if Ascii.eqb c JSON.dquote then
          match JSON.skip_string_body r with
          | None => None
          | Some r1 =>
              match JSON.skip_ws r1 with
              | String ":" r2 =>
                  match JSON.valid_value fuel r2 with
                  | None => None
                  | Some r3 =>
                      match JSON.skip_ws r3 with
                      | String "," r4 => JSON.valid_members fuel r4
                      | String "}" r4 => Some r4
                      | _ => None
                      end
                  end
              | _ => None
              end
          end
        else None
    | EmptyString => None
    end.
Proof. reflexivity. Qed.

(** *** Strings *)

Lemma cons_char_Some (c : ascii) (r : option (string * string))
    (s rest : string) :
  JSON.cons_char c r = Some (s, rest) ->
  exists s', r = Some (s', rest).
Proof.
  destruct r as [[s' rest']|]; simpl; [|discriminate].
  intros [= _ <-]. now exists s'.
Qed.

Lemma parse_string_body_cons (c : ascii) (r : string) :
  JSON.parse_string_body (String c r)
  = if Ascii.eqb c JSON.dquote then Some ("", r)
    else if Ascii.eqb c JSON.backslash then
      match r with
      | EmptyString => None
      | String e r1 =>
          match JSON.simple_escape e with
          | Some ch => JSON.cons_char ch (JSON.parse_string_body r1)
          | None =>
              if Ascii.eqb e "u" then
                match r1 with
                | String h1 (String h2 (String h3 (String h4 r2))) =>
                    match JSON.hex4 h1 h2 h3 h4 with
                    | Some n =>
                        if (n <? 128)%N
                        then JSON.cons_char (ascii_of_N n)
                               (JSON.parse_string_body r2)
                        else None
                    | None => None
                    end
                | _ => None
                end
              else None
          end
      end
    else if (N_of_ascii c <? 32)%N then None
    else JSON.cons_char c (JSON.parse_string_body r).
Proof. reflexivity. Qed.

Lemma skip_string_body_cons (c : ascii) (r : string) :
  JSON.skip_string_body (String c r)
  = if Ascii.eqb c JSON.dquote then Some r
    else if Ascii.eqb c JSON.backslash then
      match r with
      | EmptyString => None
      | String e r1 =>
          match JSON.simple_escape e with
          | Some _ => JSON.skip_string_body r1
          | None =>
              if Ascii.eqb e "u" then
                match r1 with
                | String h1 (String h2 (String h3 (String h4 r2))) =>
                    match JSON.hex4 h1 h2 h3 h4 with
                    | Some _ => JSON.skip_string_body r2
                    | None => None
                    end
                | _ => None
                end
              else None
          end
      end
    else if (N_of_ascii c <? 32)%N then None
    else JSON.skip_string_body r.
Proof. reflexivity. Qed.

(** A string the reader takes is a string of the grammar. *)
Lemma parse_string_body_valid (n : nat) : forall s str rest,
  (String.length s <= n)%nat ->
  JSON.parse_string_body s = Some (str, rest) ->
  JSON.skip_string_body s = Some rest.
Proof.
  induction n as [|n IH]; intros s str rest Hlen H.
  - destruct s; [discriminate H | simpl in Hlen; lia].
  - destruct s as [|c r]; [discriminate H|].
    rewrite parse_string_body_cons in H. rewrite skip_string_body_cons.
    simpl in Hlen.
    destruct (Ascii.eqb c JSON.dquote); [now injection H as _ <-|].
    destruct (Ascii.eqb c JSON.backslash).
    + destruct r as [|e r1]; [discriminate H|]. simpl in Hlen.
      destruct (JSON.simple_escape e).
      * apply cons_char_Some in H as [s' H].
        eapply IH; [|exact H]; lia.
      * destruct (Ascii.eqb e "u"); [|discriminate H].
        destruct r1 as [|h1 [|h2 [|h3 [|h4 r2]]]]; try discriminate H.
        simpl in Hlen.
        destruct (JSON.hex4 h1 h2 h3 h4) as [k|]; [|discriminate H].
        destruct (k <? 128)%N; [|discriminate H].
        apply cons_char_Some in H as [s' H].
        eapply IH; [|exact H]; lia.
    + destruct (N_of_ascii c <? 32)%N; [discriminate H|].
      apply cons_char_Some in H as [s' H].
      eapply IH; [|exact H]; lia.
Qed.

(** *** Numbers *)

Lemma parse_digits_skip (s : string) :
  snd (JSON.parse_digits s) = JSON.skip_digits s.
Proof.
  induction s as [|c r IH]; [reflexivity|].
  simpl. unfold JSON.is_digit.
  destruct (JSON.digit_of c); [|reflexivity].
  destruct (JSON.parse_digits r) as [ds rest]. exact IH.
Qed.

Lemma parse_digits_none (s : string) (rest : string) :
  JSON.parse_digits s = (Decimal.Nil, rest) -> rest = s.
Proof.
  destruct s as [|c r]; simpl; [now intros [= <-]|].
  destruct (JSON.parse_digits r) as [ds rest'].
  destruct c as [[] [] [] [] [] [] [] []]; simpl;
    first [discriminate | now intros [= <-]].
Qed.

(** An integer the reader takes is [int] of the grammar, and neither a
    fraction nor an exponent follows it. *)
Lemma parse_nat_valid (s : string) (n : Z) (rest : string) :
  JSON.parse_nat s = Some (n, rest) ->
  JSON.skip_int s = Some rest /\ JSON.continues_number rest = false.
Proof.
  unfold JSON.parse_nat. intros H.
  destruct s as [|c r]; [discriminate H|].
  pose proof (parse_digits_skip r) as Hskip.
  pose proof (parse_digits_none r) as Hnone.
  simpl JSON.parse_digits in H. unfold JSON.skip_int, JSON.is_digit.
  destruct (JSON.parse_digits r) as [ds rest']. simpl in Hskip.
  assert (Hgen : forall ds0 : Decimal.uint,
    (if JSON.continues_number rest' then None
     else if Z.of_uint ds0 <=? JSON.max_safe_integer
          then Some (Z.of_uint ds0, rest') else None) = Some (n, rest) ->
    rest' = rest /\ JSON.continues_number rest = false).
  { intros ds0 H0. destruct (JSON.continues_number rest') eqn:E;
      [discriminate|].
    destruct (Z.of_uint ds0 <=? JSON.max_safe_integer); [|discriminate].
    injection H0 as _ <-. auto. }
  destruct c as [[] [] [] [] [] [] [] []]; simpl in H |- *;
    try discriminate H;
    try (apply Hgen in H as [<- Hc]; rewrite <- Hskip; now split).
  destruct ds; try discriminate H.
  apply Hgen in H as [<- Hc]. pose proof (Hnone _ eq_refl) as E.
  clear Hskip Hgen Hnone. subst rest'. now split.
Qed.

Lemma skip_frac_exp_stop (rest : string) :
  JSON.continues_number rest = false ->
  JSON.skip_frac rest = Some rest /\ JSON.skip_exp rest = Some rest.
Proof.
  destruct rest as [|c r]; [now split|]. simpl.
  destruct (Ascii.eqb c "."); [discriminate|].
  destruct (Ascii.eqb c "e"); [discriminate|].
  destruct (Ascii.eqb c "E"); [discriminate|]. now split.
Qed.

Lemma skip_int_not_minus (r : string) :
  JSON.skip_int (String "-" r) = None.
Proof. reflexivity. Qed.

(** A number the reader takes is a number of the grammar. *)
Lemma parse_number_valid (s : string) (n : Z) (rest : string) :
  JSON.parse_number s = Some (n, rest) -> JSON.skip_number s = Some rest.
Proof.
  intros H.
  assert (Hcase :
    exists u m, JSON.parse_nat u = Some (m, rest) /\
      u = match s with
          | String c r => if Ascii.eqb c "-" then r else s
          | EmptyString => s
          end).
  { unfold JSON.parse_number in H. destruct s as [|c r].
    - now exists "", n.
    - destruct (Ascii.eqb_spec c "-") as [->|Hc].
      + destruct (JSON.parse_nat r) as [[m r']|] eqn:E; [|discriminate].
        injection H as _ <-. now exists r, m.
      + exists (String c r), n. split; [|reflexivity].
        destruct c as [[] [] [] [] [] [] [] []];
          try exact H; exfalso; now apply Hc. }
  destruct Hcase as (u & m & Hnat & Hu).
  apply parse_nat_valid in Hnat as [Hint Hstop].
  apply skip_frac_exp_stop in Hstop as [Hfrac Hexp].
  unfold JSON.skip_number. rewrite <- Hu, Hint, Hfrac. exact Hexp.
Qed.

(** *** Values *)

Lemma option_map_Some {A B} (f : A -> B) (o : option A) (b : B) :
  option_map f o = Some b -> exists a, o = Some a /\ f a = b.
Proof. destruct o as [a|]; simpl; [|discriminate]. intros [= <-]. eauto. Qed.

(** What follows a value inside an array, for the reader and for the
    grammar. *)
Lemma after_element (A : Type) (r : string) (more : string -> option A)
    (last : string -> A) (x : A) :
  match JSON.skip_ws r with
  | String "," r' => more r'
  | String "]" r' => Some (last r')
  | _ => None
  end = Some x ->
  (exists r', JSON.skip_ws r = String "," r' /\ more r' = Some x) \/
  (exists r', JSON.skip_ws r = String "]" r' /\ last r' = x).
Proof.
  destruct (JSON.skip_ws r) as [|c r']; [discriminate|].
  destruct c as [[] [] [] [] [] [] [] []]; try discriminate;
    first [ intros [= <-]; right; now eauto | intros H; left; now eauto ].
Qed.

Lemma after_member (A : Type) (r : string) (more : string -> option A)
    (last : string -> A) (x : A) :
  match JSON.skip_ws r with
  | String "," r' => more r'
  | String "}" r' => Some (last r')
  | _ => None
  end = Some x ->
  (exists r', JSON.skip_ws r = String "," r' /\ more r' = Some x) \/
  (exists r', JSON.skip_ws r = String "}" r' /\ last r' = x).
Proof.
  destruct (JSON.skip_ws r) as [|c r']; [discriminate|].
  destruct c as [[] [] [] [] [] [] [] []]; try discriminate;
    first [ intros [= <-]; right; now eauto | intros H; left; now eauto ].
Qed.

Lemma after_bracket (A : Type) (close : ascii) (r : string)
    (empty : string -> A) (more : option A) (x : A) :
  close = "]"%char \/ close = "}"%char ->
  (if Ascii.eqb close "]"
   then match JSON.skip_ws r with
        | String "]" rest => Some (empty rest)
        | _ => more
        end
   else match JSON.skip_ws r with
        | String "}" rest => Some (empty rest)
        | _ => more
        end) = Some x ->
  (exists rest, JSON.skip_ws r = String close rest /\ empty rest = x) \/
  ((forall rest, JSON.skip_ws r <> String close rest) /\ more = Some x).
Proof.
  intros [-> | ->]; simpl;
    (destruct (JSON.skip_ws r) as [|c r'];
     [intros H; right; split; [discriminate | exact H]|]);
    destruct c as [[] [] [] [] [] [] [] []];
    try (intros H; right; split; [discriminate | exact H]);
    intros [= <-]; left; eauto.
Qed.

Lemma after_colon (A : Type) (r : string) (next : string -> option A)
    (x : A) :
  match JSON.skip_ws r with
  | String ":" r2 => next r2
  | _ => None
  end = Some x ->
  exists r2, JSON.skip_ws r = String ":" r2 /\ next r2 = Some x.
Proof.
  destruct (JSON.skip_ws r) as [|c r']; [discriminate|].
  destruct c as [[] [] [] [] [] [] [] []]; try discriminate.
  intros H. eauto.
Qed.

(** Whatever the reader takes, the grammar accepts, up to the same place
    of the text. *)
Lemma parse_valid_fuel (fuel : nat) :
  (forall s v r, JSON.parse_value fuel s = Some (v, r) ->
                 JSON.valid_value fuel s = Some r) /\
  (forall s l r, JSON.parse_elements fuel s = Some (l, r) ->
                 JSON.valid_elements fuel s = Some r) /\
  (forall s m r, JSON.parse_members fuel s = Some (m, r) ->
                 JSON.valid_members fuel s = Some r).
Proof.
  induction fuel as [|fuel (IHv & IHe & IHm)].
  - repeat split; intros; discriminate.
  - repeat split.
    + intros s v r H. rewrite parse_value_S in H. rewrite valid_value_S.
      destruct (JSON.skip_ws s) as [|c t]; [discriminate|].
      destruct (Ascii.eqb c "n").
      { apply option_map_Some in H as (x & -> & [= _ <-]). reflexivity. }
      destruct (Ascii.eqb c "t").
      { apply option_map_Some in H as (x & -> & [= _ <-]). reflexivity. }
      destruct (Ascii.eqb c "f").
      { apply option_map_Some in H as (x & -> & [= _ <-]). reflexivity. }
      destruct (Ascii.eqb c JSON.dquote).
      { apply option_map_Some in H as ([str rest] & Hs & [= _ <-]).
        apply (parse_string_body_valid _ _ _ _ (le_n _) Hs). }
      destruct (Ascii.eqb c "[").
      { apply (after_bracket _ "]" t (fun rest => (JArr [], rest))
                 (option_map (fun ir : list json * string =>
                                (JArr (fst ir), snd ir))
                    (JSON.parse_elements fuel t)) (v, r)
                 (or_introl eq_refl)) in H.
        destruct H as [(rest & -> & [= _ <-])|[Hne H]]; [reflexivity|].
        apply option_map_Some in H as ([l rest] & Hl & [= _ <-]).
        apply IHe in Hl. simpl.
        destruct (JSON.skip_ws t) as [|c1 t1]; [exact Hl|].
        destruct c1 as [[] [] [] [] [] [] [] []]; try exact Hl.
        exfalso. now apply (Hne t1). }
      destruct (Ascii.eqb c "{").
      { apply (after_bracket _ "}" t (fun rest => (JObj [], rest))
                 (option_map (fun mr : list (string * json) * string =>
                                (JObj (JSON.obj_of_members (fst mr)), snd mr))
                    (JSON.parse_members fuel t)) (v, r)
                 (or_intror eq_refl)) in H.
        destruct H as [(rest & -> & [= _ <-])|[Hne H]]; [reflexivity|].
        apply option_map_Some in H as ([l rest] & Hl & [= _ <-]).
        apply IHm in Hl. simpl.
        destruct (JSON.skip_ws t) as [|c1 t1]; [exact Hl|].
        destruct c1 as [[] [] [] [] [] [] [] []]; try exact Hl.
        exfalso. now apply (Hne t1). }
      apply option_map_Some in H as ([n rest] & Hn & [= _ <-]).
      apply (parse_number_valid _ _ _ Hn).
    + intros s l r H. rewrite parse_elements_S in H.
      rewrite valid_elements_S.
      destruct (JSON.parse_value fuel s) as [[v r1]|] eqn:Ev; [|discriminate].
      rewrite (IHv _ _ _ Ev).
      apply (after_element _ r1
               (fun r' => option_map (fun ir : list json * string =>
                                        (v :: fst ir, snd ir))
                            (JSON.parse_elements fuel r'))
               (fun r' => ([v], r'))) in H.
      destruct H as [(r' & -> & H)|(r' & -> & [= _ <-])]; [|reflexivity].
      apply option_map_Some in H as ([l' rest] & Hl & [= _ <-]).
      apply (IHe _ _ _ Hl).
    + intros s m r H. rewrite parse_members_S in H.
      rewrite valid_members_S.
      destruct (JSON.skip_ws s) as [|c t]; [discriminate|].
      destruct (Ascii.eqb c JSON.dquote); [|discriminate].
      destruct (JSON.parse_string_body t) as [[k r1]|] eqn:Ek;
        [|discriminate].
      rewrite (parse_string_body_valid _ _ _ _ (le_n _) Ek).
      apply (after_colon _ r1
               (fun r2 =>
                  match JSON.parse_value fuel r2 with
                  | None => None
                  | Some (v, r3) =>
                      match JSON.skip_ws r3 with
                      | String "," r4 =>
                          option_map
                            (fun mr : list (string * json) * string =>
                               ((k, v) :: fst mr, snd mr))
                            (JSON.parse_members fuel r4)
                      | String "}" r4 => Some ([(k, v)], r4)
                      | _ => None
                      end
                  end)) in H.
      destruct H as (r2 & -> & H).
      destruct (JSON.parse_value fuel r2) as [[v r3]|] eqn:Ev; [|discriminate].
      rewrite (IHv _ _ _ Ev).
      apply (after_member _ r3
               (fun r4 => option_map
                            (fun mr : list (string * json) * string =>
                               ((k, v) :: fst mr, snd mr))
                            (JSON.parse_members fuel r4))
               (fun r4 => ([(k, v)], r4))) in H.
      destruct H as [(r4 & -> & H)|(r4 & -> & [= _ <-])]; [|reflexivity].
      apply option_map_Some in H as ([m' rest] & Hm & [= _ <-]).
      apply (IHm _ _ _ Hm).
Qed.

(** A text on which the reader returns a value is JSON. *)
Lemma parse_valid (text : string) (v : json) :
  JSON.parse text = Some v -> JSON.valid text = true.
Proof.
  unfold JSON.parse, JSON.valid. intros H.
  destruct (JSON.parse_value _ text) as [[v' r]|] eqn:E; [|discriminate].
  rewrite (proj1 (parse_valid_fuel _) _ _ _ E).
  now destruct (JSON.skip_ws r).
Qed.

(** On a text that is not JSON the reader returns nothing. *)
Lemma invalid_parse (text : string) :
  JSON.valid text = false -> JSON.parse text = None.
Proof.
  intros H. destruct (JSON.parse text) as [v|] eqn:E; [|reflexivity].
  apply parse_valid in E. congruence.
Qed.

(** *** The fuel of the grammar *)

Lemma skip_ws_length (s : string) :
  (String.length (JSON.skip_ws s) <= String.length s)%nat.
Proof.
  induction s as [|c r IH]; simpl; [lia|].
  destruct (JSON.is_ws c); simpl; lia.
Qed.

Lemma skip_ws_cons_length (s : string) (c : ascii) (t : string) :
  JSON.skip_ws s = String c t -> (String.length t < String.length s)%nat.
Proof.
  intros H. pose proof (skip_ws_length s) as Hle. rewrite H in Hle.
  simpl in Hle. lia.
Qed.

Lemma expect_length (lit : string) : forall s r,
  JSON.expect lit s = Some r -> (String.length r <= String.length s)%nat.
Proof.
  induction lit as [|c lit IH]; intros s r; simpl.
  - intros [= <-]. lia.
  - destruct s as [|c' s]; [discriminate|].
    destruct (Ascii.eqb c c'); [|discriminate].
    intros H. apply IH in H. simpl. lia.
Qed.

Lemma skip_string_body_length (n : nat) : forall s r,
  (String.length s <= n)%nat ->
  JSON.skip_string_body s = Some r ->
  (String.length r < String.length s)%nat.
Proof.
  induction n as [|n IH]; intros s r Hlen H.
  - destruct s; [discriminate H | simpl in Hlen; lia].
  - destruct s as [|c t]; [discriminate H|].
    rewrite skip_string_body_cons in H. simpl in Hlen |- *.
    destruct (Ascii.eqb c JSON.dquote); [injection H as <-; lia|].
    destruct (Ascii.eqb c JSON.backslash).
    + destruct t as [|e r1]; [discriminate H|]. simpl in Hlen |- *.
      destruct (JSON.simple_escape e).
      * apply IH in H; lia.
      * destruct (Ascii.eqb e "u"); [|discriminate H].
        destruct r1 as [|h1 [|h2 [|h3 [|h4 r2]]]]; try discriminate H.
        simpl in Hlen |- *.
        destruct (JSON.hex4 h1 h2 h3 h4); [|discriminate H].
        apply IH in H; lia.
    + destruct (N_of_ascii c <? 32)%N; [discriminate H|].
      apply IH in H; lia.
Qed.

Lemma skip_digits_length (s : string) :
  (String.length (JSON.skip_digits s) <= String.length s)%nat.
Proof.
  induction s as [|c r IH]; simpl; [lia|].
  destruct (JSON.is_digit c); simpl; lia.
Qed.

Lemma skip_digits1_length (s r : string) :
  JSON.skip_digits1 s = Some r -> (String.length r < String.length s)%nat.
Proof.
  destruct s as [|c t]; simpl; [discriminate|].
  destruct (JSON.is_digit c); [|discriminate].
  intros [= <-]. pose proof (skip_digits_length t). lia.
Qed.

Lemma skip_number_length (s r : string) :
  JSON.skip_number s = Some r -> (String.length r < String.length s)%nat.
Proof.
  unfold JSON.skip_number.
  set (u := match s with
            | String c r0 => if Ascii.eqb c "-" then r0 else s
            | EmptyString => s
            end).
  assert (Hu : (String.length u <= String.length s)%nat).
  { subst u. destruct s as [|c r0]; [lia|].
    destruct (Ascii.eqb c "-"); simpl; lia. }
  destruct (JSON.skip_int u) as [r1|] eqn:E1; [|discriminate].
  assert (H1 : (String.length r1 < String.length u)%nat).
  { unfold JSON.skip_int in E1. destruct u as [|c t]; [discriminate|].
    simpl. destruct (Ascii.eqb c "0"); [injection E1 as <-; lia|].
    destruct (JSON.is_digit c); [|discriminate].
    injection E1 as <-. pose proof (skip_digits_length t). lia. }
  destruct (JSON.skip_frac r1) as [r2|] eqn:E2; [|discriminate].
  assert (H2 : (String.length r2 <= String.length r1)%nat).
  { unfold JSON.skip_frac in E2. destruct r1 as [|c t]; [injection E2 as <-; lia|].
    destruct (Ascii.eqb c ".").
    - apply skip_digits1_length in E2. simpl. lia.
    - injection E2 as <-. lia. }
  intros E3.
  assert (H3 : (String.length r <= String.length r2)%nat).
  { unfold JSON.skip_exp in E3. destruct r2 as [|c t]; [injection E3 as <-; lia|].
    destruct (Ascii.eqb c "e" || Ascii.eqb c "E").
    - destruct t as [|sg t']; [discriminate|].
      destruct (Ascii.eqb sg "+" || Ascii.eqb sg "-").
      + apply skip_digits1_length in E3. simpl. lia.
      + apply skip_digits1_length in E3. simpl in *. lia.
    - injection E3 as <-. lia. }
  lia.
Qed.

Lemma valid_value_fuel (fuel : nat) :
  (forall s r, JSON.valid_value fuel s = Some r ->
     (String.length r < String.length s)%nat /\
     forall f, (String.length s - String.length r <= f)%nat ->
               JSON.valid_value f s = Some r) /\
  (forall s r, JSON.valid_elements fuel s = Some r ->
     (String.length r < String.length s)%nat /\
     forall f, (String.length s - String.length r <= f)%nat ->
               JSON.valid_elements f s = Some r) /\
  (forall s r, JSON.valid_members fuel s = Some r ->
     (String.length r < String.length s)%nat /\
     forall f, (String.length s - String.length r <= f)%nat ->
               JSON.valid_members f s = Some r).
Proof.
  induction fuel as [|fuel (IHv & IHe & IHm)].
  - repeat split; intros; discriminate.
  - split; [|split].
    + intros s r H. rewrite valid_value_S in H.
      destruct (JSON.skip_ws s) as [|c t] eqn:Ews; [discriminate|].
      pose proof (skip_ws_cons_length _ _ _ Ews) as Hlt.
      assert (Hatom : forall tok : option string,
        tok = Some r ->
        (String.length r <= String.length t)%nat ->
        (forall f, JSON.valid_value (S f) s = tok) ->
        (String.length r < String.length s)%nat /\
        forall f, (String.length s - String.length r <= f)%nat ->
                  JSON.valid_value f s = Some r).
      { intros tok -> Hle Hf. split; [lia|].
        intros [|f] Hfuel; [lia | apply Hf]. }
      destruct (Ascii.eqb c "n") eqn:En.
      { apply (Hatom _ H); [now apply expect_length in H|].
        intros f. now rewrite valid_value_S, Ews, En. }
      destruct (Ascii.eqb c "t") eqn:Et.
      { apply (Hatom _ H); [now apply expect_length in H|].
        intros f. now rewrite valid_value_S, Ews, En, Et. }
      destruct (Ascii.eqb c "f") eqn:Ef.
      { apply (Hatom _ H); [now apply expect_length in H|].
        intros f. now rewrite valid_value_S, Ews, En, Et, Ef. }
      destruct (Ascii.eqb c JSON.dquote) eqn:Eq.
      { apply (Hatom _ H).
        - apply (skip_string_body_length _ _ _ (le_n _)) in H. lia.
        - intros f. now rewrite valid_value_S, Ews, En, Et, Ef, Eq. }
      destruct (Ascii.eqb c "[") eqn:Ea.
      { apply (after_bracket _ "]" t (fun rest => rest)
                 (JSON.valid_elements fuel t) r (or_introl eq_refl)) in H.
        destruct H as [(rest & Hr & <-)|[Hne H]].
        - pose proof (skip_ws_cons_length _ _ _ Hr). split; [lia|].
          intros [|f] Hfuel; [lia|].
          now rewrite valid_value_S, Ews, En, Et, Ef, Eq, Ea, Hr.
        - apply IHe in H as [Hlen Hmono]. split; [lia|].
          intros [|f] Hfuel; [lia|].
          rewrite valid_value_S, Ews, En, Et, Ef, Eq, Ea.
          assert (Hf : JSON.valid_elements f t = Some r)
            by (apply Hmono; lia).
          destruct (JSON.skip_ws t) as [|c1 t1]; [exact Hf|].
          destruct c1 as [[] [] [] [] [] [] [] []]; try exact Hf.
          exfalso. now apply (Hne t1). }
      destruct (Ascii.eqb c "{") eqn:Eo.
      { apply (after_bracket _ "}" t (fun rest => rest)
                 (JSON.valid_members fuel t) r (or_intror eq_refl)) in H.
        destruct H as [(rest & Hr & <-)|[Hne H]].
        - pose proof (skip_ws_cons_length _ _ _ Hr). split; [lia|].
          intros [|f] Hfuel; [lia|].
          now rewrite valid_value_S, Ews, En, Et, Ef, Eq, Ea, Eo, Hr.
        - apply IHm in H as [Hlen Hmono]. split; [lia|].
          intros [|f] Hfuel; [lia|].
          rewrite valid_value_S, Ews, En, Et, Ef, Eq, Ea, Eo.
          assert (Hf : JSON.valid_members f t = Some r)
            by (apply Hmono; lia).
          destruct (JSON.skip_ws t) as [|c1 t1]; [exact Hf|].
          destruct c1 as [[] [] [] [] [] [] [] []]; try exact Hf.
          exfalso. now apply (Hne t1). }
      pose proof (skip_number_length _ _ H) as Hn. simpl in Hn.
      split; [lia|].
      intros [|f] Hfuel; [lia|].
      now rewrite valid_value_S, Ews, En, Et, Ef, Eq, Ea, Eo.
    + intros s r H. rewrite valid_elements_S in H.
      destruct (JSON.valid_value fuel s) as [r1|] eqn:Ev; [|discriminate].
      apply IHv in Ev as [Hlen1 Hmono1].
      apply (after_element _ r1 (JSON.valid_elements fuel)
               (fun r' => r')) in H.
      destruct H as [(r' & Hr & H)|(r' & Hr & <-)];
        pose proof (skip_ws_cons_length _ _ _ Hr) as Hlt.
      * apply IHe in H as [Hlen Hmono]. split; [lia|].
        intros [|f] Hfuel; [lia|].
        rewrite valid_elements_S, (Hmono1 f ltac:(lia)), Hr.
        apply Hmono. lia.
      * split; [lia|].
        intros [|f] Hfuel; [lia|].
        now rewrite valid_elements_S, (Hmono1 f ltac:(lia)), Hr.
    + intros s r H. rewrite valid_members_S in H.
      destruct (JSON.skip_ws s) as [|c t] eqn:Ews; [discriminate|].
      pose proof (skip_ws_cons_length _ _ _ Ews) as Hlt.
      destruct (Ascii.eqb c JSON.dquote) eqn:Eq; [|discriminate].
      destruct (JSON.skip_string_body t) as [r1|] eqn:Ek; [|discriminate].
      pose proof (skip_string_body_length _ _ _ (le_n _) Ek) as Hk.
      apply (after_colon _ r1
               (fun r2 =>
                  match JSON.valid_value fuel r2 with
                  | None => None
                  | Some r3 =>
                      match JSON.skip_ws r3 with
                      | String "," r4 => JSON.valid_members fuel r4
                      | String "}" r4 => Some r4
                      | _ => None
                      end
                  end)) in H.
      destruct H as (r2 & Hc & H).
      pose proof (skip_ws_cons_length _ _ _ Hc) as Hc'.
      destruct (JSON.valid_value fuel r2) as [r3|] eqn:Ev; [|discriminate].
      apply IHv in Ev as [Hlen1 Hmono1].
      apply (after_member _ r3 (JSON.valid_members fuel)
               (fun r4 => r4)) in H.
      destruct H as [(r4 & Hr & H)|(r4 & Hr & <-)];
        pose proof (skip_ws_cons_length _ _ _ Hr) as Hlt'.
      * apply IHm in H as [Hlen Hmono]. split; [lia|].
        intros [|f] Hfuel; [lia|].
        rewrite valid_members_S, Ews, Eq, Ek, Hc,
          (Hmono1 f ltac:(lia)), Hr.
        apply Hmono. lia.
      * split; [lia|].
        intros [|f] Hfuel; [lia|].
        now rewrite valid_members_S, Ews, Eq, Ek, Hc,
          (Hmono1 f ltac:(lia)), Hr.
Qed.

(** The fuel of [JSON.valid] is enough: a text that the grammar accepts
    with some fuel is accepted. *)
Lemma valid_any_fuel (s : string) :
  JSON.valid s = true <->
  exists fuel rest,
    JSON.valid_value fuel s = Some rest /\ JSON.skip_ws rest = "".
Proof.
  unfold JSON.valid. split.
  - destruct (JSON.valid_value _ s) as [rest|] eqn:E; [|discriminate].
    intros H. apply String.eqb_eq in H. eauto.
  - intros (fuel & rest & Hv & Hws).
    apply (proj1 (valid_value_fuel fuel)) in Hv as [_ Hmono].
    rewrite (Hmono (S (String.length s)) ltac:(lia)), Hws. reflexivity.
Qed.

Lemma strip_bom_cases (body : string) :
  strip_bom body = body \/
  exists r, body = String (ascii_of_N 239)
                     (String (ascii_of_N 187) (String (ascii_of_N 191) r)).
Proof.
  destruct body as [|b1 [|b2 [|b3 r]]]; try (now left).
  unfold strip_bom.
  destruct (N.eqb_spec (N_of_ascii b1) 239) as [E1|]; [|now left].
  destruct (N.eqb_spec (N_of_ascii b2) 187) as [E2|]; [|now left].
  destruct (N.eqb_spec (N_of_ascii b3) 191) as [E3|]; [|now left].
  right. exists r.
  rewrite <- E1, <- E2, <- E3, !ascii_N_embedding. reflexivity.
Qed.

(** A body that is not JSON is not taken by the reader either. *)
Lemma not_json_parse (body : string) :
  not_json body -> JSON.parse body = None.
Proof.
  unfold not_json. intros H.
  destruct (strip_bom_cases body) as [E|[r ->]].
  - rewrite E in H. now apply invalid_parse.
  - reflexivity.
Qed.


(** ** The request gateway *)

Lemma response_ok_range (status : Z) :
  response_ok status = true <-> 200 <= status <= 299.
Proof. unfold response_ok. rewrite andb_true_iff, !Z.leb_le. tauto. Qed.

Lemma await_fetch_responded fetch r status body :
  fetch r = Responded status body ->
  await_fetch fetch r = Normal (status, body).
Proof. unfold await_fetch. now intros ->. Qed.

Lemma await_fetch_network fetch r msg :
  fetch r = NetworkError msg ->
  await_fetch fetch r = Throw (mkError TypeError msg).
Proof. unfold await_fetch. now intros ->. Qed.

(** What [fetchWithAuth] does with a response, case by case. *)
Lemma fetchWithAuth_responded fetch tok path options status body :
  fetch (gateway_request tok path options) = Responded status body ->
  fetchWithAuth fetch tok path options =
    if negb (response_ok status) then
      Throw (mkError Error
        (ToString
           (js_or (get_prop_opt (Some (safeJson body)) "detail")
              (js_or (get_prop_opt (Some (safeJson body)) "message")
                 (Some (JStr ("Request failed (" ++ string_of_Z status
                                ++ ")")))))))
    else if status =? 204 then Normal JNull
    else response_json body.
Proof.
  intros H. unfold fetchWithAuth.
  rewrite (await_fetch_responded _ _ _ _ H). reflexivity.
Qed.

(** On the outcomes collected in [gateway_rejects] the gateway rejects. *)
Lemma gateway_rejects_throws fetch tok path options :
  gateway_rejects (fetch (gateway_request tok path options)) ->
  exists e, fetchWithAuth fetch tok path options = Throw e.
Proof.
  destruct (fetch (gateway_request tok path options))
    as [msg|status body] eqn:Hfetch; intros Hrej.
  - unfold fetchWithAuth. rewrite (await_fetch_network _ _ _ Hfetch). eauto.
  - rewrite (fetchWithAuth_responded _ _ _ _ _ _ Hfetch).
    destruct (response_ok status) eqn:Hok; simpl; [|eauto].
    apply response_ok_range in Hok.
    destruct Hrej as [Hout|[H204 Hbody]]; [contradiction|].
    apply Z.eqb_neq in H204. rewrite H204.
    unfold response_json, JSON_parse.
    rewrite (not_json_parse _ Hbody). eauto.
Qed.

(** C1, as the code has it: a 2xx response other than 204 is parsed as
    JSON and nothing is caught: the call resolves to the value of the
    body, and when the body is not JSON it rejects with the SyntaxError of
    the parse. *)
Theorem fetchWithAuth_success_parses fetch tok path options status body :
  fetch (gateway_request tok path options) = Responded status body ->
  response_ok status = true ->
  status <> 204 ->
  (forall v, JSON.parse body = Some v ->
             fetchWithAuth fetch tok path options = Normal v) /\
  (not_json body ->
   exists msg, fetchWithAuth fetch tok path options
               = Throw (mkError SyntaxError msg)).
Proof.
  intros Hfetch Hok H204.
  rewrite (fetchWithAuth_responded _ _ _ _ _ _ Hfetch), Hok. simpl.
  apply Z.eqb_neq in H204. rewrite H204.
  unfold response_json, JSON_parse. split.
  - now intros v ->.
  - intros Hbody. rewrite (not_json_parse _ Hbody). eauto.
Qed.

Lemma fetchWithAuth_success_parses_witness :
  fetchWithAuth (fun _ => Responded 200 "[1,2]") (Some (JStr "t1"))
    "/api/medicines" no_options
  = Normal (JArr [JNum 1; JNum 2]) /\
  exists msg,
    fetchWithAuth (fun _ => Responded 200 "[1,2") (Some (JStr "t1"))
      "/api/medicines" no_options
    = Throw (mkError SyntaxError msg).
Proof.
  split.
  - refine (proj1 (fetchWithAuth_success_parses
                     (fun _ => Responded 200 "[1,2]") (Some (JStr "t1"))
                     "/api/medicines" no_options 200 "[1,2]" _ _ _) _ _).
    + reflexivity.
    + reflexivity.
    + lia.
    + vm_compute. reflexivity.
  - refine (proj2 (fetchWithAuth_success_parses
                     (fun _ => Responded 200 "[1,2") (Some (JStr "t1"))
                     "/api/medicines" no_options 200 "[1,2" _ _ _) _).
    + reflexivity.
    + reflexivity.
    + lia.
    + vm_compute. reflexivity.
Defined.

(** C1 as stated fails: a 200 response whose body is not JSON makes the
    call reject; it does not resolve to an empty result. *)
Lemma fetchWithAuth_bad_json_rejects :
  response_ok 200 = true /\
  not_json "<html>" /\
  exists msg,
    fetchWithAuth (fun _ => Responded 200 "<html>") (Some (JStr "t1"))
      "/api/medicines" no_options
    = Throw (mkError SyntaxError msg).
Proof.
  split; [reflexivity|]. split; [vm_compute; reflexivity|].
  eexists. vm_compute. reflexivity.
Qed.

(** C2, as the code has it: the headers handed to [fetch] are the caller's
    headers over the JSON content type, except [Authorization], which is
    the bearer header whenever a token is present and the caller's own
    only when there is no token. *)
Theorem gateway_headers_lookup tok path options (k : string) :
  req_headers (gateway_request tok path options) !! k =
    if decide (k = "Authorization" /\ truthy tok = true)
    then Some ("Bearer " ++ ToString tok)
    else match default ∅ (opt_headers options) !! k with
         | Some v => Some v
         | None => if decide (k = "Content-Type")
                   then Some "application/json" else None
         end.
Proof.
  unfold gateway_request, gateway_headers. simpl.
  set (caller := default ∅ (opt_headers options)).
  assert (Hbase :
    (caller ∪ ({["Content-Type" := "application/json"]} : gmap string string))
      !! k
    = match caller !! k with
      | Some v => Some v
      | None => if decide (k = "Content-Type")
                then Some "application/json" else None
      end).
  { rewrite lookup_union. destruct (caller !! k) as [v|] eqn:Hk.
    - now rewrite union_Some_l.
    - rewrite (left_id None _). rewrite lookup_singleton.
      destruct (decide (k = "Content-Type")) as [->|Hne].
      + now rewrite decide_True.
      + rewrite decide_False; [reflexivity | congruence]. }
  destruct (truthy tok) eqn:Htok.
  - destruct (decide (k = "Authorization" /\ true = true)) as [[-> _]|Hn].
    + apply lookup_insert_eq.
    + rewrite lookup_insert_ne; [exact Hbase | intros <-; apply Hn; auto].
  - rewrite decide_False by (intros [_ ?]; discriminate). exact Hbase.
Qed.

(** C2 as stated fails: with a token present, a caller-supplied
    [Authorization] header loses to the gateway's bearer header. *)
Lemma gateway_overrides_caller_authorization :
  let options :=
    mkOptions None None (Some {["Authorization" := "Basic xyz"]}) in
  default ∅ (opt_headers options) !! "Authorization" = Some "Basic xyz" /\
  req_headers (gateway_request (Some (JStr "t1")) "/api/medicines" options)
    !! "Authorization" = Some "Bearer t1".
Proof. split; vm_compute; reflexivity. Qed.

(** ** Derived views *)

(** C4: the status cell shows low stock exactly when the quantity is at
    most the reorder level, the level being 10 when it is missing or
    zero. *)
Theorem isLowStock_iff (q : Z) (r : option Z) :
  isLowStock q r = true <->
  q <= match r with
       | Some x => if decide (x = 0) then 10 else x
       | None => 10
       end.
Proof.
  unfold isLowStock, reorder_or_default. rewrite Z.leb_le.
  destruct r as [x|]; [|reflexivity].
  destruct (decide (x = 0)) as [->|Hx]; [reflexivity|].
  apply Z.eqb_neq in Hx. now rewrite Hx.
Qed.

(** ** Session *)

(** The projections of the state through the setters. *)
Ltac run_handler :=
  unfold exec, outcome_of, mbind, mret, M_bind, M_ret, try_catch,
    try_finally, throw, lift, gets, modify, setAuthMode, setAuthValues,
    setToken, setUser, setLoading, setMedicines, setAnalytics,
    setSearchQuery, setMedicineForm, getItem, setItem, removeItem,
    console_error, showToast in *;
  simpl in *.

Lemma signOut_state (a : App) :
  signOut a =
    (Normal tt,
     mkApp (authMode a) (authValues a) (Some (JStr "")) (Some JNull)
       (loading a) (Some (JArr [])) (Some JNull) (searchQuery a)
       (medicineForm a)
       (Some (mkToast "You have signed out." info))
       (delete AUTH_STORAGE_KEY (sessionStorage a)) (console a)
       (S (timers a))).
Proof. unfold signOut. run_handler. reflexivity. Qed.

(** A failed attempt, network case: only [loading], the console and the
    toast change. *)
Lemma handleAuthSubmit_network fetch (a : App) msg :
  fetch (auth_request (authMode a) (authValues a)) = NetworkError msg ->
  handleAuthSubmit fetch a =
    (Normal tt,
     mkApp (authMode a) (authValues a) (token a) (user a) false
       (medicines a) (analytics a) (searchQuery a) (medicineForm a)
       (Some (mkToast msg error)) (sessionStorage a)
       (console a ++ ["" ++ msg]) (S (timers a))).
Proof.
  intros H. unfold handleAuthSubmit. run_handler.
  rewrite (await_fetch_network _ _ _ H). reflexivity.
Qed.

(** A failed attempt, non-2xx case. *)
Lemma handleAuthSubmit_refused fetch (a : App) status body :
  fetch (auth_request (authMode a) (authValues a)) = Responded status body ->
  response_ok status = false ->
  let msg :=
    ToString (js_or (get_prop_opt (Some (safeJson body)) "detail")
                (Some (JStr "Authentication failed"))) in
  handleAuthSubmit fetch a =
    (Normal tt,
     mkApp (authMode a) (authValues a) (token a) (user a) false
       (medicines a) (analytics a) (searchQuery a) (medicineForm a)
       (Some (mkToast msg error)) (sessionStorage a)
       (console a ++ ["" ++ msg]) (S (timers a))).
Proof.
  intros H Hok. unfold handleAuthSubmit. run_handler.
  rewrite (await_fetch_responded _ _ _ _ H). simpl. rewrite Hok. simpl.
  reflexivity.
Qed.

Lemma safeJson_parse body :
  safeJson body = match JSON.parse body with Some v => v | None => JNull end.
Proof.
  unfold safeJson, response_json, JSON_parse.
  now destruct (JSON.parse body).
Qed.

Lemma refused_message (status : Z) (body : string) :
  surfaces (Responded status body)
    (ToString (js_or (get_prop_opt (Some (safeJson body)) "detail")
                 (Some (JStr "Authentication failed")))).
Proof.
  rewrite safeJson_parse. split.
  - intros Hbody. now rewrite (not_json_parse _ Hbody).
  - intros v ->. unfold detail_message, js_or.
    destruct (get_prop_opt (Some v) "detail") as [d|]; [|reflexivity].
    destruct (truthy (Some d)); reflexivity.
Qed.

(** C6, as the code has it: after a failed login or registration (no
    response, or a response outside 2xx) the token, the user, the persisted
    record and the cached data are as before and the handler itself does
    not throw.  The notice is an error notice; it carries the message of
    the network error, or "Authentication failed" when the body of the
    response is not JSON, or, the body being JSON, its [detail] when that
    is truthy and "Authentication failed" otherwise. *)
Theorem failed_auth_keeps_session (fetch : Fetch) (a : App) :
  attempt_failed (fetch (auth_request (authMode a) (authValues a))) ->
  let a' := exec (handleAuthSubmit fetch) a in
  outcome_of (handleAuthSubmit fetch) a = Normal tt /\
  token a' = token a /\
  user a' = user a /\
  sessionStorage a' = sessionStorage a /\
  medicines a' = medicines a /\
  analytics a' = analytics a /\
  loading a' = false /\
  exists msg,
    toast a' = Some (mkToast msg error) /\
    surfaces (fetch (auth_request (authMode a) (authValues a))) msg.
Proof.
  intros Hfail a'. subst a'. unfold exec, outcome_of.
  destruct (fetch (auth_request (authMode a) (authValues a)))
    as [msg|status body] eqn:Hfetch.
  - rewrite (handleAuthSubmit_network _ _ _ Hfetch). simpl.
    repeat split. now exists msg.
  - assert (Hok : response_ok status = false).
    { destruct (response_ok status) eqn:E; [|reflexivity].
      apply response_ok_range in E. contradiction. }
    pose proof (handleAuthSubmit_refused _ _ _ _ Hfetch Hok) as E.
    cbv zeta in E. rewrite E. cbn [fst snd token user sessionStorage
      medicines analytics loading toast].
    repeat split. eexists. split; [reflexivity|].
    apply refused_message.
Qed.

Lemma failed_auth_keeps_session_witness :
  let fetch : Fetch :=
    fun _ =>
      Responded 401
        (JSON.stringify
           (JObj [("detail", JStr "Incorrect email or password")])) in
  let a := initial "2027-05-02" ∅ in
  toast (exec (handleAuthSubmit fetch) a) =
    Some (mkToast "Incorrect email or password" error).
Proof.
  intros fetch a.
  destruct (failed_auth_keeps_session fetch a) as
    (_ & _ & _ & _ & _ & _ & _ & msg & Htoast & _ & Hmsg).
  - simpl. lia.
  - rewrite Htoast.
    rewrite (Hmsg (JObj [("detail", JStr "Incorrect email or password")])
               eq_refl).
    reflexivity.
Defined.

(** C6 as stated fails on a network error: the notice carries the message
    of the rejected [fetch], which is neither a message of the server nor
    the generic one. *)
Lemma network_error_message_is_surfaced :
  toast (exec (handleAuthSubmit (fun _ => NetworkError "Failed to fetch"))
           (initial "2027-05-02" ∅))
  = Some (mkToast "Failed to fetch" error) /\
  "Failed to fetch" <> "Authentication failed".
Proof. split; [vm_compute; reflexivity | discriminate]. Qed.

(** ** Sign-out *)

Lemma after_render_token before w :
  token (app (after_render before w)) = token (app w).
Proof.
  unfold after_render. simpl.
  destruct (_ && _); reflexivity.
Qed.

Lemma fetchProfile_token fetch tok a :
  token (exec (fetchProfile fetch tok) a) = token a.
Proof.
  unfold fetchProfile. run_handler.
  destruct (fetchWithAuth fetch tok "/api/auth/me" no_options); reflexivity.
Qed.

Lemma fetchMedicines_token fetch tok a :
  token (exec (fetchMedicines fetch tok) a) = token a.
Proof.
  unfold fetchMedicines. run_handler.
  destruct (fetchWithAuth fetch tok "/api/medicines" no_options); reflexivity.
Qed.

Lemma fetchAnalytics_token fetch tok a :
  token (exec (fetchAnalytics fetch tok) a) = token a.
Proof.
  unfold fetchAnalytics. run_handler.
  destruct (fetchWithAuth fetch tok "/api/analytics/dashboard" no_options);
    reflexivity.
Qed.

Lemma settle_token k tok outcome a :
  token (exec (settle k tok outcome) a) = token a.
Proof.
  destruct k; simpl.
  - apply fetchProfile_token.
  - apply fetchMedicines_token.
  - apply fetchAnalytics_token.
Qed.

Lemma resolve_token b k outcome a :
  token (snd (resolve b k outcome a)) = token a.
Proof.
  unfold resolve. destruct (existsb _ _); [|reflexivity].
  pose proof (settle_token k (captured b) outcome a) as H.
  unfold exec in H.
  destruct (settle k (captured b) outcome a) as [[u|e] a1]; simpl in *.
  - exact H.
  - destruct (rejected b); [exact H|]. run_handler. exact H.
Qed.

Lemma handleCreateMedicine_token toISOString fetch a :
  token (exec (handleCreateMedicine toISOString fetch) a) = token a.
Proof.
  unfold handleCreateMedicine, fetchMedicines. run_handler.
  destruct (authenticated a); simpl; [|reflexivity].
  destruct (toISOString _); simpl; [|reflexivity].
  destruct (fetchWithAuth fetch (token a) "/api/medicines" (mkOptions _ _ _));
    simpl; [|reflexivity].
  destruct (fetchWithAuth fetch (token a) "/api/medicines" no_options);
    reflexivity.
Qed.

Lemma toast_timeout_token a : token (toast_timeout a) = token a.
Proof. unfold toast_timeout. destruct (timers a); reflexivity. Qed.

(** No event other than a submission of credentials, a sign-out or a reload
    writes the token. *)
Lemma handle_token toISOString e w :
  keeps_session e ->
  e <> EvSignOut ->
  token (app (handle toISOString e w)) = token (app w).
Proof.
  intros Hk Hs. destruct e; simpl in *; try contradiction; try reflexivity.
  - destruct (inflight w !! batch) as [b|]; [|reflexivity].
    pose proof (resolve_token b k outcome (app w)) as H.
    destruct (resolve b k outcome (app w)) as [b' a']. exact H.
  - apply handleCreateMedicine_token.
  - apply toast_timeout_token.
Qed.

Lemma step_stays_signed_out toISOString w e :
  keeps_session e ->
  token (app w) = Some (JStr "") ->
  token (app (step toISOString w e)) = Some (JStr "").
Proof.
  intros Hk Hw.
  destruct e; try contradiction; unfold step; rewrite after_render_token;
    first [ rewrite handle_token; [exact Hw | exact I | discriminate]
          | reflexivity ].
Qed.

Lemma run_stays_signed_out toISOString events : forall w,
  Forall keeps_session events ->
  token (app w) = Some (JStr "") ->
  token (app (run toISOString w events)) = Some (JStr "").
Proof.
  induction events as [|e events IH]; intros w Hall Hw; simpl.
  - exact Hw.
  - inversion Hall as [|? ? He Hrest]; subst.
    apply IH; [exact Hrest|].
    now apply step_stays_signed_out.
Qed.

(** C7, as the code has it: [signOut] completes in one step and leaves an
    empty token, no user, an empty medicine list, no analytics, no
    persisted record (other keys of the storage untouched) and an
    informational notice; the render that follows is unauthenticated, and
    so is every later one until credentials are submitted again or the page
    is loaded again. *)
Theorem signOut_clears_session
    (toISOString : string -> Completion string) (w : World) :
  let a := app w in
  let a' := exec signOut a in
  outcome_of signOut a = Normal tt /\
  token a' = Some (JStr "") /\
  user a' = Some JNull /\
  medicines a' = Some (JArr []) /\
  analytics a' = Some JNull /\
  sessionStorage a' !! AUTH_STORAGE_KEY = None /\
  (forall k, k <> AUTH_STORAGE_KEY ->
             sessionStorage a' !! k = sessionStorage a !! k) /\
  toast a' = Some (mkToast "You have signed out." info) /\
  authenticated a' = false /\
  forall events,
    Forall keeps_session events ->
    authenticated (app (run toISOString (step toISOString w EvSignOut) events))
    = false.
Proof.
  intros a a'. subst a a'.
  assert (Hstep : token (app (step toISOString w EvSignOut))
                  = Some (JStr "")).
  { unfold step. rewrite after_render_token. reflexivity. }
  unfold exec, outcome_of. rewrite signOut_state.
  cbn [fst snd token user medicines analytics sessionStorage toast].
  repeat split.
  - apply lookup_delete_eq.
  - intros k Hk. now apply lookup_delete_ne.
  - intros events Hall. unfold authenticated.
    rewrite run_stays_signed_out; [reflexivity | exact Hall | exact Hstep].
Qed.

Lemma signOut_clears_session_witness :
  let toISOString : string -> Completion string := fun d => Normal d in
  let profile := JObj [("full_name", JStr "Ada Lovelace")] in
  let login_response :=
    JSON.stringify (JObj [("access_token", JStr "t1"); ("user", profile)]) in
  let w :=
    run toISOString (mount "2027-05-02" ∅)
      [EvSetAuthMode (Some login);
       EvAuthSubmit (fun _ => Responded 200 login_response)] in
  authenticated (app w) = true /\
  inflight w = [warmup (Some (JStr "t1"))] /\
  authenticated
    (app (run toISOString (step toISOString w EvSignOut)
            [EvSearch "amox";
             EvResolve 0 KProfile (Responded 200 (JSON.stringify profile));
             EvToastTimeout]))
  = false.
Proof.
  intros toISOString profile login_response w.
  split; [vm_compute; reflexivity|]. split; [vm_compute; reflexivity|].
  refine (proj2 (proj2 (proj2 (proj2 (proj2 (proj2 (proj2 (proj2 (proj2
    (signOut_clears_session toISOString w)))))))))
    [EvSearch "amox";
     EvResolve 0 KProfile (Responded 200 (JSON.stringify profile));
     EvToastTimeout] _).
  repeat constructor.
Defined.

(** C7 as stated fails on a reachable run: log in, sign out, let the
    profile request of the closed session resolve, and load the page again.
    The response has written the record back, and the render after the
    reload is authenticated. *)
Lemma reload_after_late_profile_is_authenticated :
  let toISOString : string -> Completion string := fun d => Normal d in
  let profile := JObj [("full_name", JStr "Ada Lovelace")] in
  let login_response :=
    JSON.stringify (JObj [("access_token", JStr "t1"); ("user", profile)]) in
  let signed_out :=
    run toISOString (mount "2027-05-02" ∅)
      [EvSetAuthMode (Some login);
       EvAuthSubmit (fun _ => Responded 200 login_response);
       EvSignOut] in
  let later :=
    run toISOString signed_out
      [EvResolve 0 KProfile (Responded 200 (JSON.stringify profile));
       EvReload "2027-05-02"] in
  authenticated (app signed_out) = false /\
  sessionStorage (app signed_out) !! AUTH_STORAGE_KEY = None /\
  authenticated (app later) = true /\
  token (app later) = Some (JStr "t1").
Proof. repeat split; vm_compute; reflexivity. Qed.

(** ** Responses that arrive late *)

(** C8, as the code has it: the continuation of a request of [fetchData]
    never looks at the current session.  Whatever the token is when the
    response arrives (empty after a sign-out, or that of a later session),
    a successful response is applied: the profile is stored as the user and
    persisted together with the token the request was issued under, the
    list as the medicines, the snapshot as the analytics.  The token itself
    is not written. *)
Theorem late_response_is_applied
    (b : Batch) (k : Kind) (outcome : FetchOutcome) (a : App) (v : json) :
  existsb (kind_eqb k) (waiting b) = true ->
  fetchWithAuth (fun _ => outcome) (captured b) (endpoint k) no_options
    = Normal v ->
  let a' := snd (resolve b k outcome a) in
  token a' = token a /\
  match k with
  | KProfile =>
      user a' = Some v /\
      sessionStorage a' !! AUTH_STORAGE_KEY
        = Some (JSON_stringify [("token", captured b); ("user", Some v)])
  | KMedicines => medicines a' = Some v
  | KAnalytics => analytics a' = Some v
  end.
Proof.
  intros Hwait Hfetch a'. subst a'. split; [apply resolve_token|].
  unfold resolve. rewrite Hwait.
  destruct k; simpl in Hfetch |- *;
    unfold fetchProfile, fetchMedicines, fetchAnalytics; run_handler;
    rewrite Hfetch; simpl.
  - split; [reflexivity | apply lookup_insert_eq].
  - reflexivity.
  - reflexivity.
Qed.

Lemma late_response_is_applied_witness :
  let signed_out := exec signOut (initial "2027-05-02" ∅) in
  let b := mkBatch (Some (JStr "t1")) [KProfile; KMedicines; KAnalytics]
             false in
  let a' := snd (resolve b KMedicines (Responded 200 "[1]") signed_out) in
  token a' = Some (JStr "") /\ medicines a' = Some (JArr [JNum 1]).
Proof.
  intros signed_out b a'.
  apply (late_response_is_applied b KMedicines (Responded 200 "[1]")
           signed_out (JArr [JNum 1])); vm_compute; reflexivity.
Defined.

(** C8 as stated fails on a reachable run: log in as [t1], sign out, and
    let the profile request of the first session resolve.  The app is
    unauthenticated, yet the user is the profile of the old session and the
    persisted record is written again with the old token; a reload then
    restores that session. *)
Lemma profile_of_signed_out_session_is_applied :
  let toISOString : string -> Completion string := fun d => Normal d in
  let profile := JObj [("full_name", JStr "Ada Lovelace")] in
  let login_response :=
    JSON.stringify (JObj [("access_token", JStr "t1"); ("user", profile)]) in
  let w :=
    run toISOString (mount "2027-05-02" ∅)
      [EvSetAuthMode (Some login);
       EvAuthSubmit (fun _ => Responded 200 login_response);
       EvSignOut;
       EvResolve 0 KProfile (Responded 200 (JSON.stringify profile))] in
  authenticated (app w) = false /\
  user (app w) = Some profile /\
  sessionStorage (app w) !! AUTH_STORAGE_KEY
    = Some (JSON_stringify [("token", Some (JStr "t1"));
                            ("user", Some profile)]) /\
  token (app (step toISOString w (EvReload "2027-05-02")))
    = Some (JStr "t1").
Proof. repeat split; vm_compute; reflexivity. Qed.

(** ** The create form *)

(** C9, as the code has it: after a submission whose request and the
    refetch of the list both succeed, the ten fields the updater names are
    back to their defaults, and [unit] and [expiry_date] keep what the
    user entered. *)
Theorem create_resets_named_fields
    (toISOString : string -> Completion string) (fetch : Fetch) (a : App)
    (iso : string) (created items : json) :
  authenticated a = true ->
  toISOString (mf_expiry_date (medicineForm a)) = Normal iso ->
  fetchWithAuth fetch (token a) "/api/medicines"
    (mkOptions (Some "POST")
       (Some (JSON.stringify (draft_json (medicineForm a) iso))) None)
    = Normal created ->
  fetchWithAuth fetch (token a) "/api/medicines" no_options = Normal items ->
  let before := medicineForm a in
  let after := medicineForm (exec (handleCreateMedicine toISOString fetch) a) in
  mf_name after = "" /\
  mf_generic_name after = "" /\
  mf_category after = "" /\
  mf_manufacturer after = "" /\
  mf_quantity after = 0 /\
  mf_reorder_level after = 10 /\
  mf_unit_price after = 0 /\
  mf_batch_number after = "" /\
  mf_location after = "" /\
  mf_description after = "" /\
  mf_unit after = mf_unit before /\
  mf_expiry_date after = mf_expiry_date before.
Proof.
  intros Hauth Hiso Hpost Hget before after. subst before after.
  unfold handleCreateMedicine, fetchMedicines. run_handler.
  rewrite Hauth. simpl. rewrite Hiso. simpl. rewrite Hpost. simpl.
  rewrite Hget. simpl. repeat split.
Qed.

Lemma create_resets_named_fields_witness :
  let fetch : Fetch :=
    fun r => match req_method r with
             | Some _ => Responded 201 "{}"
             | None => Responded 200 "[]"
             end in
  let a :=
    with_medicineForm
      (set_field (InUnit "boxes")
         (set_field (InName "Amoxicillin") (initial_form "2027-05-02")))
      (with_token (Some (JStr "t1")) (initial "2027-05-02" ∅)) in
  let after :=
    medicineForm (exec (handleCreateMedicine (fun d => Normal d) fetch) a) in
  mf_name after = "" /\ mf_unit after = "boxes".
Proof.
  intros fetch a after.
  pose proof (create_resets_named_fields (fun d => Normal d) fetch a
                "2027-05-02" (JObj []) (JArr [])) as H.
  destruct H as (Hname & _ & _ & _ & _ & _ & _ & _ & _ & _ & Hunit & _);
    try (vm_compute; reflexivity).
  split; [exact Hname | exact Hunit].
Defined.

(** C9 as stated fails: a unit and an expiry date entered by the user
    survive a successful submission; they are not put back to ["units"]
    and to the date six months ahead. *)
Lemma unit_and_expiry_survive_create :
  let fetch : Fetch :=
    fun r => match req_method r with
             | Some _ => Responded 201 "{}"
             | None => Responded 200 "[]"
             end in
  let a :=
    with_medicineForm
      (set_field (InExpiryDate "2030-01-01")
         (set_field (InUnit "boxes") (initial_form "2027-05-02")))
      (with_token (Some (JStr "t1")) (initial "2027-05-02" ∅)) in
  let a' := exec (handleCreateMedicine (fun d => Normal d) fetch) a in
  toast a' = Some (mkToast "Medicine added" info) /\
  mf_unit (medicineForm a') = "boxes" /\
  mf_unit (initial_form "2027-05-02") = "units" /\
  mf_expiry_date (medicineForm a') = "2030-01-01" /\
  mf_expiry_date (initial_form "2027-05-02") = "2027-05-02".
Proof. repeat split; vm_compute; reflexivity. Qed.

(** ** The medicine filter *)

Lemma append_cons (c : ascii) (a b : string) :
  String c a ++ b = String c (a ++ b).
Proof. reflexivity. Qed.

Lemma append_nil (b : string) : "" ++ b = b.
Proof. reflexivity. Qed.

Lemma prefix_spec (t s : string) :
  String.prefix t s = true <-> exists post, s = t ++ post.
Proof.
  revert s. induction t as [|c t IH]; intros s.
  - split; [intros _; now exists s | intros _; destruct s; reflexivity].
  - destruct s as [|d s]; simpl.
    + split; [discriminate | intros [post H]].
      rewrite append_cons in H. discriminate.
    + destruct (ascii_dec c d) as [->|Hne].
      * rewrite IH. split; intros [post H]; exists post.
        -- now rewrite append_cons, H.
        -- rewrite append_cons in H. now injection H.
      * split; [discriminate|].
        intros [post H]. rewrite append_cons in H.
        injection H as H1 _. congruence.
Qed.

Lemma includes_nil (t : string) :
  includes "" t = String.prefix t "" || false.
Proof. reflexivity. Qed.

Lemma includes_cons (c : ascii) (s t : string) :
  includes (String c s) t = String.prefix t (String c s) || includes s t.
Proof. reflexivity. Qed.

Lemma includes_spec (s t : string) :
  includes s t = true <-> exists pre post, s = pre ++ t ++ post.
Proof.
  induction s as [|c s IH];
    [rewrite includes_nil | rewrite includes_cons];
    rewrite orb_true_iff, prefix_spec.
  - split.
    + intros [[post H]|H]; [|discriminate]. now exists "", post.
    + intros (pre & post & H). left.
      destruct pre; [now exists post|].
      rewrite append_cons in H. discriminate.
  - rewrite IH. split.
    + intros [[post H]|(pre & post & H)].
      * now exists "", post.
      * exists (String c pre), post. now rewrite append_cons, H.
    + intros (pre & post & H). destruct pre as [|d pre].
      * left. now exists post.
      * right. rewrite append_cons in H. injection H as _ H.
        now exists pre, post.
Qed.

Lemma includes_empty (s : string) : includes s "" = true.
Proof. destruct s; reflexivity. Qed.

Lemma fold_ascii_app (a b : string) :
  fold_ascii (a ++ b) = fold_ascii a ++ fold_ascii b.
Proof.
  induction a as [|c a IH]; [reflexivity|].
  rewrite append_cons. simpl. now rewrite append_cons, IH.
Qed.

Lemma fold_ascii_split (s x y : string) :
  fold_ascii s = x ++ y ->
  exists a b, s = a ++ b /\ fold_ascii a = x /\ fold_ascii b = y.
Proof.
  revert s. induction x as [|c x IH]; intros s H.
  - now exists "", s.
  - rewrite append_cons in H.
    destruct s as [|d s]; [discriminate|]. simpl in H.
    injection H as Hc Hs. destruct (IH s Hs) as (a & b & -> & Ha & Hb).
    exists (String d a), b. rewrite append_cons. simpl.
    now rewrite Hc, Ha.
Qed.

Lemma is_ascii_app (a b : string) :
  is_ascii (a ++ b) = is_ascii a && is_ascii b.
Proof.
  induction a as [|c a IH]; [reflexivity|].
  rewrite append_cons. simpl. now rewrite IH, andb_assoc.
Qed.

(** *** Letters *)

Lemma in_all_ascii (c : ascii) : In c all_ascii.
Proof.
  rewrite <- (ascii_nat_embedding c). apply in_map. apply in_seq.
  pose proof (nat_ascii_bounded c). lia.
Qed.

(** Over the 256 characters: two characters are the same letter exactly
    when making them small gives the same character. *)
Lemma same_letter_table :
  forallb
    (fun c =>
       forallb
         (fun d =>
            Bool.eqb (bool_decide (same_letter c d))
              (Ascii.eqb (lower_ascii c) (lower_ascii d)))
         all_ascii)
    all_ascii = true.
Proof. vm_compute. reflexivity. Qed.

Lemma same_letter_lower (c d : ascii) :
  same_letter c d <-> lower_ascii c = lower_ascii d.
Proof.
  pose proof same_letter_table as H.
  rewrite forallb_forall in H. specialize (H c (in_all_ascii c)).
  rewrite forallb_forall in H. specialize (H d (in_all_ascii d)).
  apply Bool.eqb_prop in H.
  rewrite <- (bool_decide_eq_true (same_letter c d)), H.
  apply Ascii.eqb_eq.
Qed.

Lemma ci_equal_fold (a : string) : forall b,
  ci_equal a b <-> fold_ascii a = fold_ascii b.
Proof.
  induction a as [|c a IH]; intros [|d b]; simpl;
    try (split; [contradiction | discriminate]).
  - split; auto.
  - rewrite same_letter_lower, IH. split.
    + now intros [-> ->].
    + intros [= H1 H2]. auto.
Qed.

(** On two strings, the test of the filter after making the letters small
    is the occurrence of the query up to case. *)
Lemma includes_fold_spec (s q : string) :
  includes (fold_ascii s) (fold_ascii q) = true <-> ci_substring q s.
Proof.
  rewrite includes_spec. unfold ci_substring. split.
  - intros (pre & post & H).
    apply fold_ascii_split in H as (a & rest & -> & Ha & Hrest).
    apply fold_ascii_split in Hrest as (mid & c & -> & Hmid & Hc).
    exists a, mid, c. split; [reflexivity|]. now apply ci_equal_fold.
  - intros (pre & mid & post & -> & Hmid). apply ci_equal_fold in Hmid.
    exists (fold_ascii pre), (fold_ascii post).
    now rewrite !fold_ascii_app, Hmid.
Qed.

Lemma ci_equal_refl (a : string) : ci_equal a a.
Proof. now apply ci_equal_fold. Qed.

(** A text contains up to case what it contains. *)
Lemma includes_ci_substring (s q : string) :
  includes s q = true -> ci_substring q s.
Proof.
  rewrite includes_spec. intros (pre & post & ->).
  exists pre, q, post. split; [reflexivity | apply ci_equal_refl].
Qed.

(** The boolean counterparts of [field_contains] and [matches]. *)
Lemma field_contains_dec (q : string) (v : jsval) :
  {field_contains q v} + {~ field_contains q v}.
Proof.
  destruct v as [[| | |s| |]|];
    try (right; intros (s' & H & _); discriminate).
  destruct (includes (fold_ascii s) (fold_ascii q)) eqn:E.
  - left. exists s. split; [reflexivity | now apply includes_fold_spec].
  - right. intros (s' & H & Hsub). injection H as <-.
    apply includes_fold_spec in Hsub. congruence.
Defined.

#[global] Instance matches_decision (q : string) (med : json)
  : Decision (matches q med).
Proof.
  unfold matches.
  destruct (field_contains_dec q (field med "name")); [left; tauto|].
  destruct (field_contains_dec q (field med "generic_name"));
    [left; tauto|].
  destruct (field_contains_dec q (field med "category")); [left; tauto|].
  right; tauto.
Defined.

Lemma field_tests_dec (toLowerCase : string -> string) (q : string)
    (v : jsval) :
  {field_tests toLowerCase q v} + {~ field_tests toLowerCase q v}.
Proof.
  destruct v as [[| | |s| |]|];
    try (right; intros (s' & H & _); discriminate).
  destruct (includes (toLowerCase s) (toLowerCase q)) eqn:E.
  - left. now exists s.
  - right. intros (s' & H & Hsub). injection H as <-. congruence.
Defined.

#[global] Instance hits_decision (toLowerCase : string -> string)
    (q : string) (med : json) : Decision (hits toLowerCase q med).
Proof.
  unfold hits.
  destruct (field_tests_dec toLowerCase q (field med "name"));
    [left; tauto|].
  destruct (field_tests_dec toLowerCase q (field med "generic_name"));
    [left; tauto|].
  destruct (field_tests_dec toLowerCase q (field med "category"));
    [left; tauto|].
  right; tauto.
Defined.

Lemma is_string_dec (v : jsval) : {is_string v} + {~ is_string v}.
Proof.
  destruct v as [[| | |s| |]|];
    try (right; intros (s' & H); discriminate).
  left. now exists s.
Defined.

(** Reading a string field and testing it. *)
Lemma field_matches_string (toLowerCase : string -> string) (med : json)
    (k s q : string) :
  field med k = Some (JStr s) ->
  field_matches toLowerCase med k q
  = Normal (includes (toLowerCase s) (toLowerCase q)).
Proof.
  unfold field, get_prop_opt, field_matches, get_prop.
  destruct med; try discriminate. intros ->. reflexivity.
Qed.

(** Reading a field that is not a string throws. *)
Lemma field_matches_throws (toLowerCase : string -> string) (med : json)
    (k q : string) :
  ~ is_string (field med k) ->
  exists e, field_matches toLowerCase med k q = Throw e.
Proof.
  unfold field, get_prop_opt, field_matches, get_prop, is_string.
  intros H. destruct med; simpl; eauto.
  destruct (assoc k members) as [[| | |s| |]|]; simpl; eauto.
  exfalso. apply H. now exists s.
Qed.

Lemma field_matches_total (toLowerCase : string -> string) (med : json)
    (k q : string) :
  is_string (field med k) ->
  field_matches toLowerCase med k q
  = Normal (if field_tests_dec toLowerCase q (field med k)
            then true else false).
Proof.
  intros [s Hs]. rewrite (field_matches_string _ _ _ _ _ Hs).
  destruct (field_tests_dec toLowerCase q (field med k)) as [Hc|Hc];
    rewrite Hs in Hc.
  - destruct Hc as (s' & E & Hsub). injection E as <-. now rewrite Hsub.
  - destruct (includes (toLowerCase s) (toLowerCase q)) eqn:E;
      [|reflexivity].
    exfalso. apply Hc. now exists s.
Qed.

(** The callback on one medicine: it throws exactly on the medicines that
    block the search, and otherwise answers whether the test succeeds on
    one of the fields. *)
Lemma medicine_matches_cases (toLowerCase : string -> string) (q : string)
    (med : json) :
  (blocks toLowerCase q med /\
   exists e, medicine_matches toLowerCase q med = Throw e) \/
  (~ blocks toLowerCase q med /\
   medicine_matches toLowerCase q med
   = Normal (bool_decide (hits toLowerCase q med))).
Proof.
  unfold medicine_matches, orelse, blocks, hits.
  destruct (is_string_dec (field med "name")) as [Hn|Hn].
  2:{ left. split; [tauto|].
      destruct (field_matches_throws toLowerCase med "name" q Hn) as [e ->].
      eauto. }
  rewrite (field_matches_total _ _ _ _ Hn). simpl.
  destruct (field_tests_dec toLowerCase q (field med "name")) as [Cn|Cn].
  { right. split; [tauto|]. rewrite bool_decide_eq_true_2; tauto. }
  destruct (is_string_dec (field med "generic_name")) as [Hg|Hg].
  2:{ left. split; [tauto|].
      destruct (field_matches_throws toLowerCase med "generic_name" q Hg)
        as [e ->].
      eauto. }
  rewrite (field_matches_total _ _ _ _ Hg). simpl.
  destruct (field_tests_dec toLowerCase q (field med "generic_name"))
    as [Cg|Cg].
  { right. split; [tauto|]. rewrite bool_decide_eq_true_2; tauto. }
  destruct (is_string_dec (field med "category")) as [Hc|Hc].
  2:{ left. split; [tauto|].
      destruct (field_matches_throws toLowerCase med "category" q Hc)
        as [e ->].
      eauto. }
  rewrite (field_matches_total _ _ _ _ Hc). simpl.
  right. split; [tauto|].
  destruct (field_tests_dec toLowerCase q (field med "category")) as [Cc|Cc].
  - rewrite bool_decide_eq_true_2; tauto.
  - rewrite bool_decide_eq_false_2; tauto.
Qed.

Lemma searchable_not_blocks (toLowerCase : string -> string) (q : string)
    (med : json) :
  searchable med -> ~ blocks toLowerCase q med.
Proof. unfold searchable, blocks. tauto. Qed.

Lemma searchable_ascii_searchable (med : json) :
  searchable_ascii med -> searchable med.
Proof.
  intros ((n & Hn & _) & (g & Hg & _) & (c & Hc & _)).
  repeat split; eexists; eassumption.
Qed.

(** The filter on a list none of whose medicines blocks the search. *)
Lemma filteredMedicines_total (toLowerCase : string -> string) (q : string)
    (M : list json) :
  Forall (fun med => ~ blocks toLowerCase q med) M ->
  filteredMedicines toLowerCase M q
  = Normal (filter (hits toLowerCase q) M).
Proof.
  unfold filteredMedicines.
  induction M as [|med M IH]; intros H; [reflexivity|].
  inversion H as [|? ? Hmed Hrest]; subst. simpl.
  destruct (medicine_matches_cases toLowerCase q med) as [[Hb _]|[_ ->]];
    [contradiction|].
  simpl. rewrite (IH Hrest). simpl.
  destruct (decide (hits toLowerCase q med)) as [Hm|Hm].
  - rewrite bool_decide_eq_true_2 by exact Hm.
    now rewrite filter_cons_True.
  - rewrite bool_decide_eq_false_2 by exact Hm.
    now rewrite filter_cons_False.
Qed.

Lemma filteredMedicines_searchable (toLowerCase : string -> string)
    (q : string) (M : list json) :
  Forall searchable M ->
  filteredMedicines toLowerCase M q
  = Normal (filter (hits toLowerCase q) M).
Proof.
  intros Hs. apply filteredMedicines_total.
  eapply Forall_impl; [exact Hs|].
  intros med. apply searchable_not_blocks.
Qed.

Lemma filteredMedicines_throws_iff (toLowerCase : string -> string)
    (q : string) (M : list json) :
  (exists e, filteredMedicines toLowerCase M q = Throw e) <->
  Exists (blocks toLowerCase q) M.
Proof.
  unfold filteredMedicines.
  induction M as [|med M IH]; simpl.
  - split; [intros [e H]; discriminate | intros H; inversion H].
  - rewrite Exists_cons.
    destruct (medicine_matches_cases toLowerCase q med)
      as [[Hb [e ->]]|[Hb ->]]; simpl.
    + split; eauto.
    + destruct (array_filter (medicine_matches toLowerCase q) M)
        as [R|e'] eqn:E; simpl.
      * split; [intros [e H]; discriminate|].
        intros [H|H]; [contradiction|].
        apply IH in H as [e H]. discriminate.
      * split; [intros _; right; apply IH; eauto | eauto].
Qed.

Lemma filter_all {A} (P : A -> Prop) `{!forall x, Decision (P x)}
    (l : list A) :
  Forall P l -> filter P l = l.
Proof.
  induction 1 as [|x l Hx _ IH]; [reflexivity|].
  rewrite filter_cons_True by exact Hx. now rewrite IH.
Qed.

Lemma filter_agree {A} (P Q : A -> Prop) `{!forall x, Decision (P x)}
    `{!forall x, Decision (Q x)} (l : list A) :
  Forall (fun x => P x <-> Q x) l -> filter P l = filter Q l.
Proof.
  induction 1 as [|x l Hx _ IH]; [reflexivity|].
  destruct (decide (P x)) as [HP|HP].
  - rewrite (filter_cons_True P) by exact HP.
    rewrite (filter_cons_True Q) by (now apply Hx). now rewrite IH.
  - rewrite (filter_cons_False P) by exact HP.
    rewrite (filter_cons_False Q) by (now rewrite <- Hx). exact IH.
Qed.

(** With the empty query the test succeeds on every string. *)
Lemma searchable_hits_empty (toLowerCase : string -> string) (med : json) :
  toLowerCase "" = "" -> searchable med -> hits toLowerCase "" med.
Proof.
  intros Hempty [[s Hs] _]. left. exists s. split; [exact Hs|].
  rewrite Hempty. apply includes_empty.
Qed.

(** On texts written in ASCII, the test of the filter is the occurrence of
    the query up to case. *)
Lemma field_tests_contains (toLowerCase : string -> string) (q : string)
    (v : jsval) :
  lowers_ascii toLowerCase ->
  is_ascii q = true ->
  ascii_string v ->
  field_tests toLowerCase q v <-> field_contains q v.
Proof.
  intros Hlow Hq (s & -> & Hs). unfold field_tests, field_contains.
  split; intros (s' & [= <-] & H); exists s; (split; [reflexivity|]).
  - apply includes_fold_spec. now rewrite <- (Hlow s Hs), <- (Hlow q Hq).
  - apply includes_fold_spec in H. now rewrite (Hlow s Hs), (Hlow q Hq).
Qed.

Lemma hits_matches (toLowerCase : string -> string) (q : string)
    (med : json) :
  lowers_ascii toLowerCase ->
  is_ascii q = true ->
  searchable_ascii med ->
  hits toLowerCase q med <-> matches q med.
Proof.
  intros Hlow Hq (Hn & Hg & Hc). unfold hits, matches.
  rewrite (field_tests_contains _ _ _ Hlow Hq Hn),
    (field_tests_contains _ _ _ Hlow Hq Hg),
    (field_tests_contains _ _ _ Hlow Hq Hc).
  reflexivity.
Qed.

(** The filter on medicines written in ASCII. *)
Lemma filteredMedicines_ascii (toLowerCase : string -> string) (q : string)
    (M : list json) :
  lowers_ascii toLowerCase ->
  is_ascii q = true ->
  Forall searchable_ascii M ->
  filteredMedicines toLowerCase M q = Normal (filter (matches q) M).
Proof.
  intros Hlow Hq Hs.
  rewrite (filteredMedicines_searchable toLowerCase q M).
  - f_equal. apply filter_agree.
    eapply Forall_impl; [exact Hs|].
    intros med. now apply hits_matches.
  - eapply Forall_impl; [exact Hs|]. apply searchable_ascii_searchable.
Qed.

Lemma toLowerCase_basic_ascii : lowers_ascii toLowerCase_basic.
Proof. intros s Hs. unfold toLowerCase_basic. now rewrite Hs. Qed.

(** C3, as the code has it: on medicines whose three searchable fields
    are strings, the filter with the empty query returns the list itself.
    When moreover the fields and the query are written in ASCII, it
    returns exactly the medicines one of whose name, generic name or
    category contains the query up to the case of the letters, as many
    times and in the order in which they stand in the list. *)
Theorem filteredMedicines_spec (toLowerCase : string -> string)
    (M : list json) (q : string) :
  lowers_ascii toLowerCase ->
  (Forall searchable M -> filteredMedicines toLowerCase M "" = Normal M) /\
  (Forall searchable_ascii M ->
   is_ascii q = true ->
   filteredMedicines toLowerCase M q = Normal (filter (matches q) M) /\
   filter (matches q) M `sublist_of` M /\
   (forall med, med ∈ filter (matches q) M <-> med ∈ M /\ matches q med)).
Proof.
  intros Hlow. split.
  - intros Hs. rewrite (filteredMedicines_searchable toLowerCase "" M Hs).
    f_equal. apply filter_all. eapply Forall_impl; [exact Hs|].
    intros med. apply searchable_hits_empty. now apply Hlow.
  - intros Hs Hq. split; [|split].
    + now apply filteredMedicines_ascii.
    + apply sublist_filter.
    + intros med. rewrite list_elem_of_filter. tauto.
Qed.

Lemma filteredMedicines_spec_witness :
  let amox := JObj [("name", JStr "Amoxicillin 500mg");
                    ("generic_name", JStr "Amoxicillin");
                    ("category", JStr "Antibiotic")] in
  let para := JObj [("name", JStr "Calpol");
                    ("generic_name", JStr "Paracetamol");
                    ("category", JStr "Analgesic")] in
  filteredMedicines toLowerCase_basic [amox; para] "BIOT" = Normal [amox] /\
  filter (matches "BIOT") [amox; para] = [amox].
Proof.
  intros amox para.
  assert (Hfilter : filter (matches "BIOT") [amox; para] = [amox])
    by (vm_compute; reflexivity).
  split; [|exact Hfilter]. rewrite <- Hfilter.
  refine (proj1 (proj2 (filteredMedicines_spec toLowerCase_basic
                          [amox; para] "BIOT" toLowerCase_basic_ascii) _ _)).
  - repeat constructor; eexists; split; reflexivity.
  - reflexivity.
Defined.

(** C3 as stated fails outside ASCII: the name of the medicine is a Greek
    word that ends with a capital sigma, and the query is the capital
    sigma.  The name contains the query as it is written, yet the filter
    drops the medicine: at the end of a word the capital sigma is made the
    final sigma, and alone it is made the sigma. *)
Lemma final_sigma_hides_a_match :
  let capital (n : N) := String (ascii_of_N 206) (String (ascii_of_N n) "") in
  let small (n : N) := String (ascii_of_N 207) (String (ascii_of_N n) "") in
  let odos :=
    capital 159%N ++ capital 148%N ++ capital 159%N ++ capital 163%N in
  let sigma := capital 163%N in
  let med := JObj [("name", JStr odos); ("generic_name", JStr "");
                   ("category", JStr "")] in
  searchable med /\
  includes odos sigma = true /\
  matches sigma med /\
  toLowerCase_basic odos
  = String (ascii_of_N 206) (String (ascii_of_N 191) "")
    ++ String (ascii_of_N 206) (String (ascii_of_N 180) "")
    ++ String (ascii_of_N 206) (String (ascii_of_N 191) "")
    ++ small 130%N /\
  toLowerCase_basic sigma = small 131%N /\
  filteredMedicines toLowerCase_basic [med] sigma = Normal [].
Proof.
  intros capital small odos sigma med.
  split; [repeat split; eexists; reflexivity|].
  split; [vm_compute; reflexivity|].
  split; [left; exists odos; split;
          [reflexivity | apply includes_ci_substring; vm_compute; reflexivity]|].
  repeat split; vm_compute; reflexivity.
Qed.

(** C10, as the code has it: the filter throws exactly when some medicine
    blocks the search, that is when the callback reads a field that is not
    a string: the name; the generic name when the test fails on the name;
    the category when it fails on both.  A missing field behind a field on
    which the test succeeds is not read.  The filter returns a list when
    the three fields of every medicine are strings. *)
Theorem filteredMedicines_partial (toLowerCase : string -> string)
    (M : list json) (q : string) :
  ((exists e, filteredMedicines toLowerCase M q = Throw e) <->
   Exists (blocks toLowerCase q) M) /\
  (Forall searchable M ->
   exists R, filteredMedicines toLowerCase M q = Normal R).
Proof.
  split.
  - apply filteredMedicines_throws_iff.
  - intros Hs. exists (filter (hits toLowerCase q) M).
    now apply filteredMedicines_searchable.
Qed.

Lemma filteredMedicines_partial_witness :
  exists R,
    filteredMedicines toLowerCase_basic
      [JObj [("name", JStr "Calpol"); ("generic_name", JStr "Paracetamol");
             ("category", JStr "Analgesic")]] "cal"
    = Normal R.
Proof.
  refine (proj2 (filteredMedicines_partial toLowerCase_basic _ "cal") _).
  repeat constructor; eexists; reflexivity.
Defined.

(** C10 as stated fails: a medicine whose generic name is [null] and whose
    category is absent passes the filter without an exception when its
    name contains the query, since [||] stops at the first true operand. *)
Lemma missing_field_behind_a_match_is_not_read :
  let med := JObj [("name", JStr "Aspirin"); ("generic_name", JNull)] in
  field med "generic_name" = Some JNull /\
  field med "category" = None /\
  filteredMedicines toLowerCase_basic [med] "asp" = Normal [med].
Proof. repeat split. Qed.

(** ** JSON texts *)

(** Induction on a value with the hypothesis on the items of an array and
    on the values of an object. *)
Lemma json_induction (P : json -> Prop) :
  P JNull ->
  (forall b, P (JBool b)) ->
  (forall n, P (JNum n)) ->
  (forall s, P (JStr s)) ->
  (forall items, Forall P items -> P (JArr items)) ->
  (forall members, Forall (fun kv => P (snd kv)) members ->
                   P (JObj members)) ->
  forall v, P v.
Proof.
  intros Hnull Hbool Hnum Hstr Harr Hobj.
  fix IH 1. intros [| b | n | s | items | members].
  - exact Hnull.
  - apply Hbool.
  - apply Hnum.
  - apply Hstr.
  - apply Harr. induction items as [|x items IHitems]; constructor.
    + apply IH.
    + exact IHitems.
  - apply Hobj. induction members as [|[k x] members IHm]; constructor.
    + apply IH.
    + exact IHm.
Qed.

(** *** Strings *)

Lemma parse_escape_char (c : ascii) (tail : string) :
  JSON.parse_string_body (JSON.escape_char c ++ tail)
  = JSON.cons_char c (JSON.parse_string_body tail).
Proof.
  destruct c as [[] [] [] [] [] [] [] []]; reflexivity.
Qed.

Lemma append_assoc (a b c : string) : (a ++ b) ++ c = a ++ (b ++ c).
Proof.
  induction a as [|x a IH]; [reflexivity|].
  rewrite !append_cons. now rewrite IH.
Qed.

Lemma append_empty_r (a : string) : a ++ "" = a.
Proof.
  induction a as [|x a IH]; [reflexivity|].
  rewrite append_cons. now rewrite IH.
Qed.

Lemma parse_escape_string (s rest : string) :
  JSON.parse_string_body
    (JSON.escape_string s ++ String JSON.dquote rest)
  = Some (s, rest).
Proof.
  induction s as [|c s IH].
  - reflexivity.
  - change (JSON.escape_string (String c s))
      with (JSON.escape_char c ++ JSON.escape_string s).
    rewrite append_assoc, parse_escape_char, IH. reflexivity.
Qed.

Lemma quote_unfold (s : string) (rest : string) :
  JSON.quote s ++ rest
  = String JSON.dquote (JSON.escape_string s ++ String JSON.dquote rest).
Proof.
  unfold JSON.quote. rewrite append_cons, append_assoc. reflexivity.
Qed.

(** *** Numbers *)

Lemma parse_digits_delimited (rest : string) :
  delimited rest -> JSON.parse_digits rest = (Decimal.Nil, rest).
Proof.
  destruct rest as [|c rest]; [reflexivity|].
  intros [->|[->| ->]]; reflexivity.
Qed.

Lemma continues_number_delimited (rest : string) :
  delimited rest -> JSON.continues_number rest = false.
Proof.
  destruct rest as [|c rest]; [reflexivity|].
  intros [->|[->| ->]]; reflexivity.
Qed.

Lemma parse_digits_app (d : Decimal.uint) (rest : string) :
  delimited rest ->
  JSON.parse_digits (NilEmpty.string_of_uint d ++ rest) = (d, rest).
Proof.
  intros Hrest.
  induction d; simpl NilEmpty.string_of_uint;
    rewrite ?append_cons; simpl JSON.parse_digits; rewrite ?IHd;
    try reflexivity.
  rewrite append_nil. now apply parse_digits_delimited.
Qed.

(** The digits of a positive number do not start with a zero. *)
Lemma to_uint_no_leading_zero (p : positive) (d : Decimal.uint) :
  Pos.to_uint p <> Decimal.D0 d.
Proof.
  intros H.
  assert (Hnorm : Decimal.unorm (Pos.to_uint p) = Pos.to_uint p).
  { rewrite <- (DecimalPos.Unsigned.to_of (Pos.to_uint p)).
    now rewrite DecimalPos.Unsigned.of_to. }
  rewrite H in Hnorm. rewrite DecimalFacts.unorm_D0 in Hnorm.
  destruct (Decimal.uint_eq_dec d Decimal.Nil) as [->|Hd].
  - apply (DecimalPos.Unsigned.to_uint_nonzero p). exact H.
  - pose proof (DecimalFacts.nb_digits_unorm d Hd) as Hle.
    rewrite Hnorm in Hle. simpl in Hle. lia.
Qed.

Lemma parse_nat_pos (p : positive) (rest : string) :
  delimited rest ->
  Z.pos p <= JSON.max_safe_integer ->
  JSON.parse_nat (NilEmpty.string_of_uint (Pos.to_uint p) ++ rest)
  = Some (Z.pos p, rest).
Proof.
  intros Hrest Hsafe. unfold JSON.parse_nat.
  rewrite (parse_digits_app _ _ Hrest).
  rewrite (continues_number_delimited _ Hrest).
  assert (Hval : Z.of_uint (Pos.to_uint p) = Z.pos p).
  { unfold Z.of_uint. now rewrite DecimalPos.Unsigned.of_to. }
  apply Z.leb_le in Hsafe.
  pose proof (DecimalPos.Unsigned.to_uint_nonnil p) as Hnil.
  pose proof (to_uint_no_leading_zero p) as Hlead.
  destruct (Pos.to_uint p) as [| d | d | d | d | d | d | d | d | d | d];
    try congruence; rewrite Hval, Hsafe; reflexivity.
Qed.

Lemma string_of_uint_pos (p : positive) :
  NilZero.string_of_uint (Pos.to_uint p)
  = NilEmpty.string_of_uint (Pos.to_uint p).
Proof.
  pose proof (DecimalPos.Unsigned.to_uint_nonnil p) as Hnil.
  unfold NilZero.string_of_uint.
  destruct (Pos.to_uint p); congruence.
Qed.

Lemma string_of_uint_head (d : Decimal.uint) :
  d <> Decimal.Nil ->
  exists c r, NilEmpty.string_of_uint d = String c r /\
              JSON.digit_of c <> None.
Proof.
  destruct d; intros H; try congruence; simpl; eauto.
Qed.

Lemma parse_number_text (n : Z) (rest : string) :
  delimited rest ->
  - JSON.max_safe_integer <= n <= JSON.max_safe_integer ->
  JSON.parse_number (string_of_Z n ++ rest) = Some (n, rest).
Proof.
  intros Hrest Hsafe. unfold string_of_Z.
  destruct n as [|p|p]; simpl Z.to_int; simpl NilZero.string_of_int.
  - cbn. destruct rest as [|c rest]; [reflexivity|].
    destruct Hrest as [->|[->| ->]]; reflexivity.
  - rewrite string_of_uint_pos.
    pose proof (parse_nat_pos p rest Hrest ltac:(lia)) as Hnat.
    destruct (string_of_uint_head (Pos.to_uint p)
                (DecimalPos.Unsigned.to_uint_nonnil p)) as (c & r & E & Hc).
    rewrite E in Hnat |- *. rewrite append_cons in Hnat |- *.
    unfold JSON.parse_number.
    destruct c as [[] [] [] [] [] [] [] []];
      try (exfalso; apply Hc; reflexivity); exact Hnat.
  - rewrite string_of_uint_pos. rewrite append_cons.
    unfold JSON.parse_number.
    rewrite (parse_nat_pos p rest Hrest ltac:(lia)).
    reflexivity.
Qed.

Lemma string_of_Z_head (n : Z) :
  exists c r, string_of_Z n = String c r /\ number_head c = true.
Proof.
  unfold string_of_Z.
  destruct n as [|p|p]; simpl Z.to_int; simpl NilZero.string_of_int.
  - now exists "0"%char, "".
  - rewrite string_of_uint_pos.
    destruct (string_of_uint_head (Pos.to_uint p)
                (DecimalPos.Unsigned.to_uint_nonnil p)) as (c & r & E & Hc).
    exists c, r. split; [exact E|]. unfold number_head.
    destruct (JSON.digit_of c); [reflexivity | congruence].
  - now exists "-"%char, (NilZero.string_of_uint (Pos.to_uint p)).
Qed.

Lemma parse_value_number_head (fuel : nat) (c : ascii) (r : string) :
  number_head c = true ->
  JSON.parse_value (S fuel) (String c r)
  = option_map (fun nr => (JNum (fst nr), snd nr))
               (JSON.parse_number (String c r)).
Proof.
  destruct c as [[] [] [] [] [] [] [] []]; intros H;
    try discriminate H; reflexivity.
Qed.

Lemma parse_value_number (fuel : nat) (n : Z) (rest : string) :
  delimited rest ->
  - JSON.max_safe_integer <= n <= JSON.max_safe_integer ->
  JSON.parse_value (S fuel) (string_of_Z n ++ rest) = Some (JNum n, rest).
Proof.
  intros Hrest Hsafe.
  pose proof (parse_number_text n rest Hrest Hsafe) as Hnum.
  destruct (string_of_Z_head n) as (c & r & E & Hc).
  rewrite E in Hnum |- *. rewrite append_cons in Hnum |- *.
  rewrite (parse_value_number_head _ _ _ Hc), Hnum. reflexivity.
Qed.

(** *** Values *)

Lemma stringify_head (v : json) :
  exists c r, JSON.stringify v = String c r /\ value_head c = true.
Proof.
  destruct v as [| [] | n | s | items | members];
    try (eexists _, _; split; [reflexivity | reflexivity]).
  destruct (string_of_Z_head n) as (c & r & E & Hc).
  exists c, r. split; [exact E|]. unfold value_head. now rewrite Hc.
Qed.

Lemma parse_value_string (fuel : nat) (s rest : string) :
  JSON.parse_value (S fuel) (JSON.quote s ++ rest) = Some (JStr s, rest).
Proof.
  rewrite quote_unfold.
  change (JSON.parse_value (S fuel) (String JSON.dquote ?r))
    with (option_map (fun sr : string * string => (JStr (fst sr), snd sr))
            (JSON.parse_string_body r)).
  now rewrite parse_escape_string.
Qed.

(** After an opening bracket that is followed by a value, the elements are
    parsed. *)
Lemma parse_value_array (fuel : nat) (c : ascii) (r : string) :
  value_head c = true ->
  JSON.parse_value (S fuel) (String "[" (String c r))
  = option_map (fun ir => (JArr (fst ir), snd ir))
               (JSON.parse_elements fuel (String c r)).
Proof.
  destruct c as [[] [] [] [] [] [] [] []]; intros H;
    try discriminate H; reflexivity.
Qed.

Lemma parse_value_object (fuel : nat) (r : string) :
  JSON.parse_value (S fuel) (String "{" (String JSON.dquote r))
  = option_map (fun mr => (JObj (JSON.obj_of_members (fst mr)), snd mr))
               (JSON.parse_members fuel (String JSON.dquote r)).
Proof. reflexivity. Qed.

Lemma size_array (items : list json) :
  size (JArr items) = S (items_size items).
Proof.
  simpl. apply (f_equal S).
  induction items as [|x items IH]; simpl; [reflexivity|].
  now rewrite IH.
Qed.

Lemma size_object (members : list (string * json)) :
  size (JObj members) = S (members_size members).
Proof.
  simpl. apply (f_equal S).
  induction members as [|x members IH]; simpl; [reflexivity|].
  now rewrite IH.
Qed.

Lemma join_map_cons {A} (f : A -> string) (sep : string) (x y : A)
    (l : list A) :
  join_with sep (List.map f (x :: y :: l))
  = f x ++ sep ++ join_with sep (List.map f (y :: l)).
Proof. reflexivity. Qed.

Lemma parse_elements_stringify (items : list json) :
  Forall parses_back items ->
  Forall well_formed items ->
  forall x fuel rest,
    parses_back x -> well_formed x ->
    (items_size (x :: items) <= fuel)%nat ->
    JSON.parse_elements fuel
      (join_with "," (List.map JSON.stringify (x :: items))
         ++ String "]" rest)
    = Some (x :: items, rest).
Proof.
  induction items as [|y items IH];
    intros HP Hwf x fuel rest Hx Hwx Hfuel; simpl in Hfuel.
  - destruct fuel as [|fuel]; [lia|].
    simpl List.map. simpl join_with. simpl JSON.parse_elements.
    rewrite (Hx Hwx fuel (String "]" rest)); [reflexivity | lia |].
    simpl. auto.
  - destruct fuel as [|fuel]; [lia|].
    inversion HP as [|? ? Hy HP']; subst.
    inversion Hwf as [|? ? Hwy Hwf']; subst.
    rewrite join_map_cons, !append_assoc, parse_elements_S.
    rewrite (Hx Hwx fuel _); [| lia | simpl; auto].
    rewrite append_cons, append_nil.
    change (JSON.skip_ws (String "," ?r)) with (String "," r).
    cbv beta match.
    rewrite (IH HP' Hwf' y fuel rest Hy Hwy); [reflexivity|].
    simpl. lia.
Qed.

Lemma stringify_object (members : list (string * json)) :
  JSON.stringify (JObj members)
  = "{" ++ join_with "," (List.map member_text members) ++ "}".
Proof. reflexivity. Qed.

Lemma stringify_array (items : list json) :
  JSON.stringify (JArr items)
  = "[" ++ join_with "," (List.map JSON.stringify items) ++ "]".
Proof. reflexivity. Qed.

Lemma parse_members_quote (fuel : nat) (r : string) :
  JSON.parse_members (S fuel) (String JSON.dquote r)
  = match JSON.parse_string_body r with
    | None => None
    | Some (k, r1) =>
        match JSON.skip_ws r1 with
        | String ":" r2 =>
            match JSON.parse_value fuel r2 with
            | None => None
            | Some (v, r3) =>
                match JSON.skip_ws r3 with
                | String "," r4 =>
                    option_map (fun mr => ((k, v) :: fst mr, snd mr))
                               (JSON.parse_members fuel r4)
                | String "}" r4 => Some ([(k, v)], r4)
                | _ => None
                end
            end
        | _ => None
        end
    end.
Proof. reflexivity. Qed.

Lemma member_text_unfold (k : string) (v : json) (tail : string) :
  member_text (k, v) ++ tail
  = String JSON.dquote
      (JSON.escape_string k
         ++ String JSON.dquote (String ":" (JSON.stringify v ++ tail))).
Proof.
  unfold member_text. simpl fst. simpl snd.
  rewrite append_assoc, quote_unfold, append_assoc, append_cons,
    append_nil.
  reflexivity.
Qed.

Lemma parse_members_stringify (members : list (string * json)) :
  Forall (fun kv => parses_back (snd kv)) members ->
  Forall (fun kv => well_formed (snd kv)) members ->
  forall k x fuel rest,
    parses_back x -> well_formed x ->
    (members_size ((k, x) :: members) <= fuel)%nat ->
    JSON.parse_members fuel
      (join_with "," (List.map member_text ((k, x) :: members))
         ++ String "}" rest)
    = Some ((k, x) :: members, rest).
Proof.
  induction members as [|[k' y] members IH];
    intros HP Hwf k x fuel rest Hx Hwx Hfuel; simpl in Hfuel.
  - destruct fuel as [|fuel]; [lia|].
    change (join_with "," (List.map member_text [(k, x)]))
      with (member_text (k, x)).
    rewrite member_text_unfold, parse_members_quote, parse_escape_string.
    change (JSON.skip_ws (String ":" ?r)) with (String ":" r).
    cbv beta match.
    rewrite (Hx Hwx fuel (String "}" rest)); [reflexivity | lia |].
    simpl. auto.
  - destruct fuel as [|fuel]; [lia|].
    inversion HP as [|? ? Hy HP']; subst.
    inversion Hwf as [|? ? Hwy Hwf']; subst.
    simpl in Hy, Hwy.
    rewrite join_map_cons, !append_assoc.
    rewrite member_text_unfold, parse_members_quote, parse_escape_string.
    change (JSON.skip_ws (String ":" ?r)) with (String ":" r).
    cbv beta match.
    rewrite (Hx Hwx fuel _); [| lia | simpl; auto].
    rewrite append_cons, append_nil.
    change (JSON.skip_ws (String "," ?r)) with (String "," r).
    cbv beta match.
    rewrite (IH HP' Hwf' k' y fuel rest Hy Hwy); [reflexivity|].
    simpl. lia.
Qed.

(** Building an object from members with distinct keys keeps them. *)
Lemma obj_set_fresh (k : string) (v : json)
    (members : list (string * json)) :
  k ∉ List.map fst members ->
  JSON.obj_set k v members = (members ++ [(k, v)])%list.
Proof.
  induction members as [|[k' v'] members IH]; intros Hk; [reflexivity|].
  simpl in *. rewrite not_elem_of_cons in Hk. destruct Hk as [Hne Hk].
  destruct (String.eqb_spec k k') as [->|_]; [congruence|].
  now rewrite IH.
Qed.

Lemma obj_of_members_acc (members acc : list (string * json)) :
  NoDup (List.map fst (acc ++ members)%list) ->
  fold_left (fun a kv => JSON.obj_set (fst kv) (snd kv) a) members acc
  = (acc ++ members)%list.
Proof.
  revert acc. induction members as [|[k v] members IH]; intros acc Hnd.
  - simpl. now rewrite app_nil_r.
  - simpl. rewrite obj_set_fresh.
    + rewrite IH; rewrite <- app_assoc; [reflexivity | exact Hnd].
    + rewrite List.map_app in Hnd. simpl in Hnd.
      apply NoDup_app in Hnd as (_ & Hdisj & _).
      intros Hin. apply (Hdisj k Hin). left.
Qed.

Lemma obj_of_members_distinct (members : list (string * json)) :
  NoDup (List.map fst members) ->
  JSON.obj_of_members members = members.
Proof.
  intros Hnd. unfold JSON.obj_of_members.
  now rewrite obj_of_members_acc.
Qed.

Lemma skip_ws_value_head (c : ascii) (r : string) :
  value_head c = true -> JSON.skip_ws (String c r) = String c r.
Proof.
  destruct c as [[] [] [] [] [] [] [] []]; intros H;
    try discriminate H; reflexivity.
Qed.

(** Parsing the text of a value gives the value back and stops where the
    text ends. *)
Lemma parse_value_stringify (v : json) : parses_back v.
Proof.
  induction v as [| b | n | s | items IH | members IH] using json_induction;
    intros Hwf fuel rest Hfuel Hrest.
  - destruct fuel as [|fuel]; [simpl in Hfuel; lia | reflexivity].
  - destruct fuel as [|fuel]; [simpl in Hfuel; lia|].
    destruct b; reflexivity.
  - destruct fuel as [|fuel]; [simpl in Hfuel; lia|].
    inversion Hwf as [| | ? Hsafe | | |]; subst.
    now apply parse_value_number.
  - destruct fuel as [|fuel]; [simpl in Hfuel; lia|].
    apply parse_value_string.
  - rewrite size_array in Hfuel.
    destruct fuel as [|fuel]; [lia|].
    inversion Hwf as [| | | | ? Hitems |]; subst.
    rewrite stringify_array.
    destruct items as [|x items]; [reflexivity|].
    inversion IH as [|? ? Hx IH']; subst.
    inversion Hitems as [|? ? Hwx Hitems']; subst.
    rewrite !append_assoc, append_cons, append_nil.
    pose proof (parse_elements_stringify items IH' Hitems' x fuel rest
                  Hx Hwx ltac:(lia)) as Hel.
    destruct (stringify_head x) as (c & r & E & Hc).
    assert (Hshape :
      exists r', join_with "," (List.map JSON.stringify (x :: items))
                   ++ "]" ++ rest = String c r').
    { destruct items as [|y items].
      - exists (r ++ "]" ++ rest).
        change (join_with "," (List.map JSON.stringify [x]))
          with (JSON.stringify x).
        now rewrite E, append_cons.
      - rewrite join_map_cons, E, !append_assoc, append_cons. eauto. }
    destruct Hshape as [r' Hshape].
    change ("]" ++ rest) with (String "]" rest) in Hshape.
    rewrite Hshape in Hel. 
    change ("]" ++ rest) with (String "]" rest). rewrite Hshape.
    rewrite (parse_value_array _ _ _ Hc), Hel. reflexivity.
  - rewrite size_object in Hfuel.
    destruct fuel as [|fuel]; [lia|].
    inversion Hwf as [| | | | | ? Hnd Hmem]; subst.
    rewrite stringify_object.
    destruct members as [|[k x] members]; [reflexivity|].
    inversion IH as [|? ? Hx IH']; subst.
    inversion Hmem as [|? ? Hwx Hmem']; subst.
    simpl in Hx, Hwx.
    rewrite !append_assoc, append_cons, append_nil.
    pose proof (parse_members_stringify members IH' Hmem' k x fuel rest
                  Hx Hwx ltac:(lia)) as Hel.
    assert (Hshape :
      exists r', join_with "," (List.map member_text ((k, x) :: members))
                   ++ "}" ++ rest = String JSON.dquote r').
    { destruct members as [|y members].
      - change (join_with "," (List.map member_text [(k, x)]))
          with (member_text (k, x)).
        rewrite member_text_unfold. eauto.
      - rewrite join_map_cons, !append_assoc, member_text_unfold. eauto. }
    destruct Hshape as [r' Hshape].
    change ("}" ++ rest) with (String "}" rest) in Hshape.
    rewrite Hshape in Hel.
    change ("}" ++ rest) with (String "}" rest). rewrite Hshape.
    rewrite parse_value_object, Hel. simpl.
    now rewrite (obj_of_members_distinct _ Hnd).
Qed.

Lemma length_append (a b : string) :
  String.length (a ++ b) = (String.length a + String.length b)%nat.
Proof.
  induction a as [|c a IH]; [reflexivity|].
  rewrite append_cons. simpl. now rewrite IH.
Qed.

Lemma items_size_le_length (items : list json) :
  Forall (fun v => (size v <= String.length (JSON.stringify v))%nat) items ->
  (items_size items
   <= String.length (join_with "," (List.map JSON.stringify items)) + 1)%nat.
Proof.
  induction 1 as [|x items Hx Hitems IH]; [simpl; lia|].
  destruct items as [|y items].
  - simpl in *. lia.
  - rewrite join_map_cons, !length_append.
    change (items_size (x :: y :: items))
      with (S (size x) + items_size (y :: items))%nat.
    change (String.length ",") with 1%nat. lia.
Qed.

Lemma members_size_le_length (members : list (string * json)) :
  Forall (fun kv =>
            (size (snd kv) <= String.length (JSON.stringify (snd kv)))%nat)
         members ->
  (members_size members
   <= String.length (join_with "," (List.map member_text members)) + 1)%nat.
Proof.
  induction 1 as [|[k x] members Hx Hm IH]; [simpl; lia|].
  simpl in Hx.
  assert (Hone : (S (size x) <= String.length (member_text (k, x)))%nat).
  { unfold member_text. rewrite !length_append. simpl. lia. }
  destruct members as [|y members].
  - change (join_with "," (List.map member_text [(k, x)]))
      with (member_text (k, x)).
    simpl members_size. lia.
  - rewrite join_map_cons, !length_append.
    change (members_size ((k, x) :: y :: members))
      with (S (size x) + members_size (y :: members))%nat.
    change (String.length ",") with 1%nat. lia.
Qed.

Lemma size_le_length (v : json) :
  (size v <= String.length (JSON.stringify v))%nat.
Proof.
  induction v as [| b | n | s | items IH | members IH] using json_induction.
  - simpl. lia.
  - destruct b; simpl; lia.
  - destruct (string_of_Z_head n) as (c & r & E & _).
    simpl. rewrite E. simpl. lia.
  - simpl. lia.
  - rewrite size_array, stringify_array, !length_append.
    pose proof (items_size_le_length items IH).
    change (String.length "[") with 1%nat.
    change (String.length "]") with 1%nat. lia.
  - rewrite size_object, stringify_object, !length_append.
    pose proof (members_size_le_length members IH).
    change (String.length "{") with 1%nat.
    change (String.length "}") with 1%nat. lia.
Qed.

(** [JSON.parse(JSON.stringify(v))] is [v]. *)
Lemma parse_stringify (v : json) :
  well_formed v -> JSON.parse (JSON.stringify v) = Some v.
Proof.
  intros Hwf. unfold JSON.parse.
  pose proof (parse_value_stringify v Hwf
                (S (String.length (JSON.stringify v))) ""
                ltac:(pose proof (size_le_length v); lia) I) as H.
  rewrite append_empty_r in H. rewrite H. reflexivity.
Qed.

(** ** Persisting and restoring the session *)

Lemma stringify_object_nonempty (members : list (string * json)) :
  String.eqb (JSON.stringify (JObj members)) "" = false.
Proof.
  rewrite stringify_object, append_cons. reflexivity.
Qed.

Lemma JSON_parse_stringify (v : json) :
  well_formed v -> JSON_parse (JSON.stringify v) = Normal v.
Proof. intros H. unfold JSON_parse. now rewrite parse_stringify. Qed.

(** [restore] on a stored text, case by case. *)
Lemma restore_text (b : App) (text : string) :
  sessionStorage b !! AUTH_STORAGE_KEY = Some text ->
  String.eqb text "" = false ->
  restore b
  = match JSON_parse text with
    | Normal payload =>
        match get_prop (Some payload) "token" with
        | Normal tok =>
            if truthy tok then
              match get_prop (Some payload) "user" with
              | Normal usr =>
                  (Normal tt,
                   with_user (js_or usr (Some JNull)) (with_token tok b))
              | Throw e =>
                  (Normal tt,
                   exec (console_error "Failed to parse stored session " e)
                     (with_token tok b))
              end
            else (Normal tt, b)
        | Throw e =>
            (Normal tt,
             exec (console_error "Failed to parse stored session " e) b)
        end
    | Throw e =>
        (Normal tt,
         exec (console_error "Failed to parse stored session " e) b)
    end.
Proof.
  intros Hstored Hne. unfold restore. run_handler.
  rewrite Hstored, Hne.
  destruct (JSON_parse text) as [payload|e]; simpl; [|reflexivity].
  destruct payload as [| | | | |members]; simpl; try reflexivity.
  destruct (truthy (assoc "token" members)); reflexivity.
Qed.

(** [restore] on a storage that holds the record of a token and a user. *)
Lemma restore_record (b : App) (tok u : json) :
  well_formed tok -> well_formed u ->
  truthy (Some tok) = true ->
  sessionStorage b !! AUTH_STORAGE_KEY
    = Some (JSON_stringify [("token", Some tok); ("user", Some u)]) ->
  restore b
  = (Normal tt, with_user (js_or (Some u) (Some JNull))
                  (with_token (Some tok) b)).
Proof.
  intros Hwt Hwu Htok Hstored.
  assert (Hwf : well_formed (JObj [("token", tok); ("user", u)])).
  { constructor.
    - now apply (bool_decide_unpack _).
    - repeat constructor; assumption. }
  rewrite (restore_text b _ Hstored (stringify_object_nonempty _)).
  unfold JSON_stringify.
  change (defined_members [("token", Some tok); ("user", Some u)])
    with [("token", tok); ("user", u)].
  rewrite (JSON_parse_stringify _ Hwf).
  change (get_prop (Some (JObj [("token", tok); ("user", u)])) "token")
    with (Normal (A := jsval) (Some tok)).
  cbv beta match. rewrite Htok. reflexivity.
Qed.

(** [restore] never throws, and it leaves the session alone unless the
    stored text parses. *)
Lemma restore_unparsable (b : App) :
  (sessionStorage b !! AUTH_STORAGE_KEY = None \/
   exists text, sessionStorage b !! AUTH_STORAGE_KEY = Some text /\
                JSON.valid text = false) ->
  outcome_of restore b = Normal tt /\
  token (exec restore b) = token b /\
  user (exec restore b) = user b.
Proof.
  unfold restore. run_handler. intros [->|(text & -> & Hvalid)].
  - auto.
  - destruct (String.eqb text ""); [auto|].
    unfold JSON_parse. rewrite (invalid_parse _ Hvalid). simpl. auto.
Qed.

Lemma restore_no_throw (b : App) : outcome_of restore b = Normal tt.
Proof.
  unfold restore. run_handler.
  destruct (sessionStorage b !! AUTH_STORAGE_KEY) as [text|]; [|reflexivity].
  destruct (String.eqb text ""); [reflexivity|].
  destruct (JSON_parse text) as [payload|e]; simpl; [|reflexivity].
  destruct payload as [| | | | |members]; simpl; try reflexivity.
  destruct (truthy (assoc "token" members)); reflexivity.
Qed.

(** *** Parsed values are well formed *)

Lemma obj_set_keys (k : string) (v : json) (members : list (string * json)) :
  NoDup (List.map fst members) ->
  NoDup (List.map fst (JSON.obj_set k v members)) /\
  forall k', k' ∈ List.map fst (JSON.obj_set k v members) ->
             k' = k \/ k' ∈ List.map fst members.
Proof.
  induction members as [|[k0 v0] members IH]; intros Hnd.
  - simpl. split.
    + apply NoDup_singleton.
    + intros k' Hk'. left. now apply list_elem_of_singleton in Hk'.
  - simpl in *. apply NoDup_cons in Hnd as [Hk0 Hnd].
    destruct (String.eqb_spec k k0) as [->|Hne]; simpl.
    + split; [now apply NoDup_cons | intros k' Hk'; now right].
    + destruct (IH Hnd) as [IH1 IH2]. split.
      * apply NoDup_cons. split; [|exact IH1].
        intros Hin. apply IH2 in Hin as [->|Hin]; congruence.
      * intros k' Hk'. apply elem_of_cons in Hk' as [->|Hk'].
        -- right. left.
        -- apply IH2 in Hk' as [->|Hk']; [now left | right; now right].
Qed.

Lemma obj_set_values (P : json -> Prop) (k : string) (v : json)
    (members : list (string * json)) :
  P v ->
  Forall (fun kv => P (snd kv)) members ->
  Forall (fun kv => P (snd kv)) (JSON.obj_set k v members).
Proof.
  intros Hv. induction 1 as [|[k0 v0] members H0 Hm IH]; simpl.
  - repeat constructor. exact Hv.
  - destruct (String.eqb k k0); constructor; assumption.
Qed.

Lemma obj_of_members_well_formed (members : list (string * json)) :
  Forall (fun kv => well_formed (snd kv)) members ->
  well_formed (JObj (JSON.obj_of_members members)).
Proof.
  intros Hm. unfold JSON.obj_of_members.
  assert (Hgen : forall acc,
    NoDup (List.map fst acc) ->
    Forall (fun kv => well_formed (snd kv)) acc ->
    let r := fold_left (fun a kv => JSON.obj_set (fst kv) (snd kv) a)
               members acc in
    NoDup (List.map fst r) /\ Forall (fun kv => well_formed (snd kv)) r).
  { induction Hm as [|[k v] members Hv Hm IH]; intros acc Hnd Hacc.
    - simpl. auto.
    - simpl. apply IH.
      + now apply obj_set_keys.
      + now apply obj_set_values. }
  destruct (Hgen [] (NoDup_nil_2) (Forall_nil_2 _)) as [H1 H2].
  now constructor.
Qed.

(** The integers the reader takes are within the safe range. *)
Lemma parse_nat_safe (s : string) (n : Z) (rest : string) :
  JSON.parse_nat s = Some (n, rest) -> 0 <= n <= JSON.max_safe_integer.
Proof.
  unfold JSON.parse_nat. destruct (JSON.parse_digits s) as [ds r].
  assert (Hpos : 0 <= Z.of_uint ds).
  { unfold Z.of_uint. apply N2Z.is_nonneg. }
  intros H.
  assert (Hcase :
    (if JSON.continues_number r then None
     else if Z.of_uint ds <=? JSON.max_safe_integer
          then Some (Z.of_uint ds, r) else None) = Some (n, rest)).
  { destruct ds as [| d | d | d | d | d | d | d | d | d | d];
      try discriminate H; try exact H.
    destruct d; try discriminate H; exact H. }
  destruct (JSON.continues_number r); [discriminate|].
  destruct (Z.leb_spec (Z.of_uint ds) JSON.max_safe_integer) as [Hle|];
    [|discriminate].
  injection Hcase as <- _. lia.
Qed.

Lemma parse_number_safe (s : string) (n : Z) (rest : string) :
  JSON.parse_number s = Some (n, rest) ->
  - JSON.max_safe_integer <= n <= JSON.max_safe_integer.
Proof.
  unfold JSON.parse_number. intros H.
  assert (Hcase :
    (exists r m, JSON.parse_nat r = Some (m, rest) /\ n = - m) \/
    JSON.parse_nat s = Some (n, rest)).
  { destruct s as [|c r]; [now right|].
    destruct (Ascii.eqb_spec c "-") as [->|Hc].
    - left. destruct (JSON.parse_nat r) as [[m r']|] eqn:E; [|discriminate].
      injection H as <- <-. now exists r, m.
    - right. destruct c as [[] [] [] [] [] [] [] []];
        try exact H; exfalso; now apply Hc. }
  destruct Hcase as [(r & m & Hm & ->)|Hn].
  - apply parse_nat_safe in Hm. unfold JSON.max_safe_integer in *. lia.
  - apply parse_nat_safe in Hn. unfold JSON.max_safe_integer in *. lia.
Qed.

Lemma parse_well_formed_fuel (fuel : nat) :
  (forall s v r, JSON.parse_value fuel s = Some (v, r) -> well_formed v) /\
  (forall s l r, JSON.parse_elements fuel s = Some (l, r) ->
                 Forall well_formed l) /\
  (forall s m r, JSON.parse_members fuel s = Some (m, r) ->
                 Forall (fun kv => well_formed (snd kv)) m).
Proof.
  induction fuel as [|fuel (IHv & IHe & IHm)].
  - repeat split; intros; discriminate.
  - repeat split.
    + intros s v r H. rewrite parse_value_S in H.
      destruct (JSON.skip_ws s) as [|c t]; [discriminate|].
      destruct (Ascii.eqb c "n").
      { destruct (JSON.expect "ull" t); simpl in H; [|discriminate].
        injection H as <- <-. constructor. }
      destruct (Ascii.eqb c "t").
      { destruct (JSON.expect "rue" t); simpl in H; [|discriminate].
        injection H as <- <-. constructor. }
      destruct (Ascii.eqb c "f").
      { destruct (JSON.expect "alse" t); simpl in H; [|discriminate].
        injection H as <- <-. constructor. }
      destruct (Ascii.eqb c JSON.dquote).
      { destruct (JSON.parse_string_body t) as [[? ?]|]; simpl in H;
          [|discriminate].
        injection H as <- <-. constructor. }
      destruct (Ascii.eqb c "[").
      { assert (Hcases :
          (exists rest, Some (JArr [], rest) = Some (v, r)) \/
          option_map (fun ir : list json * string => (JArr (fst ir), snd ir))
            (JSON.parse_elements fuel t) = Some (v, r)).
        { parse_cases; eauto. }
        destruct Hcases as [[rest Hc]|Hc].
        - injection Hc as <- <-. repeat constructor.
        - destruct (JSON.parse_elements fuel t) as [[l r']|] eqn:E;
            [|discriminate].
          injection Hc as <- <-. constructor. eapply IHe, E. }
      destruct (Ascii.eqb c "{").
      { assert (Hcases :
          (exists rest, Some (JObj [], rest) = Some (v, r)) \/
          option_map (fun mr : list (string * json) * string =>
                        (JObj (JSON.obj_of_members (fst mr)), snd mr))
            (JSON.parse_members fuel t) = Some (v, r)).
        { parse_cases; eauto. }
        destruct Hcases as [[rest Hc]|Hc].
        - injection Hc as <- <-. repeat constructor.
        - destruct (JSON.parse_members fuel t) as [[m r']|] eqn:E;
            [|discriminate].
          injection Hc as <- <-. apply obj_of_members_well_formed.
          eapply IHm, E. }
      destruct (JSON.parse_number (String c t)) as [[n ?]|] eqn:En;
        simpl in H; [|discriminate].
      injection H as <- <-. constructor. eapply parse_number_safe, En.
    + intros s l r H. rewrite parse_elements_S in H.
      destruct (JSON.parse_value fuel s) as [[v r1]|] eqn:Ev; [|discriminate].
      apply IHv in Ev.
      assert (Hcases :
        (exists r', Some ([v], r') = Some (l, r)) \/
        (exists r', option_map (fun ir : list json * string =>
                                  (v :: fst ir, snd ir))
                      (JSON.parse_elements fuel r') = Some (l, r))).
      { parse_cases; eauto. }
      destruct Hcases as [[r' Hc]|[r' Hc]].
      * injection Hc as <- <-. repeat constructor. exact Ev.
      * destruct (JSON.parse_elements fuel r') as [[l' r'']|] eqn:E;
          [|discriminate].
        injection Hc as <- <-. constructor; [exact Ev | eapply IHe, E].
    + intros s m r H. rewrite parse_members_S in H.
      destruct (JSON.skip_ws s) as [|c t]; [discriminate|].
      destruct (Ascii.eqb c JSON.dquote); [|discriminate].
      destruct (JSON.parse_string_body t) as [[k r1]|]; [|discriminate].
      assert (Hcases :
        exists r2 v r3, JSON.parse_value fuel r2 = Some (v, r3) /\
          ((exists r4, Some ([(k, v)], r4) = Some (m, r)) \/
           (exists r4, option_map
                         (fun mr : list (string * json) * string =>
                            ((k, v) :: fst mr, snd mr))
                         (JSON.parse_members fuel r4) = Some (m, r)))).
      { destruct (JSON.skip_ws r1) as [|c1 r2]; [discriminate|].
        assert (exists v r3, JSON.parse_value fuel r2 = Some (v, r3) /\
                  match JSON.skip_ws r3 with
                  | String "," r4 =>
                      option_map
                        (fun mr : list (string * json) * string =>
                           ((k, v) :: fst mr, snd mr))
                        (JSON.parse_members fuel r4)
                  | String "}" r4 => Some ([(k, v)], r4)
                  | _ => None
                  end = Some (m, r)) as (v & r3 & Ev & H').
        { destruct c1 as [[] [] [] [] [] [] [] []]; try discriminate H.
          destruct (JSON.parse_value fuel r2) as [[v r3]|]; [|discriminate].
          eauto. }
        exists r2, v, r3. split; [exact Ev|].
        clear H. parse_cases; eauto. }
      destruct Hcases as (r2 & v & r3 & Ev & [[r4 Hc]|[r4 Hc]]).
      * injection Hc as <- <-. repeat constructor. simpl. eapply IHv, Ev.
      * destruct (JSON.parse_members fuel r4) as [[m' r']|] eqn:E;
          [|discriminate].
        injection Hc as <- <-. constructor; [simpl; eapply IHv, Ev|].
        eapply IHm, E.
Qed.

(** What [JSON.parse] returns has one value per key. *)
Lemma parse_well_formed (text : string) (v : json) :
  JSON.parse text = Some v -> well_formed v.
Proof.
  unfold JSON.parse. intros H.
  destruct (JSON.parse_value _ text) as [[v' r]|] eqn:E; [|discriminate].
  destruct (JSON.skip_ws r); [|discriminate]. injection H as <-.
  eapply (proj1 (parse_well_formed_fuel _)), E.
Qed.

(** ** Login, then restore *)

(** A successful attempt: the token and the user of the response become
    the session and are persisted. *)
Lemma handleAuthSubmit_success fetch (a : App) status body members :
  fetch (auth_request (authMode a) (authValues a)) = Responded status body ->
  response_ok status = true ->
  JSON.parse body = Some (JObj members) ->
  handleAuthSubmit fetch a =
    (Normal tt,
     mkApp (authMode a)
       (mkAuthValues (av_email (authValues a)) ""
          (av_full_name (authValues a)) (av_role (authValues a)))
       (assoc "access_token" members) (assoc "user" members) false
       (medicines a) (analytics a) (searchQuery a) (medicineForm a)
       (Some (mkToast
                match authMode a with
                | Some register => "Registration successful"
                | _ => "Logged in successfully"
                end info))
       (<[AUTH_STORAGE_KEY :=
            JSON_stringify [("token", assoc "access_token" members);
                            ("user", assoc "user" members)]]>
          (sessionStorage a))
       (console a) (S (timers a))).
Proof.
  intros H Hok Hparse. unfold handleAuthSubmit. run_handler.
  rewrite (await_fetch_responded _ _ _ _ H). simpl. rewrite Hok. simpl.
  unfold response_json, JSON_parse. rewrite Hparse. reflexivity.
Qed.

Lemma assoc_Forall (P : json -> Prop) (k : string)
    (members : list (string * json)) (v : json) :
  Forall (fun kv => P (snd kv)) members ->
  assoc k members = Some v -> P v.
Proof.
  induction 1 as [|[k' v'] members Hv Hm IH]; simpl; [discriminate|].
  destruct (String.eqb k k'); [now intros [= <-] | exact IH].
Qed.

Lemma parsed_member_well_formed (text k : string)
    (members : list (string * json)) (v : json) :
  JSON.parse text = Some (JObj members) ->
  assoc k members = Some v -> well_formed v.
Proof.
  intros Hparse. apply parse_well_formed in Hparse.
  inversion Hparse as [| | | | | ? _ Hm]; subst.
  now apply assoc_Forall.
Qed.

(** C5, as the code has it: after a successful login or registration
    whose response carries a truthy token and a user that is a profile or
    [null], what the handler persisted comes back from [restore] at the
    next start as the same token and the same user; when the record is
    absent or is not JSON, [restore] leaves the state of the first render
    (empty token, no user) and does not throw. *)
Theorem session_round_trip (fetch : Fetch) (a : App) (today : string)
    (status : Z) (body : string) (members : list (string * json))
    (tok u : json) :
  fetch (auth_request (authMode a) (authValues a)) = Responded status body ->
  200 <= status <= 299 ->
  JSON.parse body = Some (JObj members) ->
  assoc "access_token" members = Some tok ->
  truthy (Some tok) = true ->
  assoc "user" members = Some u ->
  u = JNull \/ truthy (Some u) = true ->
  let logged_in := exec (handleAuthSubmit fetch) a in
  let restarted := initial today (sessionStorage logged_in) in
  (token logged_in = Some tok /\
   user logged_in = Some u /\
   outcome_of restore restarted = Normal tt /\
   token (exec restore restarted) = token logged_in /\
   user (exec restore restarted) = user logged_in) /\
  (forall storage,
     (storage !! AUTH_STORAGE_KEY = None \/
      exists text, storage !! AUTH_STORAGE_KEY = Some text /\
                   JSON.valid text = false) ->
     let first := initial today storage in
     outcome_of restore first = Normal tt /\
     token (exec restore first) = Some (JStr "") /\
     user (exec restore first) = Some JNull /\
     authenticated (exec restore first) = false).
Proof.
  intros Hfetch Hstatus Hparse Htok Htruthy Hu Hprofile logged_in restarted.
  split.
  - apply response_ok_range in Hstatus.
    pose proof (handleAuthSubmit_success _ _ _ _ _ Hfetch Hstatus Hparse)
      as Hlogin.
    rewrite Htok, Hu in Hlogin.
    assert (Hstored :
      sessionStorage restarted !! AUTH_STORAGE_KEY
      = Some (JSON_stringify [("token", Some tok); ("user", Some u)])).
    { subst restarted logged_in. unfold exec. rewrite Hlogin. simpl.
      apply lookup_insert_eq. }
    pose proof (restore_record restarted tok u
                  (parsed_member_well_formed _ _ _ _ Hparse Htok)
                  (parsed_member_well_formed _ _ _ _ Hparse Hu)
                  Htruthy Hstored) as Hrestore.
    assert (Hor : js_or (Some u) (Some JNull) = Some u).
    { unfold js_or. destruct Hprofile as [-> | ->]; reflexivity. }
    rewrite Hor in Hrestore.
    subst logged_in. unfold exec, outcome_of in *.
    rewrite Hrestore, Hlogin. simpl. auto.
  - intros storage Habs first.
    destruct (restore_unparsable first Habs) as (H1 & H2 & H3).
    unfold authenticated. rewrite H2, H3. subst first. simpl. auto.
Qed.

Lemma session_round_trip_witness :
  let profile := JObj [("email", JStr "ada@example.org");
                       ("full_name", JStr "Ada Lovelace");
                       ("role", JStr "pharmacist")] in
  let response :=
    JSON.stringify (JObj [("access_token", JStr "t1"); ("user", profile)]) in
  let logged_in :=
    exec (handleAuthSubmit (fun _ => Responded 200 response))
      (initial "2027-05-02" ∅) in
  let restarted := initial "2027-05-02" (sessionStorage logged_in) in
  token (exec restore restarted) = Some (JStr "t1") /\
  user (exec restore restarted) = Some profile.
Proof.
  intros profile response logged_in restarted.
  pose proof (session_round_trip (fun _ => Responded 200 response)
                (initial "2027-05-02" ∅) "2027-05-02" 200 response
                [("access_token", JStr "t1"); ("user", profile)]
                (JStr "t1") profile) as H.
  destruct H as [(Ht & Hu & _ & Ht' & Hu') _].
  - reflexivity.
  - lia.
  - vm_compute. reflexivity.
  - reflexivity.
  - reflexivity.
  - reflexivity.
  - right. reflexivity.
  - split; [exact (eq_trans Ht' Ht) | exact (eq_trans Hu' Hu)].
Defined.

(** C5 as stated fails on two sessions the handler persists.  A response
    with an empty token and a profile: the profile is the user and is
    persisted, and [restore] adopts nothing, so the user comes back as
    [null].  A response with a token and no user: the user is [undefined],
    and it comes back as [null]. *)
Lemma persisted_session_is_not_restored :
  let profile := JObj [("full_name", JStr "Ada Lovelace")] in
  let empty_token :=
    JSON.stringify (JObj [("access_token", JStr ""); ("user", profile)]) in
  let no_user := JSON.stringify (JObj [("access_token", JStr "t1")]) in
  let a1 :=
    exec (handleAuthSubmit (fun _ => Responded 200 empty_token))
      (initial "2027-05-02" ∅) in
  let a2 :=
    exec (handleAuthSubmit (fun _ => Responded 200 no_user))
      (initial "2027-05-02" ∅) in
  toast a1 = Some (mkToast "Logged in successfully" info) /\
  user a1 = Some profile /\
  user (exec restore (initial "2027-05-02" (sessionStorage a1)))
    = Some JNull /\
  token a2 = Some (JStr "t1") /\
  user a2 = undefined /\
  token (exec restore (initial "2027-05-02" (sessionStorage a2)))
    = Some (JStr "t1") /\
  user (exec restore (initial "2027-05-02" (sessionStorage a2)))
    = Some JNull.
Proof. repeat split; vm_compute; reflexivity. Qed.

(* ===================================================================== *)
(** * Further properties of the code                                       *)
(* ===================================================================== *)

(** ** The backend address *)

Lemma strip_trailing_slashes_cons (c : ascii) (r : string) :
  strip_trailing_slashes (String c r)
  = if Ascii.eqb c "/" && String.eqb (strip_trailing_slashes r) ""
    then "" else String c (strip_trailing_slashes r).
Proof. reflexivity. Qed.

Lemma strip_slashes_only (n : nat) : strip_trailing_slashes (slashes n) = "".
Proof.
  induction n as [|n IH]; [reflexivity|].
  change (slashes (S n)) with (String "/" (slashes n)).
  rewrite strip_trailing_slashes_cons, IH. reflexivity.
Qed.

Lemma strip_app_slashes (s : string) (n : nat) :
  strip_trailing_slashes (s ++ slashes n) = strip_trailing_slashes s.
Proof.
  induction s as [|c s IH].
  - rewrite append_nil. apply strip_slashes_only.
  - rewrite append_cons, !strip_trailing_slashes_cons, IH. reflexivity.
Qed.

Lemma strip_never_ends_with_slash (s : string) :
  ~ ends_with_slash (strip_trailing_slashes s).
Proof.
  induction s as [|c s IH]; intros [pre H].
  - destruct pre; discriminate H.
  - rewrite strip_trailing_slashes_cons in H.
    destruct (Ascii.eqb_spec c "/") as [->|Hc]; simpl in H.
    + destruct (String.eqb_spec (strip_trailing_slashes s) "") as [E|E].
      * destruct pre; discriminate H.
      * destruct pre as [|d pre].
        -- rewrite append_nil in H. injection H as H. congruence.
        -- rewrite append_cons in H. injection H as _ H.
           apply IH. now exists pre.
    + destruct pre as [|d pre].
      * rewrite append_nil in H. injection H as H _. congruence.
      * rewrite append_cons in H. injection H as _ H.
        apply IH. now exists pre.
Qed.

Lemma strip_fixed (s : string) :
  ~ ends_with_slash s -> strip_trailing_slashes s = s.
Proof.
  induction s as [|c s IH]; intros Hs; [reflexivity|].
  rewrite strip_trailing_slashes_cons.
  assert (Htail : ~ ends_with_slash s).
  { intros [pre ->]. apply Hs. exists (String c pre).
    now rewrite append_cons. }
  rewrite (IH Htail).
  destruct (Ascii.eqb_spec c "/") as [->|Hc]; [|reflexivity].
  destruct (String.eqb_spec s "") as [->|Hne]; [|reflexivity].
  exfalso. apply Hs. now exists "".
Qed.

Lemma length_eq_of_eq (a b : string) :
  a = b -> String.length a = String.length b.
Proof. now intros ->. Qed.

Lemma strip_api_suffix_cons (c : ascii) (r : string) :
  strip_api_suffix (String c r)
  = if String.eqb (String c r) "/api" || String.eqb (String c r) "/api/"
    then "" else String c (strip_api_suffix r).
Proof. reflexivity. Qed.

Lemma length_cons_app (c : ascii) (base t : string) :
  String.length (String c (base ++ t))
  = S (String.length base + String.length t).
Proof. simpl. now rewrite length_append. Qed.

Lemma strip_api_app (base : string) :
  strip_api_suffix (base ++ "/api") = base /\
  strip_api_suffix (base ++ "/api/") = base.
Proof.
  induction base as [|c base [IH1 IH2]]; [split; reflexivity|].
  rewrite !append_cons, !strip_api_suffix_cons, IH1, IH2.
  split.
  - destruct (String.eqb_spec (String c (base ++ "/api")) "/api") as [E|_].
    { apply length_eq_of_eq in E. rewrite length_cons_app in E.
      change (String.length "/api") with 4%nat in E. lia. }
    destruct (String.eqb_spec (String c (base ++ "/api")) "/api/") as [E|_];
      [|reflexivity].
    destruct base as [|d base].
    + rewrite append_nil in E. discriminate E.
    + apply length_eq_of_eq in E. rewrite length_cons_app in E.
      change (String.length "/api") with 4%nat in E.
      change (String.length "/api/") with 5%nat in E.
      change (String.length (String d base))
        with (S (String.length base)) in E. lia.
  - destruct (String.eqb_spec (String c (base ++ "/api/")) "/api") as [E|_].
    { apply length_eq_of_eq in E. rewrite length_cons_app in E.
      change (String.length "/api") with 4%nat in E.
      change (String.length "/api/") with 5%nat in E. lia. }
    destruct (String.eqb_spec (String c (base ++ "/api/")) "/api/") as [E|_];
      [|reflexivity].
    apply length_eq_of_eq in E. rewrite length_cons_app in E.
    change (String.length "/api/") with 5%nat in E. lia.
Qed.

Lemma strip_api_fixed (s : string) :
  (forall pre, s <> pre ++ "/api") ->
  (forall pre, s <> pre ++ "/api/") ->
  strip_api_suffix s = s.
Proof.
  induction s as [|c s IH]; intros H1 H2; [reflexivity|].
  rewrite strip_api_suffix_cons.
  destruct (String.eqb_spec (String c s) "/api") as [E|_].
  { exfalso. now apply (H1 ""). }
  destruct (String.eqb_spec (String c s) "/api/") as [E|_].
  { exfalso. now apply (H2 ""). }
  simpl. rewrite IH; [reflexivity| |].
  - intros pre ->. apply (H1 (String c pre)). now rewrite append_cons.
  - intros pre ->. apply (H2 (String c pre)). now rewrite append_cons.
Qed.

Lemma append_slashes_nonempty (base : string) (n : nat) :
  base <> "" -> String.eqb (base ++ slashes n) "" = false.
Proof.
  destruct base as [|c base]; [congruence|]. intros _.
  now rewrite append_cons.
Qed.

(** X1: a configured address that ends with [/api], with or without
    slashes behind it, loses exactly that suffix: what stands before it is
    the base every endpoint path is appended to. *)
Theorem cleanApiBase_drops_api (base : string) (n : nat) :
  cleanApiBase (Some (base ++ "/api" ++ slashes n)) = base.
Proof.
  assert (Hlast : forall a b : string,
            a ++ String "i" "" = b ++ String "/" "" -> False).
  { intros a. induction a as [|x a IHa]; intros b Hab.
    - destruct b as [|y [|z b]]; discriminate Hab.
    - destruct b as [|y b].
      + destruct a; discriminate Hab.
      + rewrite !append_cons in Hab. injection Hab as _ Hab.
        now apply (IHa b). }
  assert (Hfix : strip_trailing_slashes (base ++ "/api") = base ++ "/api").
  { apply strip_fixed. intros [pre H].
    apply (Hlast (base ++ "/ap") pre).
    rewrite append_assoc. exact H. }
  assert (Hstrip :
    strip_trailing_slashes (base ++ "/api" ++ slashes n) = base ++ "/api").
  { now rewrite <- append_assoc, strip_app_slashes. }
  assert (Hne : String.eqb (base ++ "/api" ++ slashes n) "" = false).
  { destruct base; reflexivity. }
  assert (Hne' : String.eqb (base ++ "/api") "" = false).
  { destruct base; reflexivity. }
  unfold cleanApiBase, API_BASE. rewrite Hne, Hstrip, Hne'.
  apply strip_api_app.
Qed.

(** X2: a configured address that is not empty and has neither a final
    slash nor a final [/api] is used as it is, and slashes written behind
    it are dropped. *)
Theorem cleanApiBase_plain (base : string) (n : nat) :
  base <> "" ->
  ~ ends_with_slash base ->
  (forall pre, base <> pre ++ "/api") ->
  API_BASE (Some (base ++ slashes n)) = base /\
  cleanApiBase (Some (base ++ slashes n)) = base.
Proof.
  intros Hne Hslash Hapi.
  assert (Hbase : API_BASE (Some (base ++ slashes n)) = base).
  { unfold API_BASE. rewrite (append_slashes_nonempty _ _ Hne).
    rewrite strip_app_slashes, (strip_fixed _ Hslash).
    destruct (String.eqb_spec base "") as [E|_]; [congruence | reflexivity]. }
  split; [exact Hbase|].
  unfold cleanApiBase. rewrite Hbase. apply strip_api_fixed; [exact Hapi|].
  intros pre ->. apply Hslash. exists (pre ++ "/api").
  now rewrite append_assoc.
Qed.

Lemma cleanApiBase_plain_witness :
  cleanApiBase (Some "http://localhost:8000//") = "http://localhost:8000".
Proof.
  refine (proj2 (cleanApiBase_plain "http://localhost:8000" 2 _ _ _)).
  - discriminate.
  - intros [pre H].
    apply (strip_never_ends_with_slash "http://localhost:8000").
    now exists pre.
  - intros pre H.
    pose proof (proj1 (strip_api_app pre)) as E. rewrite <- H in E.
    vm_compute in E. subst pre. vm_compute in H. discriminate H.
Defined.

(** X3: the address is never empty and never ends with a slash; when the
    variable is unset, empty or made of slashes only, it is the fixed
    fallback host. *)
Theorem API_BASE_shape (env : option string) :
  API_BASE env <> "" /\
  ~ ends_with_slash (API_BASE env) /\
  (env = None \/ (exists n, env = Some (slashes n)) ->
   API_BASE env = default_backend /\ cleanApiBase env = default_backend).
Proof.
  assert (Hdef : ~ ends_with_slash default_backend).
  { change default_backend with (strip_trailing_slashes default_backend).
    apply strip_never_ends_with_slash. }
  split; [|split].
  - unfold API_BASE. destruct env as [url|]; [|discriminate].
    destruct (String.eqb url ""); [discriminate|].
    destruct (String.eqb_spec (strip_trailing_slashes url) "");
      [discriminate | assumption].
  - unfold API_BASE. destruct env as [url|]; [|exact Hdef].
    destruct (String.eqb url ""); [exact Hdef|].
    destruct (String.eqb (strip_trailing_slashes url) ""); [exact Hdef|].
    apply strip_never_ends_with_slash.
  - intros Henv.
    assert (Hbase : API_BASE env = default_backend).
    { destruct Henv as [->|[n ->]]; [reflexivity|].
      unfold API_BASE. rewrite strip_slashes_only.
      now destruct (String.eqb (slashes n) ""). }
    split; [exact Hbase|]. unfold cleanApiBase. now rewrite Hbase.
Qed.

(** ** The header of the dashboard *)

Lemma first_piece_spec (s : string) :
  exists rest,
    s = first_piece s ++ rest /\
    no_space (first_piece s) /\
    (rest = "" \/ exists r, rest = String " " r).
Proof.
  induction s as [|c s (rest & Hs & Hno & Hrest)].
  - exists "". repeat split. now left.
  - simpl. destruct (Ascii.eqb_spec c " ") as [->|Hc].
    + exists (String " " s). repeat split. right. now exists s.
    + exists rest. rewrite append_cons, <- Hs. repeat split; assumption.
Qed.

(** X4: when the profile has a string [full_name], the greeting is "Hey, "
    followed by the characters of the name that stand before its first
    space; when there are none (an empty name, or a name that starts with a
    space) it greets "User". *)
Theorem greeting_first_name (user : jsval) (name : string) :
  get_prop_opt user "full_name" = Some (JStr name) ->
  exists w rest,
    name = w ++ rest /\
    no_space w /\
    (rest = "" \/ exists r, rest = String " " r) /\
    greeting user
    = Normal ("Hey, " ++ (if String.eqb w "" then "User" else w)).
Proof.
  intros Hname. destruct (first_piece_spec name) as (rest & Hs & Hno & Hrest).
  exists (first_piece name), rest. repeat split; try assumption.
  unfold greeting. rewrite Hname. simpl. unfold js_or. simpl.
  destruct (String.eqb (first_piece name) ""); reflexivity.
Qed.

Lemma greeting_first_name_witness :
  exists w rest,
    "Ada Lovelace" = w ++ rest /\
    no_space w /\
    (rest = "" \/ exists r, rest = String " " r) /\
    greeting (Some (JObj [("full_name", JStr "Ada Lovelace")]))
    = Normal ("Hey, " ++ (if String.eqb w "" then "User" else w)).
Proof.
  apply (greeting_first_name
           (Some (JObj [("full_name", JStr "Ada Lovelace")])) "Ada Lovelace").
  reflexivity.
Defined.

(** X5: computing the greeting throws exactly when the profile has a
    [full_name] that is neither a string nor [null]; without a profile, or
    without a name in it, the greeting is "Hey, User". *)
Theorem greeting_throws_iff (user : jsval) :
  ((exists e, greeting user = Throw e) <->
   exists v, get_prop_opt user "full_name" = Some v /\
             v <> JNull /\ forall s, v <> JStr s) /\
  (get_prop_opt user "full_name" = None \/
   get_prop_opt user "full_name" = Some JNull ->
   greeting user = Normal "Hey, User").
Proof.
  unfold greeting. split.
  - destruct (get_prop_opt user "full_name") as [[| b | n | s | l | m]|];
      simpl; split;
      try (intros [e H]; discriminate H);
      try (intros (v & [= <-] & Hnull & Hstr); congruence);
      try (intros _; eauto);
      try (intros _; eexists; repeat split; try discriminate; reflexivity).
  - intros [-> | ->]; reflexivity.
Qed.

(** X6: the avatar shows the first character of the name when the profile
    has a name that is not empty; otherwise the first character of the
    email when there is one; otherwise the letter U.  The character is
    taken as it stands (no upper-casing); it is an ASCII character here. *)
Theorem avatar_initial_letter (user : jsval) :
  (forall c rest,
     is_ascii_char c = true ->
     get_prop_opt user "full_name" = Some (JStr (String c rest)) ->
     avatar_initial user = Normal (Some (JStr (String c "")))) /\
  (forall c rest,
     is_ascii_char c = true ->
     no_text (get_prop_opt user "full_name") ->
     get_prop_opt user "email" = Some (JStr (String c rest)) ->
     avatar_initial user = Normal (Some (JStr (String c "")))) /\
  (no_text (get_prop_opt user "full_name") ->
   no_text (get_prop_opt user "email") ->
   avatar_initial user = Normal (Some (JStr "U"))).
Proof.
  unfold avatar_initial, no_text. split; [|split].
  - intros c rest _ ->. reflexivity.
  - intros c rest _ [-> | [-> | ->]] ->; reflexivity.
  - intros [-> | [-> | ->]] [-> | [-> | ->]]; reflexivity.
Qed.

Lemma avatar_initial_letter_witness :
  avatar_initial (Some (JObj [("full_name", JStr "");
                              ("email", JStr "ada@example.org")]))
  = Normal (Some (JStr "a")).
Proof.
  refine (proj1 (proj2 (avatar_initial_letter
                          (Some (JObj [("full_name", JStr "");
                                       ("email", JStr "ada@example.org")]))))
            "a"%char "da@example.org" _ _ _).
  - reflexivity.
  - right. right. reflexivity.
  - reflexivity.
Defined.

(** ** The request gateway, all responses *)

(** X7: the outcomes of the gateway.  A 204 response resolves to [null]
    whatever its body; any other 2xx response resolves to the value of its
    body; the gateway rejects on a network error, on a status outside 2xx,
    and on a 2xx status other than 204 with a body that is not JSON. *)
Theorem fetchWithAuth_outcomes (fetch : Fetch) (tok : jsval)
    (path : string) (options : Options) :
  (forall status body,
     fetch (gateway_request tok path options) = Responded status body ->
     200 <= status <= 299 ->
     (status = 204 -> fetchWithAuth fetch tok path options = Normal JNull) /\
     (status <> 204 ->
      forall v, JSON.parse body = Some v ->
                fetchWithAuth fetch tok path options = Normal v)) /\
  (gateway_rejects (fetch (gateway_request tok path options)) ->
   exists e, fetchWithAuth fetch tok path options = Throw e).
Proof.
  split; [|apply gateway_rejects_throws].
  intros status body Hfetch Hrange.
  rewrite (fetchWithAuth_responded _ _ _ _ _ _ Hfetch).
  apply response_ok_range in Hrange. rewrite Hrange. simpl. split.
  - now intros ->.
  - intros H204 v Hv. apply Z.eqb_neq in H204. rewrite H204.
    unfold response_json, JSON_parse. now rewrite Hv.
Qed.

Lemma fetchWithAuth_outcomes_witness :
  fetchWithAuth (fun _ => Responded 204 "") (Some (JStr "t1"))
    "/api/medicines" no_options = Normal JNull /\
  fetchWithAuth (fun _ => Responded 200 "[]") (Some (JStr "t1"))
    "/api/medicines" no_options = Normal (JArr []) /\
  exists e,
    fetchWithAuth (fun _ => Responded 200 "") (Some (JStr "t1"))
      "/api/medicines" no_options = Throw e.
Proof.
  split; [|split].
  - refine (proj1 (proj1 (fetchWithAuth_outcomes (fun _ => Responded 204 "")
                            (Some (JStr "t1")) "/api/medicines" no_options)
                     204 "" _ _) _).
    + reflexivity.
    + lia.
    + reflexivity.
  - refine (proj2 (proj1 (fetchWithAuth_outcomes
                            (fun _ => Responded 200 "[]")
                            (Some (JStr "t1")) "/api/medicines" no_options)
                     200 "[]" _ _) _ _ _).
    + reflexivity.
    + lia.
    + lia.
    + vm_compute. reflexivity.
  - refine (proj2 (fetchWithAuth_outcomes (fun _ => Responded 200 "")
                     (Some (JStr "t1")) "/api/medicines" no_options) _).
    right. split; [lia | vm_compute; reflexivity].
Defined.

(** X8: on a status outside 2xx the gateway rejects with an [Error] whose
    message is the [detail] of the JSON body when it is a non-empty string,
    else its [message] when that is one, and "Request failed (status)" when
    the body is not JSON. *)
Theorem fetchWithAuth_error_message (fetch : Fetch) (tok : jsval)
    (path : string) (options : Options) (status : Z) (body : string) :
  fetch (gateway_request tok path options) = Responded status body ->
  ~ (200 <= status <= 299) ->
  exists msg,
    fetchWithAuth fetch tok path options = Throw (mkError Error msg) /\
    (not_json body ->
     msg = "Request failed (" ++ string_of_Z status ++ ")") /\
    (forall members d,
       JSON.parse body = Some (JObj members) ->
       assoc "detail" members = Some (JStr d) -> d <> "" ->
       msg = d) /\
    (forall members m,
       JSON.parse body = Some (JObj members) ->
       truthy (assoc "detail" members) = false ->
       assoc "message" members = Some (JStr m) -> m <> "" ->
       msg = m).
Proof.
  intros Hfetch Hstatus.
  assert (Hok : response_ok status = false).
  { destruct (response_ok status) eqn:E; [|reflexivity].
    apply response_ok_range in E. contradiction. }
  rewrite (fetchWithAuth_responded _ _ _ _ _ _ Hfetch), Hok. simpl negb.
  cbv iota. eexists. split; [reflexivity|].
  rewrite safeJson_parse. unfold js_or, get_prop_opt.
  split; [|split].
  - intros Hbody. rewrite (not_json_parse _ Hbody). reflexivity.
  - intros members d -> -> Hd. simpl.
    apply String.eqb_neq in Hd. now rewrite Hd.
  - intros members m -> Hdetail -> Hm. rewrite Hdetail. simpl.
    apply String.eqb_neq in Hm. now rewrite Hm.
Qed.

Lemma fetchWithAuth_error_message_witness :
  exists msg,
    fetchWithAuth (fun _ => Responded 401 "Unauthorized") (Some (JStr "t1"))
      "/api/medicines" no_options = Throw (mkError Error msg) /\
    msg = "Request failed (401)".
Proof.
  destruct (fetchWithAuth_error_message
              (fun _ => Responded 401 "Unauthorized") (Some (JStr "t1"))
              "/api/medicines" no_options 401 "Unauthorized")
    as (msg & H1 & H2 & _).
  - reflexivity.
  - lia.
  - exists msg. split; [exact H1|]. apply H2. vm_compute. reflexivity.
Defined.

(** ** Handlers: what they keep and that they complete *)

Lemma keeps_ret {A} (P : App -> Prop) (x : A) : keeps P (mret x).
Proof. intros a H. exact H. Qed.

Lemma keeps_bind {A B} (P : App -> Prop) (m : M A) (k : A -> M B) :
  keeps P m -> (forall x, keeps P (k x)) -> keeps P (m ≫= k).
Proof.
  intros Hm Hk a Ha. unfold mbind, M_bind.
  specialize (Hm a Ha). destruct (m a) as [[x|e] a']; simpl in *.
  - now apply Hk.
  - exact Hm.
Qed.

Lemma keeps_lift {A} (P : App -> Prop) (c : Completion A) : keeps P (lift c).
Proof. intros a H. exact H. Qed.

Lemma keeps_throw {A} (P : App -> Prop) (e : JsError) :
  keeps P (throw (A := A) e).
Proof. intros a H. exact H. Qed.

Lemma keeps_gets {A} (P : App -> Prop) (f : App -> A) : keeps P (gets f).
Proof. intros a H. exact H. Qed.

Lemma keeps_getItem (P : App -> Prop) (k : string) : keeps P (getItem k).
Proof. intros a H. exact H. Qed.

Lemma keeps_modify (P : App -> Prop) (f : App -> App) :
  (forall a, P a -> P (f a)) -> keeps P (modify f).
Proof. intros Hf a H. now apply Hf. Qed.

Lemma keeps_try_catch {A} (P : App -> Prop) (body : M A)
    (handler : JsError -> M A) :
  keeps P body -> (forall e, keeps P (handler e)) ->
  keeps P (try_catch body handler).
Proof.
  intros Hb Hh a Ha. unfold try_catch.
  specialize (Hb a Ha). destruct (body a) as [[x|e] a']; simpl in *.
  - exact Hb.
  - now apply Hh.
Qed.

Lemma keeps_try_finally {A} (P : App -> Prop) (body : M A)
    (finalizer : M unit) :
  keeps P body -> keeps P finalizer -> keeps P (try_finally body finalizer).
Proof.
  intros Hb Hf a Ha. unfold try_finally.
  specialize (Hb a Ha). destruct (body a) as [c a']. simpl in Hb.
  specialize (Hf a' Hb). destruct (finalizer a') as [[u|e] a'']; exact Hf.
Qed.

Lemma never_throws_modify (f : App -> App) : never_throws (modify f).
Proof. intros a. now exists tt. Qed.

Lemma never_throws_bind {A B} (m : M A) (k : A -> M B) :
  never_throws m -> (forall x, never_throws (k x)) -> never_throws (m ≫= k).
Proof.
  intros Hm Hk a. unfold mbind, M_bind.
  destruct (Hm a) as [x Hx]. destruct (m a) as [c a']. simpl in Hx. subst c.
  apply Hk.
Qed.

Lemma never_throws_try_catch {A} (body : M A) (handler : JsError -> M A) :
  (forall e, never_throws (handler e)) ->
  never_throws (try_catch body handler).
Proof.
  intros Hh a. unfold try_catch.
  destruct (body a) as [[x|e] a']; [now exists x | apply Hh].
Qed.

Lemma never_throws_try_finally {A} (body : M A) (finalizer : M unit) :
  never_throws body -> never_throws finalizer ->
  never_throws (try_finally body finalizer).
Proof.
  intros Hb Hf a. unfold try_finally.
  destruct (Hb a) as [x Hx]. destruct (body a) as [c a']. simpl in Hx.
  subst c. destruct (Hf a') as [u Hu].
  destruct (finalizer a') as [c' a'']. simpl in Hu. subst c'.
  now exists x.
Qed.

(** The handler of every [catch] block of the component: log, then show
    the message. *)
Lemma never_throws_report (prefix : string) (e : JsError) :
  never_throws (console_error prefix e;; showToast (message e) error).
Proof.
  apply never_throws_bind; [apply never_throws_modify|].
  intros _. apply never_throws_modify.
Qed.

Lemma try_finally_setLoading {A} (body : M A) (a : App) :
  loading (snd (try_finally body (setLoading false) a)) = false.
Proof.
  unfold try_finally, setLoading, modify. destruct (body a) as [c a'].
  reflexivity.
Qed.

(** X9: whatever the network does and whatever the response holds, the
    submit handler completes without throwing and leaves [loading] off. *)
Theorem handleAuthSubmit_settles (fetch : Fetch) (a : App) :
  outcome_of (handleAuthSubmit fetch) a = Normal tt /\
  loading (exec (handleAuthSubmit fetch) a) = false.
Proof.
  unfold outcome_of, exec, handleAuthSubmit. split.
  - assert (H : never_throws (handleAuthSubmit fetch)).
    { unfold handleAuthSubmit.
      apply never_throws_bind; [apply never_throws_modify|]. intros _.
      apply never_throws_try_finally; [|apply never_throws_modify].
      apply never_throws_try_catch. intros e. apply never_throws_report. }
    destruct (H a) as [[] Hx]. exact Hx.
  - unfold mbind at 1. unfold M_bind at 1.
    change (setLoading true a) with (Normal tt, with_loading true a).
    cbv beta iota. apply try_finally_setLoading.
Qed.

(** X10: a successful attempt wipes the password from the form and keeps
    the other credentials; a failed attempt leaves the whole form as the
    user typed it. *)
Theorem password_cleared_only_on_success (fetch : Fetch) (a : App) :
  let request := auth_request (authMode a) (authValues a) in
  let after := authValues (exec (handleAuthSubmit fetch) a) in
  (forall status body members,
     fetch request = Responded status body ->
     200 <= status <= 299 ->
     JSON.parse body = Some (JObj members) ->
     av_password after = "" /\
     av_email after = av_email (authValues a) /\
     av_full_name after = av_full_name (authValues a) /\
     av_role after = av_role (authValues a)) /\
  (attempt_failed (fetch request) -> after = authValues a).
Proof.
  intros request after. subst request after. unfold exec. split.
  - intros status body members Hfetch Hrange Hparse.
    apply response_ok_range in Hrange.
    rewrite (handleAuthSubmit_success _ _ _ _ _ Hfetch Hrange Hparse).
    simpl. auto.
  - intros Hfail.
    destruct (fetch (auth_request (authMode a) (authValues a)))
      as [msg|status body] eqn:Hfetch.
    + now rewrite (handleAuthSubmit_network _ _ _ Hfetch).
    + assert (Hok : response_ok status = false).
      { destruct (response_ok status) eqn:E; [|reflexivity].
        apply response_ok_range in E. contradiction. }
      now rewrite (handleAuthSubmit_refused _ _ _ _ Hfetch Hok).
Qed.

Lemma password_cleared_only_on_success_witness :
  let a :=
    exec (handleAuthChange "password" "s3cret") (initial "2027-05-02" ∅) in
  authValues (exec (handleAuthSubmit (fun _ => NetworkError "offline")) a)
  = authValues a.
Proof.
  intros a.
  refine (proj2 (password_cleared_only_on_success
                   (fun _ => NetworkError "offline") a) _).
  exact I.
Defined.

(** X11: a successful login followed by a sign-out leaves the session
    storage as it was without the record; when there was no record before
    the login, the storage is exactly as before. *)
Theorem login_then_signOut_storage (fetch : Fetch) (a : App)
    (status : Z) (body : string) (members : list (string * json)) :
  fetch (auth_request (authMode a) (authValues a)) = Responded status body ->
  200 <= status <= 299 ->
  JSON.parse body = Some (JObj members) ->
  let after := exec signOut (exec (handleAuthSubmit fetch) a) in
  sessionStorage after = delete AUTH_STORAGE_KEY (sessionStorage a) /\
  (sessionStorage a !! AUTH_STORAGE_KEY = None ->
   sessionStorage after = sessionStorage a).
Proof.
  intros Hfetch Hrange Hparse after. subst after.
  apply response_ok_range in Hrange.
  unfold exec. rewrite signOut_state.
  rewrite (handleAuthSubmit_success _ _ _ _ _ Hfetch Hrange Hparse).
  cbn [snd sessionStorage].
  rewrite delete_insert_eq. split; [reflexivity|].
  intros Habsent. now apply delete_id.
Qed.

Lemma login_then_signOut_storage_witness :
  let response :=
    JSON.stringify (JObj [("access_token", JStr "t1"); ("user", JNull)]) in
  let a := initial "2027-05-02" {["theme" := "dark"]} in
  sessionStorage
    (exec signOut (exec (handleAuthSubmit (fun _ => Responded 200 response)) a))
  = sessionStorage a.
Proof.
  intros response a.
  refine (proj2 (login_then_signOut_storage
                   (fun _ => Responded 200 response) a 200 response
                   [("access_token", JStr "t1"); ("user", JNull)] _ _ _) _).
  - reflexivity.
  - lia.
  - vm_compute. reflexivity.
  - vm_compute. reflexivity.
Defined.

(** ** The create form, all outcomes *)

Lemma handleCreateMedicine_signed_out toISOString fetch (a : App) :
  authenticated a = false ->
  handleCreateMedicine toISOString fetch a
  = (Normal tt,
     with_timers (S (timers a))
       (with_toast (Some (mkToast "Please login first" error)) a)).
Proof.
  intros H. unfold handleCreateMedicine. run_handler. rewrite H. reflexivity.
Qed.

Lemma handleCreateMedicine_failed toISOString fetch (a : App) :
  create_fails toISOString fetch a ->
  exists e n,
    handleCreateMedicine toISOString fetch a
    = (Normal tt,
       mkApp (authMode a) (authValues a) (token a) (user a) (loading a)
         (medicines a) (analytics a) (searchQuery a) (medicineForm a)
         (Some (mkToast (message e) error)) (sessionStorage a)
         (console a ++ ["" ++ message e]) (S (n + timers a))) /\
    forall e', toISOString (mf_expiry_date (medicineForm a)) = Throw e' ->
               e' = e.
Proof.
  intros [Hauth Hcause].
  destruct Hcause
    as [[e Hdate]|(iso & Hdate & [Hpost|([created Hpost] & Hget)])].
  - unfold handleCreateMedicine. run_handler. rewrite Hauth. simpl.
    rewrite Hdate. simpl.
    exists e, 0%nat. split; [reflexivity | now intros e' [= ->]].
  - apply gateway_rejects_throws in Hpost as [e Hpost].
    unfold create_options in Hpost.
    unfold handleCreateMedicine. run_handler. rewrite Hauth. simpl.
    rewrite Hdate. simpl. rewrite Hpost. simpl.
    exists e, 0%nat. split; [reflexivity | discriminate].
  - apply gateway_rejects_throws in Hget as [e Hget].
    unfold create_options in Hpost.
    unfold handleCreateMedicine, fetchMedicines. run_handler.
    rewrite Hauth. simpl. rewrite Hdate. simpl. rewrite Hpost. simpl.
    rewrite Hget. simpl.
    exists e, 1%nat. split; [reflexivity | discriminate].
Qed.

(** X12: when a submission of the create form fails (unreadable expiry
    date, request rejected by the gateway, or refetch of the list rejected
    after the medicine was created) the draft and the medicine list stay
    as they were and an error notice is shown; for an unreadable date it
    carries the message of the error of the conversion. *)
Theorem create_failure_keeps_draft
    (toISOString : string -> Completion string) (fetch : Fetch) (a : App) :
  create_fails toISOString fetch a ->
  let a' := exec (handleCreateMedicine toISOString fetch) a in
  medicineForm a' = medicineForm a /\
  medicines a' = medicines a /\
  exists msg,
    toast a' = Some (mkToast msg error) /\
    forall e, toISOString (mf_expiry_date (medicineForm a)) = Throw e ->
              msg = message e.
Proof.
  intros Hfail a'. subst a'. unfold exec.
  destruct (handleCreateMedicine_failed _ _ _ Hfail) as (e & n & -> & He).
  simpl. split; [reflexivity|]. split; [reflexivity|].
  exists (message e). split; [reflexivity|].
  intros e' He'. now rewrite (He e' He').
Qed.

Lemma create_failure_keeps_draft_witness :
  let a :=
    with_medicineForm (set_field (InName "Amoxicillin")
                         (initial_form "2027-05-02"))
      (with_token (Some (JStr "t1")) (initial "2027-05-02" ∅)) in
  let fetch : Fetch :=
    fun r => match req_method r with
             | Some _ => Responded 201 "{}"
             | None => Responded 500 "oops"
             end in
  let a' := exec (handleCreateMedicine (fun d => Normal d) fetch) a in
  medicineForm a' = medicineForm a /\
  medicines a' = medicines a /\
  exists msg, toast a' = Some (mkToast msg error).
Proof.
  intros a fetch a'.
  destruct (create_failure_keeps_draft (fun d => Normal d) fetch a)
    as (Hform & Hlist & msg & Htoast & _).
  - split; [reflexivity|]. right. exists "2027-05-02".
    split; [reflexivity|]. right. split.
    + exists (JObj []). vm_compute. reflexivity.
    + left. simpl. lia.
  - split; [exact Hform|]. split; [exact Hlist|]. now exists msg.
Defined.

(** X13: without a session the create handler sends nothing and changes
    nothing but the notice, which asks to log in; the network and the date
    conversion play no part. *)
Theorem create_requires_login
    (toISOString : string -> Completion string) (fetch : Fetch) (a : App) :
  authenticated a = false ->
  let a' := exec (handleCreateMedicine toISOString fetch) a in
  toast a' = Some (mkToast "Please login first" error) /\
  with_timers (timers a) (with_toast (toast a) a') = a /\
  forall toISOString' fetch',
    exec (handleCreateMedicine toISOString' fetch') a = a'.
Proof.
  intros Hauth a'. subst a'. unfold exec.
  rewrite (handleCreateMedicine_signed_out _ _ _ Hauth). simpl.
  split; [reflexivity|]. split.
  - destruct a. reflexivity.
  - intros t f. now rewrite (handleCreateMedicine_signed_out _ _ _ Hauth).
Qed.

Lemma create_requires_login_witness :
  toast (exec (handleCreateMedicine (fun d => Normal d)
                 (fun _ => Responded 201 "{}"))
           (initial "2027-05-02" ∅))
  = Some (mkToast "Please login first" error).
Proof.
  refine (proj1 (create_requires_login (fun d => Normal d)
                   (fun _ => Responded 201 "{}")
                   (initial "2027-05-02" ∅) _)).
  reflexivity.
Defined.

(** X14: the create handler never throws: every error of the date
    conversion, of the request and of the refetch ends in its [catch]. *)
Theorem create_never_throws
    (toISOString : string -> Completion string) (fetch : Fetch) (a : App) :
  outcome_of (handleCreateMedicine toISOString fetch) a = Normal tt.
Proof.
  assert (H : never_throws (handleCreateMedicine toISOString fetch)).
  { unfold handleCreateMedicine.
    apply never_throws_bind; [intros b; now eexists|].
    intros signed_in. destruct signed_in; simpl.
    - apply never_throws_try_catch. intros e. apply never_throws_report.
    - apply never_throws_modify. }
  unfold outcome_of. destruct (H a) as [[] Hx]. exact Hx.
Qed.

(** ** The warm-up after a login *)

Lemma settle_endpoint (k : Kind) (tok : jsval) (outcome : FetchOutcome)
    (a : App) :
  settle k tok outcome a
  = match fetchWithAuth (fun _ => outcome) tok (endpoint k) no_options with
    | Normal v =>
        (Normal tt,
         match k with
         | KProfile =>
             with_sessionStorage
               (<[AUTH_STORAGE_KEY :=
                    JSON_stringify [("token", tok); ("user", Some v)]]>
                  (sessionStorage a))
               (with_user (Some v) a)
         | KMedicines => with_medicines (Some v) a
         | KAnalytics => with_analytics (Some v) a
         end)
    | Throw e => (Throw e, a)
    end.
Proof.
  destruct k; simpl;
    unfold fetchProfile, fetchMedicines, fetchAnalytics; run_handler;
    destruct (fetchWithAuth _ tok _ no_options); reflexivity.
Qed.

Lemma resolve_notice (b : Batch) (k : Kind) (outcome : FetchOutcome)
    (a : App) :
  toast (snd (resolve b k outcome a)) = toast a /\
  timers (snd (resolve b k outcome a)) = timers a.
Proof.
  unfold resolve. destruct (existsb _ _); [|auto].
  rewrite settle_endpoint.
  destruct (fetchWithAuth _ (captured b) (endpoint k) no_options) as [v|e].
  - destruct k; auto.
  - destruct (rejected b); auto.
Qed.

(** X15: the continuation of a warm-up request never shows a notice,
    whether the request succeeded or failed: the notice on the screen and
    its timers are as before. *)
Theorem warmup_never_toasts (b : Batch) (k : Kind) (outcome : FetchOutcome)
    (a : App) :
  toast (snd (resolve b k outcome a)) = toast a /\
  timers (snd (resolve b k outcome a)) = timers a.
Proof. apply resolve_notice. Qed.

(** X16: a warm-up request that the gateway rejects changes no data: the
    user, the medicine list, the analytics, the token and the persisted
    record stay as they were.  The batch is marked as rejected, and the
    failure is logged, in one line, when it is the first of its batch. *)
Theorem warmup_failure_keeps_data (b : Batch) (k : Kind)
    (outcome : FetchOutcome) (a : App) :
  existsb (kind_eqb k) (waiting b) = true ->
  gateway_rejects outcome ->
  let b' := fst (resolve b k outcome a) in
  let a' := snd (resolve b k outcome a) in
  user a' = user a /\
  medicines a' = medicines a /\
  analytics a' = analytics a /\
  token a' = token a /\
  sessionStorage a' = sessionStorage a /\
  rejected b' = true /\
  (rejected b = true -> console a' = console a) /\
  (rejected b = false ->
   exists msg,
     console a' = (console a ++ ["Fetch data error: " +:+ msg])%list).
Proof.
  intros Hwait Hrej b' a'. subst b' a'.
  destruct (gateway_rejects_throws (fun _ => outcome) (captured b)
              (endpoint k) no_options Hrej) as [e Hfetch].
  unfold resolve. rewrite Hwait, settle_endpoint, Hfetch.
  destruct (rejected b); simpl; repeat split; try discriminate; eauto.
Qed.

Lemma warmup_failure_keeps_data_witness :
  let a := with_medicines (Some (JArr [JObj [("name", JStr "Calpol")]]))
             (with_token (Some (JStr "t1")) (initial "2027-05-02" ∅)) in
  medicines
    (snd (resolve (warmup (Some (JStr "t1"))) KMedicines
            (Responded 401 "{}") a))
  = medicines a.
Proof.
  intros a.
  refine (proj1 (proj2 (warmup_failure_keeps_data
                   (warmup (Some (JStr "t1"))) KMedicines
                   (Responded 401 "{}") a _ _))).
  - reflexivity.
  - left. lia.
Defined.

Lemma remove_kind_other (k k' : Kind) (l : list Kind) :
  kind_eqb k k' = false ->
  existsb (kind_eqb k') (remove_kind k l) = existsb (kind_eqb k') l.
Proof.
  intros Hne. unfold remove_kind.
  induction l as [|x l IH]; [reflexivity|]. simpl.
  destruct (kind_eqb k x) eqn:E; simpl; rewrite IH; [|reflexivity].
  destruct k, x, k'; try discriminate; reflexivity.
Qed.

(** X17: a batch logs one failure: when the gateway rejects two of its
    requests, the first adds one line to the console (the message of the
    network error when there was no response) and the second adds
    nothing. *)
Theorem batch_logs_first_failure_only (b : Batch) (k1 k2 : Kind)
    (o1 o2 : FetchOutcome) (a : App) :
  rejected b = false ->
  kind_eqb k1 k2 = false ->
  existsb (kind_eqb k1) (waiting b) = true ->
  existsb (kind_eqb k2) (waiting b) = true ->
  gateway_rejects o1 ->
  gateway_rejects o2 ->
  let r1 := resolve b k1 o1 a in
  let r2 := resolve (fst r1) k2 o2 (snd r1) in
  (exists msg,
     console (snd r1) = (console a ++ ["Fetch data error: " +:+ msg])%list /\
     forall m, o1 = NetworkError m -> msg = m) /\
  console (snd r2) = console (snd r1).
Proof.
  intros Hrej Hne Hw1 Hw2 H1 H2 r1 r2. subst r1 r2.
  destruct (gateway_rejects_throws (fun _ => o1) (captured b)
              (endpoint k1) no_options H1) as [e1 E1].
  destruct (gateway_rejects_throws (fun _ => o2) (captured b)
              (endpoint k2) no_options H2) as [e2 E2].
  assert (Hr1 :
    resolve b k1 o1 a
    = (mkBatch (captured b) (remove_kind k1 (waiting b)) true,
       exec (console_error "Fetch data error: " e1) a)).
  { unfold resolve. now rewrite Hw1, settle_endpoint, E1, Hrej. }
  rewrite Hr1. cbn [fst snd]. split.
  - exists (message e1). split; [reflexivity|].
    intros m ->. unfold fetchWithAuth in E1. simpl in E1.
    now injection E1 as <-.
  - unfold resolve. cbn [waiting captured rejected].
    rewrite (remove_kind_other _ _ _ Hne), Hw2, settle_endpoint, E2.
    reflexivity.
Qed.

Lemma batch_logs_first_failure_only_witness :
  let a := with_token (Some (JStr "t1")) (initial "2027-05-02" ∅) in
  let r1 := resolve (warmup (Some (JStr "t1"))) KProfile
              (NetworkError "offline") a in
  let r2 := resolve (fst r1) KAnalytics (Responded 500 "") (snd r1) in
  console (snd r2) = console (snd r1).
Proof.
  intros a r1 r2.
  refine (proj2 (batch_logs_first_failure_only (warmup (Some (JStr "t1")))
                   KProfile KAnalytics (NetworkError "offline")
                   (Responded 500 "") a _ _ _ _ _ _)).
  - reflexivity.
  - reflexivity.
  - reflexivity.
  - reflexivity.
  - exact I.
  - left. lia.
Defined.

(** ** Starting the page *)

Lemma parse_empty_text : JSON.parse "" = None.
Proof. reflexivity. Qed.

Lemma stored_text_nonempty (text : string) (v : json) :
  JSON.parse text = Some v -> String.eqb text "" = false.
Proof.
  intros H. destruct (String.eqb_spec text "") as [->|]; [|reflexivity].
  rewrite parse_empty_text in H. discriminate H.
Qed.

(** X18: [restore] never throws, whatever the storage holds, and it only
    reads: the storage, the cached data and the notice are as before. *)
Theorem restore_only_reads (a : App) :
  outcome_of restore a = Normal tt /\
  sessionStorage (exec restore a) = sessionStorage a /\
  medicines (exec restore a) = medicines a /\
  analytics (exec restore a) = analytics a /\
  toast (exec restore a) = toast a.
Proof.
  unfold outcome_of, exec.
  destruct (sessionStorage a !! AUTH_STORAGE_KEY) as [text|] eqn:Hstored.
  - destruct (String.eqb text "") eqn:Hne.
    + unfold restore. run_handler. rewrite Hstored, Hne. auto.
    + rewrite (restore_text a text Hstored Hne).
      destruct (JSON_parse text) as [payload|e]; [|simpl; auto].
      destruct (get_prop (Some payload) "token") as [tok|e]; [|simpl; auto].
      destruct (truthy tok); [|auto].
      destruct (get_prop (Some payload) "user"); simpl; auto.
  - unfold restore. run_handler. rewrite Hstored. auto.
Qed.

Lemma restore_stored_token (today : string) (storage : gmap string string)
    (tok : json) :
  stored_token storage tok ->
  token (snd (restore (initial today storage))) = Some tok.
Proof.
  intros (text & members & Hstored & Hparse & Htok & Htruthy).
  rewrite (restore_text (initial today storage) text Hstored
             (stored_text_nonempty _ _ Hparse)).
  unfold JSON_parse. rewrite Hparse. simpl. rewrite Htok, Htruthy.
  reflexivity.
Qed.

(** X19: how the page starts.  Over a storage that holds a JSON object
    with a truthy [token], it starts authenticated, with that token.  Over
    a storage without the record, or with a record that is empty, is not
    JSON, or is a JSON value without a truthy [token], it starts
    unauthenticated, with the empty token. *)
Theorem starts_authenticated_cases (today : string)
    (storage : gmap string string) :
  let a := exec restore (initial today storage) in
  (forall tok, stored_token storage tok ->
               authenticated a = true /\ token a = Some tok) /\
  (storage !! AUTH_STORAGE_KEY = None \/
   (exists text,
      storage !! AUTH_STORAGE_KEY = Some text /\
      (text = "" \/ JSON.valid text = false \/
       exists v, JSON.parse text = Some v /\
                 truthy (get_prop_opt (Some v) "token") = false)) ->
   authenticated a = false /\ token a = Some (JStr "")).
Proof.
  intros a. subst a. unfold exec.
  set (a0 := initial today storage).
  assert (Hst : sessionStorage a0 = storage) by reflexivity.
  split.
  - intros tok Htok. unfold authenticated. subst a0.
    rewrite (restore_stored_token today storage tok Htok).
    split; [|reflexivity]. now destruct Htok as (_ & _ & _ & _ & _ & H).
  - intros [Hnone|(text & Hstored & Hcase)].
    + unfold restore. run_handler. now rewrite Hnone.
    + destruct (String.eqb_spec text "") as [->|Hne].
      { unfold restore. run_handler. now rewrite Hstored. }
      apply String.eqb_neq in Hne. rewrite <- Hst in Hstored.
      rewrite (restore_text a0 text Hstored Hne). unfold JSON_parse.
      destruct Hcase as [->|[Hvalid|(v & Hv & Htok)]].
      * discriminate Hne.
      * rewrite (invalid_parse _ Hvalid). split; reflexivity.
      * rewrite Hv.
        destruct v as [| | | | |members]; try (split; reflexivity).
        simpl in Htok |- *. rewrite Htok. split; reflexivity.
Qed.

Lemma starts_authenticated_cases_witness :
  let storage : gmap string string := {[AUTH_STORAGE_KEY := "<html>"]} in
  authenticated (exec restore (initial "2027-05-02" storage)) = false.
Proof.
  intros storage.
  refine (proj1 (proj2 (starts_authenticated_cases "2027-05-02" storage) _)).
  right. exists "<html>". split; [reflexivity|].
  right. left. vm_compute. reflexivity.
Defined.

Lemma same_value_truthy (x y : jsval) :
  same_value x y = true -> truthy x = truthy y.
Proof.
  destruct x as [x|], y as [y|]; simpl; try discriminate; [|reflexivity].
  destruct x, y; simpl; try discriminate; try reflexivity.
  - intros H. apply Bool.eqb_prop in H. now subst.
  - intros H. apply Z.eqb_eq in H. now subst.
  - intros H. apply String.eqb_eq in H. now subst.
Qed.

(** X20: loading the page over a storage that holds a record with a truthy
    token starts the warm-up at once, under the stored token: one batch of
    the three requests is in flight. *)
Theorem mount_resumes_session (today : string)
    (storage : gmap string string) (tok : json) :
  stored_token storage tok ->
  token (app (mount today storage)) = Some tok /\
  inflight (mount today storage) = [warmup (Some tok)].
Proof.
  intros Hstored.
  pose proof (restore_stored_token today storage tok Hstored) as Htok.
  assert (Htruthy : truthy (Some tok) = true).
  { now destruct Hstored as (_ & _ & _ & _ & _ & H). }
  unfold mount, exec. split.
  - rewrite after_render_token. exact Htok.
  - unfold after_render. cbn [app inflight]. rewrite Htok, Htruthy.
    destruct (same_value (token (initial today storage)) (Some tok)) eqn:E.
    + apply same_value_truthy in E. rewrite Htruthy in E. discriminate E.
    + reflexivity.
Qed.

Lemma mount_resumes_session_witness :
  let storage : gmap string string :=
    {[AUTH_STORAGE_KEY :=
        JSON_stringify [("token", Some (JStr "t1")); ("user", Some JNull)]]} in
  inflight (mount "2027-05-02" storage) = [warmup (Some (JStr "t1"))].
Proof.
  intros storage.
  refine (proj2 (mount_resumes_session "2027-05-02" storage (JStr "t1") _)).
  exists (JSON_stringify [("token", Some (JStr "t1")); ("user", Some JNull)]),
         [("token", JStr "t1"); ("user", JNull)].
  repeat split; vm_compute; reflexivity.
Defined.

(** ** Invariants of every run *)

Lemma keeps_notice_frame (f : App -> App) :
  (forall a, toast (f a) = toast a /\ timers (f a) = timers a) ->
  keeps toast_has_timer (modify f).
Proof.
  intros Hf. apply keeps_modify. intros a H. unfold toast_has_timer in *.
  destruct (Hf a) as [-> ->]. exact H.
Qed.

Lemma keeps_notice_showToast (msg : string) (v : Variant) :
  keeps toast_has_timer (showToast msg v).
Proof. intros a _. right. simpl. lia. Qed.

Ltac keeps_notice :=
  repeat first
    [ apply keeps_ret | apply keeps_lift | apply keeps_throw
    | apply keeps_gets | apply keeps_getItem
    | apply keeps_notice_showToast
    | apply keeps_notice_frame; intros ?; split; reflexivity
    | apply keeps_bind; [|intros ?]
    | apply keeps_try_catch; [|intros ?]
    | apply keeps_try_finally
    | match goal with
      | |- keeps _ (if ?b then _ else _) => destruct b
      | |- keeps _ (match ?x with _ => _ end) => destruct x
      | |- keeps _ (let _ := _ in _) => cbv zeta
      end ].

Lemma handleAuthSubmit_notice fetch :
  keeps toast_has_timer (handleAuthSubmit fetch).
Proof.
  unfold handleAuthSubmit, setLoading, setToken, setUser, setItem,
    setAuthValues, console_error. keeps_notice.
Qed.

Lemma signOut_notice : keeps toast_has_timer signOut.
Proof.
  unfold signOut, setToken, setUser, removeItem, setMedicines, setAnalytics.
  keeps_notice.
Qed.

Lemma handleCreateMedicine_notice toISOString fetch :
  keeps toast_has_timer (handleCreateMedicine toISOString fetch).
Proof.
  unfold handleCreateMedicine, fetchMedicines, setMedicines,
    setMedicineForm, console_error. keeps_notice.
Qed.

Lemma restore_notice : keeps toast_has_timer restore.
Proof.
  unfold restore, setToken, setUser, console_error. keeps_notice.
Qed.

Lemma toast_timeout_notice (a : App) :
  toast_has_timer a -> toast_has_timer (toast_timeout a).
Proof.
  intros H. unfold toast_timeout. destruct (timers a); [exact H|].
  now left.
Qed.

Lemma after_render_notice before w :
  toast_has_timer (app w) -> toast_has_timer (app (after_render before w)).
Proof.
  intros H. unfold after_render. cbn [app].
  destruct (_ && _); exact H.
Qed.

Lemma handle_notice toISOString (e : Event) (w : World) :
  toast_has_timer (app w) -> toast_has_timer (app (handle toISOString e w)).
Proof.
  intros H. destruct e; cbn [handle app].
  - exact H.
  - exact H.
  - now apply handleAuthSubmit_notice.
  - now apply signOut_notice.
  - destruct (inflight w !! batch) as [b|]; [|exact H].
    pose proof (resolve_notice b k outcome (app w)) as [Ht Hn].
    destruct (resolve b k outcome (app w)) as [b' a']. cbn [app].
    unfold toast_has_timer in *. simpl in Ht, Hn. now rewrite Ht, Hn.
  - exact H.
  - exact H.
  - now apply handleCreateMedicine_notice.
  - now apply toast_timeout_notice.
  - exact H.
Qed.

Lemma mount_notice today storage :
  toast_has_timer (app (mount today storage)).
Proof.
  unfold mount. apply after_render_notice. cbn [app].
  apply restore_notice. now left.
Qed.

(** X21: in every run of the page, a notice on the screen has a timer
    that has not fired yet: no notice can stay for ever. *)
Theorem notice_always_has_timer
    (toISOString : string -> Completion string) (today : string)
    (storage : gmap string string) (events : list Event) :
  let a := app (run toISOString (mount today storage) events) in
  toast a = None \/ (0 < timers a)%nat.
Proof.
  cbv zeta. unfold run.
  assert (Hgen : forall w, toast_has_timer (app w) ->
            toast_has_timer (app (fold_left (step toISOString) events w))).
  { induction events as [|e events IH]; intros w Hw; [exact Hw|].
    simpl. apply IH. unfold step. destruct e;
      try (apply after_render_notice; now apply handle_notice).
    apply mount_notice. }
  apply Hgen, mount_notice.
Qed.

Lemma resolve_captured (b : Batch) (k : Kind) (outcome : FetchOutcome)
    (a : App) :
  captured (fst (resolve b k outcome a)) = captured b.
Proof.
  unfold resolve. destruct (existsb _ _); [|reflexivity].
  destruct (settle k (captured b) outcome a) as [[u|e] a']; reflexivity.
Qed.

Lemma after_render_batches before w :
  batches_authenticated w -> batches_authenticated (after_render before w).
Proof.
  unfold batches_authenticated, after_render. cbn [inflight]. intros H.
  destruct (negb (same_value (token before) (token (app w)))); simpl;
    [|exact H].
  destruct (truthy (token (app w))) eqn:Htok; [|exact H].
  apply Forall_app. split; [exact H|]. repeat constructor. exact Htok.
Qed.

Lemma handle_batches toISOString (e : Event) (w : World) :
  batches_authenticated w -> batches_authenticated (handle toISOString e w).
Proof.
  unfold batches_authenticated. intros H.
  destruct e; cbn [handle inflight]; try exact H.
  destruct (inflight w !! batch) as [b|] eqn:Hb; [|exact H].
  pose proof (resolve_captured b k outcome (app w)) as Hc.
  destruct (resolve b k outcome (app w)) as [b' a']. cbn [inflight].
  apply Forall_insert; [exact H|]. simpl in Hc. rewrite Hc.
  exact (proj1 (Forall_lookup _ _) H _ _ Hb).
Qed.

Lemma mount_batches today storage :
  batches_authenticated (mount today storage).
Proof.
  unfold mount. apply after_render_batches. constructor.
Qed.

Lemma run_batches toISOString (events : list Event) : forall w,
  batches_authenticated w ->
  batches_authenticated (run toISOString w events).
Proof.
  unfold run. induction events as [|e events IH]; intros w Hw; [exact Hw|].
  simpl. apply IH. unfold step. destruct e;
    try (apply after_render_batches; now apply handle_batches).
  apply mount_batches.
Qed.

(** X22: in every run of the page, each warm-up request in flight was
    started under a truthy token, so it carries the bearer header of that
    token: no profile, medicine or analytics request leaves without
    credentials. *)
Theorem warmup_requests_carry_token
    (toISOString : string -> Completion string) (today : string)
    (storage : gmap string string) (events : list Event) (b : Batch)
    (k : Kind) :
  b ∈ inflight (run toISOString (mount today storage) events) ->
  truthy (captured b) = true /\
  req_headers (gateway_request (captured b) (endpoint k) no_options)
    !! "Authorization"
  = Some ("Bearer " ++ ToString (captured b)).
Proof.
  intros Hin.
  pose proof (run_batches toISOString events _ (mount_batches today storage))
    as Hall.
  unfold batches_authenticated in Hall.
  rewrite Forall_forall in Hall. specialize (Hall b Hin).
  split; [exact Hall|].
  unfold gateway_request, gateway_headers. cbn [req_headers].
  rewrite Hall. apply lookup_insert_eq.
Qed.

Lemma warmup_requests_carry_token_witness :
  let storage : gmap string string :=
    {[AUTH_STORAGE_KEY :=
        JSON_stringify [("token", Some (JStr "t1")); ("user", Some JNull)]]} in
  req_headers
    (gateway_request (Some (JStr "t1")) (endpoint KMedicines) no_options)
    !! "Authorization"
  = Some "Bearer t1".
Proof.
  intros storage.
  refine (proj2 (warmup_requests_carry_token (fun d => Normal d)
                   "2027-05-02" storage [EvSearch "amox"]
                   (warmup (Some (JStr "t1"))) KMedicines _)).
  vm_compute. left.
Defined.

(** X23: a successful login from a signed-out state makes the app
    authenticated and starts one warm-up batch under the new token, behind
    the batches already in flight. *)
Theorem login_starts_warmup
    (toISOString : string -> Completion string) (w : World) (fetch : Fetch)
    (status : Z) (body : string) (members : list (string * json))
    (tok : json) :
  truthy (token (app w)) = false ->
  fetch (auth_request (authMode (app w)) (authValues (app w)))
    = Responded status body ->
  200 <= status <= 299 ->
  JSON.parse body = Some (JObj members) ->
  assoc "access_token" members = Some tok ->
  truthy (Some tok) = true ->
  let w' := step toISOString w (EvAuthSubmit fetch) in
  authenticated (app w') = true /\
  inflight w' = (inflight w ++ [warmup (Some tok)])%list.
Proof.
  intros Hout Hfetch Hrange Hparse Htok Htruthy w'. subst w'.
  apply response_ok_range in Hrange.
  pose proof (handleAuthSubmit_success _ _ _ _ _ Hfetch Hrange Hparse)
    as Hlogin.
  rewrite Htok in Hlogin.
  unfold step. cbn [handle]. unfold exec, authenticated. rewrite Hlogin.
  cbn [snd]. split.
  - rewrite after_render_token. exact Htruthy.
  - unfold after_render. cbn [app inflight token]. rewrite Htruthy.
    destruct (same_value (token (app w)) (Some tok)) eqn:E.
    + apply same_value_truthy in E. congruence.
    + reflexivity.
Qed.

Lemma login_starts_warmup_witness :
  let response :=
    JSON.stringify (JObj [("access_token", JStr "t1"); ("user", JNull)]) in
  inflight (step (fun d => Normal d) (mount "2027-05-02" ∅)
              (EvAuthSubmit (fun _ => Responded 200 response)))
  = [warmup (Some (JStr "t1"))].
Proof.
  intros response.
  refine (proj2 (login_starts_warmup (fun d => Normal d)
                   (mount "2027-05-02" ∅) (fun _ => Responded 200 response)
                   200 response
                   [("access_token", JStr "t1"); ("user", JNull)]
                   (JStr "t1") _ _ _ _ _ _)).
  - reflexivity.
  - reflexivity.
  - lia.
  - vm_compute. reflexivity.
  - reflexivity.
  - reflexivity.
Defined.

(** X24: the timers of the notices are never cancelled: when a second
    notice is shown before the timer of the first has fired, that timer
    clears the second notice, while the timer of the second is still
    pending. *)
Theorem stale_timer_clears_newer_notice (a : App) (m1 m2 : string)
    (v1 v2 : Variant) :
  let shown := exec (showToast m2 v2) (exec (showToast m1 v1) a) in
  toast shown = Some (mkToast m2 v2) /\
  toast (toast_timeout shown) = None /\
  timers (toast_timeout shown) = S (timers a).
Proof. repeat split. Qed.

(** ** Searching *)

Lemma field_matches_query (toLowerCase : string -> string) (med : json)
    (k q q' : string) :
  toLowerCase q = toLowerCase q' ->
  field_matches toLowerCase med k q = field_matches toLowerCase med k q'.
Proof. intros H. unfold field_matches. now rewrite H. Qed.

(** X25: the search ignores the case of a query written in ASCII: two such
    queries of the same length that have the same letter at every
    position, capital or small, give the same result on every list, the
    lists on which the filter throws included. *)
Theorem search_ignores_query_case (toLowerCase : string -> string)
    (M : list json) (q q' : string) :
  lowers_ascii toLowerCase ->
  is_ascii q = true ->
  is_ascii q' = true ->
  ci_equal q q' ->
  filteredMedicines toLowerCase M q = filteredMedicines toLowerCase M q'.
Proof.
  intros Hlow Hq Hq' Hci.
  assert (H : toLowerCase q = toLowerCase q').
  { rewrite (Hlow q Hq), (Hlow q' Hq'). now apply ci_equal_fold. }
  unfold filteredMedicines.
  induction M as [|med M IH]; [reflexivity|]. simpl. rewrite IH.
  unfold medicine_matches.
  now rewrite !(field_matches_query toLowerCase med _ q q' H).
Qed.

Lemma search_ignores_query_case_witness :
  filteredMedicines toLowerCase_basic [JObj [("name", JStr "Calpol")]] "CAL"
  = filteredMedicines toLowerCase_basic [JObj [("name", JStr "Calpol")]]
      "cal".
Proof.
  apply (search_ignores_query_case toLowerCase_basic
           [JObj [("name", JStr "Calpol")]] "CAL" "cal").
  - apply toLowerCase_basic_ascii.
  - reflexivity.
  - reflexivity.
  - apply ci_equal_fold. reflexivity.
Defined.

Lemma ci_substring_narrow (x q y s : string) :
  ci_substring (x ++ q ++ y) s -> ci_substring q s.
Proof.
  intros (pre & mid & post & -> & Hmid). apply ci_equal_fold in Hmid.
  rewrite !fold_ascii_app in Hmid.
  apply fold_ascii_split in Hmid as (mx & rest & -> & _ & Hrest).
  apply fold_ascii_split in Hrest as (mq & my & -> & Hq & _).
  exists (pre ++ mx), mq, (my ++ post). split.
  - now rewrite !append_assoc.
  - now apply ci_equal_fold.
Qed.

Lemma matches_narrow (x q y : string) (med : json) :
  matches (x ++ q ++ y) med -> matches q med.
Proof.
  unfold matches, field_contains.
  intros [(s & Hs & H)|[(s & Hs & H)|(s & Hs & H)]];
    [left | right; left | right; right];
    exists s; (split; [exact Hs | eapply ci_substring_narrow, H]).
Qed.

Lemma filter_narrow (x q y : string) (M : list json) :
  filter (matches (x ++ q ++ y)) M `sublist_of` filter (matches q) M.
Proof.
  induction M as [|med M IH]; [constructor|].
  destruct (decide (matches (x ++ q ++ y) med)) as [Hm|Hm].
  - rewrite (filter_cons_True (matches (x ++ q ++ y))) by exact Hm.
    rewrite (filter_cons_True (matches q))
      by (eapply matches_narrow; exact Hm).
    now constructor.
  - rewrite (filter_cons_False (matches (x ++ q ++ y))) by exact Hm.
    destruct (decide (matches q med)) as [Hq|Hq].
    + rewrite (filter_cons_True (matches q)) by exact Hq. now constructor.
    + now rewrite (filter_cons_False (matches q)) by exact Hq.
Qed.

(** X26: typing more narrows the search, on texts written in ASCII: on
    medicines whose searchable fields are such strings, the result for a
    query that contains [q] is a sublist of the result for [q]. *)
Theorem longer_query_narrows (toLowerCase : string -> string)
    (M : list json) (x q y : string) :
  lowers_ascii toLowerCase ->
  Forall searchable_ascii M ->
  is_ascii (x ++ q ++ y) = true ->
  exists R R',
    filteredMedicines toLowerCase M q = Normal R /\
    filteredMedicines toLowerCase M (x ++ q ++ y) = Normal R' /\
    R' `sublist_of` R.
Proof.
  intros Hlow Hs Hlong.
  assert (Hq : is_ascii q = true).
  { rewrite !is_ascii_app, !andb_true_iff in Hlong. tauto. }
  exists (filter (matches q) M), (filter (matches (x ++ q ++ y)) M).
  split; [|split].
  - now apply filteredMedicines_ascii.
  - now apply filteredMedicines_ascii.
  - apply filter_narrow.
Qed.

Lemma longer_query_narrows_witness :
  exists R R',
    filteredMedicines toLowerCase_basic
      [JObj [("name", JStr "Calpol");
             ("generic_name", JStr "Paracetamol");
             ("category", JStr "Analgesic")]] "cal"
    = Normal R /\
    filteredMedicines toLowerCase_basic
      [JObj [("name", JStr "Calpol");
             ("generic_name", JStr "Paracetamol");
             ("category", JStr "Analgesic")]]
      ("" ++ "cal" ++ "pol")
    = Normal R' /\
    R' `sublist_of` R.
Proof.
  apply (longer_query_narrows toLowerCase_basic _ "" "cal" "pol").
  - apply toLowerCase_basic_ascii.
  - repeat constructor; eexists; split; reflexivity.
  - reflexivity.
Defined.

(** ** Responses of one batch *)

(** X27: the order in which two successful responses of a batch arrive
    does not matter: the state is the same either way. *)
Theorem batch_successes_commute (b : Batch) (k1 k2 : Kind)
    (o1 o2 : FetchOutcome) (a : App) (v1 v2 : json) :
  kind_eqb k1 k2 = false ->
  existsb (kind_eqb k1) (waiting b) = true ->
  existsb (kind_eqb k2) (waiting b) = true ->
  fetchWithAuth (fun _ => o1) (captured b) (endpoint k1) no_options
    = Normal v1 ->
  fetchWithAuth (fun _ => o2) (captured b) (endpoint k2) no_options
    = Normal v2 ->
  let first := resolve b k1 o1 a in
  let second := resolve b k2 o2 a in
  snd (resolve (fst first) k2 o2 (snd first))
  = snd (resolve (fst second) k1 o1 (snd second)).
Proof.
  intros Hne Hw1 Hw2 H1 H2 first second. subst first second.
  assert (Hne' : kind_eqb k2 k1 = false).
  { destruct k1, k2; try discriminate; reflexivity. }
  unfold resolve at 2 3 5 6. rewrite Hw1, Hw2, !settle_endpoint, H1, H2.
  cbn [fst snd]. unfold resolve. cbn [waiting captured rejected].
  rewrite (remove_kind_other _ _ _ Hne), (remove_kind_other _ _ _ Hne').
  rewrite Hw1, Hw2, !settle_endpoint, H1, H2. cbn [snd].
  destruct k1, k2; try discriminate Hne; destruct a; reflexivity.
Qed.

Lemma batch_successes_commute_witness :
  let a := with_token (Some (JStr "t1")) (initial "2027-05-02" ∅) in
  let b := warmup (Some (JStr "t1")) in
  let o1 := Responded 200 "[]" in
  let o2 := Responded 204 "" in
  snd (resolve (fst (resolve b KMedicines o1 a)) KAnalytics o2
         (snd (resolve b KMedicines o1 a)))
  = snd (resolve (fst (resolve b KAnalytics o2 a)) KMedicines o1
           (snd (resolve b KAnalytics o2 a))).
Proof.
  intros a b o1 o2.
  apply (batch_successes_commute b KMedicines KAnalytics o1 o2 a
           (JArr []) JNull); vm_compute; reflexivity.
Defined.

(** ** Login responses that are not what the backend promised *)

(** X28: a 2xx login response whose body is not JSON, or is the JSON
    [null], is treated as a failure: the token, the user and the persisted
    record stay as they were, and an error notice is shown. *)
Theorem login_bad_body_keeps_session (fetch : Fetch) (a : App)
    (status : Z) (body : string) :
  fetch (auth_request (authMode a) (authValues a)) = Responded status body ->
  200 <= status <= 299 ->
  not_json body \/ JSON.parse body = Some JNull ->
  let a' := exec (handleAuthSubmit fetch) a in
  token a' = token a /\
  user a' = user a /\
  sessionStorage a' = sessionStorage a /\
  exists msg, toast a' = Some (mkToast msg error).
Proof.
  intros Hfetch Hrange Hbody a'. subst a'.
  apply response_ok_range in Hrange.
  unfold exec, handleAuthSubmit. run_handler.
  rewrite (await_fetch_responded _ _ _ _ Hfetch). simpl. rewrite Hrange.
  simpl. unfold response_json, JSON_parse.
  destruct Hbody as [Hbody | ->];
    [rewrite (not_json_parse _ Hbody)|]; simpl; eauto 10.
Qed.

Lemma login_bad_body_keeps_session_witness :
  let a' :=
    exec (handleAuthSubmit (fun _ => Responded 200 "<html>"))
      (initial "2027-05-02" ∅) in
  token a' = Some (JStr "") /\
  user a' = Some JNull /\
  sessionStorage a' = ∅ /\
  exists msg, toast a' = Some (mkToast msg error).
Proof.
  intros a'.
  apply (login_bad_body_keeps_session (fun _ => Responded 200 "<html>")
           (initial "2027-05-02" ∅) 200 "<html>").
  - reflexivity.
  - lia.
  - left. vm_compute. reflexivity.
Defined.

(** X29: a 2xx login response whose JSON object has no [access_token] is
    reported as a success, yet the app stays unauthenticated, and so does
    a page that is loaded over the record the handler persisted. *)
Theorem login_without_token (fetch : Fetch) (a : App) (today : string)
    (status : Z) (body : string) (members : list (string * json)) :
  fetch (auth_request (authMode a) (authValues a)) = Responded status body ->
  200 <= status <= 299 ->
  JSON.parse body = Some (JObj members) ->
  assoc "access_token" members = None ->
  let a' := exec (handleAuthSubmit fetch) a in
  authenticated a' = false /\
  toast a' = Some (mkToast
                     match authMode a with
                     | Some register => "Registration successful"
                     | _ => "Logged in successfully"
                     end info) /\
  authenticated (exec restore (initial today (sessionStorage a'))) = false.
Proof.
  intros Hfetch Hrange Hparse Htok a'. subst a'.
  apply response_ok_range in Hrange.
  pose proof (handleAuthSubmit_success _ _ _ _ _ Hfetch Hrange Hparse)
    as Hlogin.
  rewrite Htok in Hlogin.
  assert (Hstate :
    exec (handleAuthSubmit fetch) a = snd (handleAuthSubmit fetch a))
    by reflexivity.
  rewrite Hstate, Hlogin. clear Hstate.
  cbn [snd token toast sessionStorage].
  split; [reflexivity|]. split; [reflexivity|].
  set (text := JSON_stringify [("token", None);
                               ("user", assoc "user" members)]).
  set (b := initial today (<[AUTH_STORAGE_KEY := text]> (sessionStorage a))).
  assert (Hstored : sessionStorage b !! AUTH_STORAGE_KEY = Some text).
  { subst b. cbn [initial sessionStorage]. apply lookup_insert_eq. }
  assert (Hrecord :
    exists record, JSON.parse text = Some (JObj record) /\
                   assoc "token" record = None).
  { subst text. unfold JSON_stringify.
    destruct (assoc "user" members) as [u|] eqn:Hu; simpl defined_members.
    - exists [("user", u)]. split; [|reflexivity].
      apply parse_stringify. constructor.
      + now apply (bool_decide_unpack _).
      + repeat constructor.
        exact (parsed_member_well_formed _ _ _ _ Hparse Hu).
    - exists []. split; reflexivity. }
  destruct Hrecord as (record & Hrecord & Hnone).
  assert (Hrestore : restore b = (Normal tt, b)).
  { rewrite (restore_text b text Hstored (stored_text_nonempty _ _ Hrecord)).
    unfold JSON_parse. rewrite Hrecord. simpl. now rewrite Hnone. }
  change (authenticated (snd (restore b)) = false).
  rewrite Hrestore. reflexivity.
Qed.

Lemma login_without_token_witness :
  let response := JSON.stringify (JObj [("user", JObj [])]) in
  let a' :=
    exec (handleAuthSubmit (fun _ => Responded 200 response))
      (initial "2027-05-02" ∅) in
  authenticated a' = false /\
  toast a' = Some (mkToast "Logged in successfully" info) /\
  authenticated (exec restore (initial "2027-05-02" (sessionStorage a')))
  = false.
Proof.
  intros response a'.
  apply (login_without_token (fun _ => Responded 200 response)
           (initial "2027-05-02" ∅) "2027-05-02" 200 response
           [("user", JObj [])]).
  - reflexivity.
  - lia.
  - vm_compute. reflexivity.
  - reflexivity.
Defined.
